(** * RMDB storage core: buffer pool, LRU replacer, record file handle, record scan

    A shallow embedding of
      - [replacer/lru_replacer.cpp]
      - [storage/buffer_pool_manager.cpp]
      - [record/rm_file_handle.cpp]
      - [record/rm_scan.cpp]
    with explicit state passing.  Every C++ method becomes a function from
    the object's state (and its arguments) to its result and the new state.
    A page pointer [Page*] is the index of the frame in [pages_]; [nullptr]
    is [None].  The pool latch is not modelled: every method is one atomic
    step, which is what the [std::scoped_lock] at its head provides. *)

From Stdlib Require Import ZArith Lia.
From Stdlib.Strings Require Import Byte.
From stdpp Require Import gmap list.

Open Scope Z_scope.

(** ** Constants of the headers *)

(** Modelled from the spec: the headers that declare these sentinels are not
    part of the sources at hand; the disk collaborator "returns an invalid
    sentinel on failure". *)
Definition INVALID_PAGE_ID : Z := -1.

(** Modelled from the spec: "[RM_NO_PAGE] sentinel marks list end". *)
Definition RM_NO_PAGE : Z := -1.

(** Modelled from the spec: "page 0 may be reserved for the file header",
    so the first data page is page 1. *)
Definition RM_FIRST_RECORD_PAGE : Z := 1.

(** ** Data model *)

Abbreviation frame_id_t := nat.

Record PageId := mkPageId { fd : Z; page_no : Z }.

#[global] Instance PageId_eq_dec : EqDecision PageId.
Proof. solve_decision. Defined.

#[global] Program Instance PageId_countable : Countable PageId :=
  inj_countable' (λ p, (fd p, page_no p)) (λ q, mkPageId q.1 q.2) _.
Next Obligation. by intros []. Qed.

(** [RmPageHdr], the header at the start of each data page. *)
Record RmPageHdr := mkPageHdr { next_free_page_no : Z; num_records : Z }.

(** The bytes of a page, seen through the layout contract
    [[page header][slot bitmap][slot 0][slot 1]...]: the three regions are
    disjoint, so the page is the triple of its regions.  The bitmap region
    is indexed by bit position and the slot region by byte offset, as
    [Bitmap::is_set(bitmap, pos)] and [slots + slot_no * record_size] do. *)
Record PageData := mkPageData {
  page_hdr : RmPageHdr;
  bitmap : Z → bool;
  slots : Z → byte
}.

(** Modelled from the spec: [Page::reset_memory] "zero-initializes the
    frame"; it is declared in the missing [page.h].  It clears the bytes
    only: identity, dirty flag and pin count are kept. *)
Definition zero_data : PageData :=
  mkPageData (mkPageHdr 0 0) (λ _, false) (λ _, x00).

(** [int] is 32 bits wide.  [wrap_int z] is the value an [int] holds when
    the arithmetic result [z] is stored in it: two's complement, so that one
    more than [INT_MAX] is [INT_MIN].  (C++ gives signed overflow no meaning
    of its own; this is what the increment instruction of the machine
    does.) *)
Definition INT_MAX : Z := 2147483647.
Definition INT_MIN : Z := -2147483648.
Definition wrap_int (z : Z) : Z :=
  (z + 2147483648) mod 4294967296 - 2147483648.

(** A frame of the pool ([class Page]).  [pin_count_] is a C++ [int]: the
    field is a [Z] here and [pin_count_++] is [wrap_int (pin_count_ + 1)].
    [pin_count_--] is only reached with a positive count, where it cannot
    overflow. *)
Record Page := mkPage {
  id_ : PageId;
  data_ : PageData;
  is_dirty_ : bool;
  pin_count_ : Z
}.

Definition set_data (d : PageData) (p : Page) : Page :=
  mkPage (id_ p) d (is_dirty_ p) (pin_count_ p).
Definition set_dirty (b : bool) (p : Page) : Page :=
  mkPage (id_ p) (data_ p) b (pin_count_ p).
Definition set_pin_count (n : Z) (p : Page) : Page :=
  mkPage (id_ p) (data_ p) (is_dirty_ p) n.
Definition set_id (i : PageId) (p : Page) : Page :=
  mkPage i (data_ p) (is_dirty_ p) (pin_count_ p).

(** Modelled from the spec: a frame that holds no page is "unassigned",
    with pin count 0 (the constructor of [Page] is in the missing header). *)
Definition empty_page : Page :=
  mkPage (mkPageId (-1) INVALID_PAGE_ID) zero_data false 0.

#[global] Instance Page_inhabited : Inhabited Page := populate empty_page.

(** ** The disk collaborator

    [DiskManager] is outside the sources; the pool only calls these three
    methods.  [D] is the state of the disk. *)
Class DiskManager (D : Type) := {
  read_page : D → Z → Z → PageData;
  write_page : D → Z → Z → PageData → D;
  allocate_page : D → Z → Z * D
}.

(** ** LRU replacer ([lru_replacer.cpp]) *)

Record LRUReplacer := mkLRU {
  LRUlist_ : list frame_id_t;
  LRUhash_ : gset frame_id_t;
  max_size_ : nat
}.

Module LRU.

Definition init (num_pages : nat) : LRUReplacer := mkLRU [] ∅ num_pages.

Definition Size (r : LRUReplacer) : nat := length (LRUlist_ r).

(** [std::list::erase(it)] for the iterator that [LRUhash_] keeps for
    [x]: it unlinks one node, the one that holds [x].  ([pin] reads this
    iterator, [it->second], after [LRUhash_.erase(it)]; the model takes the
    value the entry had, as the code means to.) *)
Fixpoint erase_node (x : frame_id_t) (l : list frame_id_t) : list frame_id_t :=
  match l with
  | [] => []
  | y :: l' => if decide (y = x) then l' else y :: erase_node x l'
  end.

(** The loop of [victim]: from [rbegin], the first entry that is a key of
    [LRUhash_]. *)
Definition scan_back (r : LRUReplacer) : option frame_id_t :=
  head (filter (λ x, x ∈ LRUhash_ r) (reverse (LRUlist_ r))).

Definition victim (r : LRUReplacer) : option frame_id_t * LRUReplacer :=
  match LRUlist_ r with
  | [] => (None, r)
  | _ :: _ =>
      match scan_back r with
      | Some x =>
          (Some x,
           mkLRU (filter (λ y, y ≠ x) (LRUlist_ r)) (LRUhash_ r ∖ {[x]})
                 (max_size_ r))
      | None => (None, r)
      end
  end.

Definition pin (frame_id : frame_id_t) (r : LRUReplacer) : LRUReplacer :=
  if decide (frame_id ∈ LRUhash_ r)
  then mkLRU (erase_node frame_id (LRUlist_ r)) (LRUhash_ r ∖ {[frame_id]})
             (max_size_ r)
  else r.

Definition unpin (frame_id : frame_id_t) (r : LRUReplacer) : LRUReplacer :=
  if decide ((frame_id ∉ LRUhash_ r) ∧ (Size r < max_size_ r)%nat)
  then mkLRU (frame_id :: LRUlist_ r) ({[frame_id]} ∪ LRUhash_ r) (max_size_ r)
  else r.

End LRU.

(** ** Buffer pool manager ([buffer_pool_manager.cpp]) *)

Record BufferPoolManager (D : Type) := mkBPM {
  pages_ : list Page;
  page_table_ : gmap PageId frame_id_t;
  free_list_ : list frame_id_t;
  replacer_ : LRUReplacer;
  disk_manager_ : D
}.
Arguments mkBPM {D}.
Arguments pages_ {D}.
Arguments page_table_ {D}.
Arguments free_list_ {D}.
Arguments replacer_ {D}.
Arguments disk_manager_ {D}.

Section buffer_pool.
Context {D : Type} `{!DiskManager D}.

Local Abbreviation BPM := (BufferPoolManager D).

Definition set_pages (ps : list Page) (s : BPM) : BPM :=
  mkBPM ps (page_table_ s) (free_list_ s) (replacer_ s) (disk_manager_ s).
Definition set_page_table (t : gmap PageId frame_id_t) (s : BPM) : BPM :=
  mkBPM (pages_ s) t (free_list_ s) (replacer_ s) (disk_manager_ s).
Definition set_free_list (l : list frame_id_t) (s : BPM) : BPM :=
  mkBPM (pages_ s) (page_table_ s) l (replacer_ s) (disk_manager_ s).
Definition set_replacer (r : LRUReplacer) (s : BPM) : BPM :=
  mkBPM (pages_ s) (page_table_ s) (free_list_ s) r (disk_manager_ s).
Definition set_disk (d : D) (s : BPM) : BPM :=
  mkBPM (pages_ s) (page_table_ s) (free_list_ s) (replacer_ s) d.

(** [pages_[frame_id]] read and written in place. *)
Definition frame (s : BPM) (f : frame_id_t) : Page := pages_ s !!! f.
Definition upd_frame (f : frame_id_t) (g : Page → Page) (s : BPM) : BPM :=
  set_pages (<[f := g (frame s f)]> (pages_ s)) s.

(** Modelled from the spec: the constructor (in the missing header) makes
    [pool_size] unassigned frames, all on the free list, and a replacer of
    the same capacity. *)
Definition bpm_init (pool_size : nat) (d : D) : BPM :=
  mkBPM (replicate pool_size empty_page) ∅ (seq 0 pool_size)
        (LRU.init pool_size) d.

Definition find_victim_page (s : BPM) : option frame_id_t * BPM :=
  match free_list_ s with
  | f :: rest => (Some f, set_free_list rest s)
  | [] =>
      let '(r, rep) := LRU.victim (replacer_ s) in
      (r, set_replacer rep s)
  end.

Definition update_page (f : frame_id_t) (new_page_id : PageId) (s : BPM) : BPM :=
  let page := frame s f in
  let s1 :=
    if is_dirty_ page
    then upd_frame f (set_dirty false)
           (set_disk (write_page (disk_manager_ s) (fd (id_ page))
                        (page_no (id_ page)) (data_ page)) s)
    else s in
  let s2 := set_page_table
              (<[new_page_id := f]> (delete (id_ page) (page_table_ s1))) s1 in
  upd_frame f (λ p, set_id new_page_id (set_data zero_data p)) s2.

Definition fetch_page (page_id : PageId) (s : BPM) : option frame_id_t * BPM :=
  match page_table_ s !! page_id with
  | Some f =>
      let s1 := upd_frame f (λ p, set_pin_count (wrap_int (pin_count_ p + 1)) p) s in
      (Some f, set_replacer (LRU.pin f (replacer_ s1)) s1)
  | None =>
      match find_victim_page s with
      | (None, s1) => (None, s1)
      | (Some f, s1) =>
          let s2 := update_page f page_id s1 in
          let s3 := upd_frame f
                      (set_data (read_page (disk_manager_ s2) (fd page_id)
                                   (page_no page_id))) s2 in
          let s4 := set_replacer (LRU.pin f (replacer_ s3)) s3 in
          (Some f, upd_frame f (λ p, set_pin_count (wrap_int (pin_count_ p + 1)) p) s4)
      end
  end.

Definition unpin_page (page_id : PageId) (is_dirty : bool) (s : BPM) : bool * BPM :=
  match page_table_ s !! page_id with
  | None => (false, s)
  | Some f =>
      if decide (pin_count_ (frame s f) ≤ 0) then (false, s)
      else
        let s1 := upd_frame f (λ p, set_pin_count (pin_count_ p - 1) p) s in
        let s2 := if decide (pin_count_ (frame s1 f) = 0)
                  then set_replacer (LRU.unpin f (replacer_ s1)) s1
                  else s1 in
        (true, upd_frame f (set_dirty is_dirty) s2)
  end.

Definition flush_page (page_id : PageId) (s : BPM) : bool * BPM :=
  match page_table_ s !! page_id with
  | None => (false, s)
  | Some f =>
      let s1 := set_disk (write_page (disk_manager_ s) (fd page_id)
                            (page_no page_id) (data_ (frame s f))) s in
      (true, upd_frame f (set_dirty false) s1)
  end.

(** [new_page(PageId* page_id)]: [page_fd] is [page_id->fd] on entry; the
    page number written through the pointer is returned with the frame. *)
Definition new_page (page_fd : Z) (s : BPM) : option (frame_id_t * PageId) * BPM :=
  match find_victim_page s with
  | (None, s1) => (None, s1)
  | (Some f, s1) =>
      let '(pno, d) := allocate_page (disk_manager_ s1) page_fd in
      let s2 := set_disk d s1 in
      if decide (pno = INVALID_PAGE_ID) then (None, s2)
      else
        let page_id := mkPageId page_fd pno in
        let s3 := update_page f page_id s2 in
        let s4 := set_replacer (LRU.pin f (replacer_ s3)) s3 in
        (Some (f, page_id), upd_frame f (set_pin_count 1) s4)
  end.

Definition delete_page (page_id : PageId) (s : BPM) : bool * BPM :=
  match page_table_ s !! page_id with
  | None => (true, s)
  | Some f =>
      if decide (pin_count_ (frame s f) ≠ 0) then (false, s)
      else
        let s1 := set_disk (write_page (disk_manager_ s) (fd page_id)
                              (page_no page_id) (data_ (frame s f))) s in
        let s2 := set_page_table (delete page_id (page_table_ s1)) s1 in
        let s3 := upd_frame f (set_data zero_data) s2 in
        (true, set_free_list (free_list_ s3 ++ [f]) s3)
  end.

(** The body of the loop of [flush_all_pages] for one page-table entry. *)
Definition flush_entry (file : Z) (e : PageId * frame_id_t) (s : BPM) : BPM :=
  if decide (fd e.1 ≠ file) then s
  else
    let page := frame s e.2 in
    let s1 := set_disk (write_page (disk_manager_ s) file
                          (page_no (id_ page)) (data_ page)) s in
    upd_frame e.2 (set_dirty false) s1.

Definition flush_all_pages (file : Z) (s : BPM) : BPM :=
  foldr (flush_entry file) s (map_to_list (page_table_ s)).

End buffer_pool.

(** ** Operations of the pool as data, and the states a pool can reach *)

Inductive bpm_op :=
  | OpFetch (page_id : PageId)
  | OpUnpin (page_id : PageId) (is_dirty : bool)
  | OpFlush (page_id : PageId)
  | OpNew (page_fd : Z)
  | OpDelete (page_id : PageId)
  | OpFlushAll (file : Z).

Section pool_states.
Context {D : Type} `{!DiskManager D}.

Local Abbreviation BPM := (BufferPoolManager D).

Definition bpm_exec (op : bpm_op) (s : BPM) : BPM :=
  match op with
  | OpFetch p => (fetch_page p s).2
  | OpUnpin p d => (unpin_page p d s).2
  | OpFlush p => (flush_page p s).2
  | OpNew f => (new_page f s).2
  | OpDelete p => (delete_page p s).2
  | OpFlushAll f => flush_all_pages f s
  end.

(** The states of a pool of [n] frames over an initial disk [d] after any
    sequence of public calls, each with any argument. *)
Inductive bpm_reachable (n : nat) (d : D) : BPM → Prop :=
  | reach_init : bpm_reachable n d (bpm_init n d)
  | reach_step s op :
      bpm_reachable n d s → bpm_reachable n d (bpm_exec op s).

(** A frame that is present in [pages_] and has pin count 0. *)
Definition unpinned (s : BPM) (f : frame_id_t) : Prop :=
  ∃ pg, pages_ s !! f = Some pg ∧ pin_count_ pg = 0.

(** What the pool keeps true between calls. *)
Record bpm_inv (s : BPM) : Prop := mk_bpm_inv {
  inv_free_nodup : NoDup (free_list_ s);
  inv_free_pin : ∀ f, f ∈ free_list_ s → unpinned s f;
  inv_free_table : ∀ K f, page_table_ s !! K = Some f → f ∉ free_list_ s;
  inv_table_id : ∀ K f, page_table_ s !! K = Some f →
                 ∃ pg, pages_ s !! f = Some pg ∧ id_ pg = K;
  inv_lru_nodup : NoDup (LRUlist_ (replacer_ s));
  inv_lru_hash : ∀ f, f ∈ LRUlist_ (replacer_ s) → f ∈ LRUhash_ (replacer_ s);
  inv_lru_pin : ∀ f, f ∈ LRUlist_ (replacer_ s) → unpinned s f
}.

End pool_states.

(** ** Record layer: data *)

(** [struct Rid { int page_no; int slot_no; }]; the first field is
    [rid_page_no] here because [page_no] already names the field of
    [PageId]. *)
Record Rid := mkRid { rid_page_no : Z; slot_no : Z }.

#[global] Instance Rid_eq_dec : EqDecision Rid.
Proof. solve_decision. Defined.

Record RmFileHdr := mkFileHdr {
  record_size : Z;
  num_pages : Z;
  num_records_per_page : Z;
  first_free_page_no : Z;
  bitmap_size : Z
}.

Definition set_num_pages (n : Z) (h : RmFileHdr) : RmFileHdr :=
  mkFileHdr (record_size h) n (num_records_per_page h) (first_free_page_no h)
            (bitmap_size h).
Definition set_first_free_page_no (n : Z) (h : RmFileHdr) : RmFileHdr :=
  mkFileHdr (record_size h) (num_pages h) (num_records_per_page h) n
            (bitmap_size h).

(** [RmRecord]: the bytes of one record and their number. *)
Record RmRecord := mkRecord { data : list byte; size : Z }.

(** What a method does when the C++ has no defined result: it reads or
    writes through the members of a page handle whose [page] is [nullptr],
    or it indexes a region of the page with a negative slot number. *)
Inductive fault := NullHandle | OutOfBounds.

Inductive outcome (A : Type) :=
  | Done (a : A)
  | Fault (e : fault).
Arguments Done {A}.
Arguments Fault {A}.

(** The value of a call that is known to finish, [dflt] otherwise. *)
Definition done_or {A} (dflt : A) (o : outcome A) : A :=
  match o with
  | Done a => a
  | Fault _ => dflt
  end.

Definition bind {A B} (m : outcome A) (k : A → outcome B) : outcome B :=
  match m with
  | Done a => k a
  | Fault e => Fault e
  end.

(** *** Regions of a page *)

Definition set_page_hdr (h : RmPageHdr) (d : PageData) : PageData :=
  mkPageData h (bitmap d) (slots d).
Definition set_bitmap (b : Z → bool) (d : PageData) : PageData :=
  mkPageData (page_hdr d) b (slots d).
Definition set_slots (sl : Z → byte) (d : PageData) : PageData :=
  mkPageData (page_hdr d) (bitmap d) sl.
Definition set_num_records (n : Z) (d : PageData) : PageData :=
  set_page_hdr (mkPageHdr (next_free_page_no (page_hdr d)) n) d.
Definition set_next_free_page_no (n : Z) (d : PageData) : PageData :=
  set_page_hdr (mkPageHdr n (num_records (page_hdr d))) d.

(** Modelled from the spec: [class Bitmap] is in a missing header; "one bit
    per slot, 1 = occupied". *)
Module Bitmap.
Definition is_set (bm : Z → bool) (pos : Z) : bool := bm pos.
Definition set (bm : Z → bool) (pos : Z) : Z → bool :=
  λ p, if decide (p = pos) then true else bm p.
Definition reset (bm : Z → bool) (pos : Z) : Z → bool :=
  λ p, if decide (p = pos) then false else bm p.
End Bitmap.

(** The number of set bits among the [n] slots of a page. *)
Definition count_set (bm : Z → bool) (n : Z) : Z :=
  Z.of_nat (length (filter (λ i, bm i = true) (seqZ 0 n))).

(** [std::memcpy(get_slot(slot_no), buf, record_size)]: [get_slot] is
    [slots + slot_no * record_size]; the bytes copied are the first
    [record_size] bytes of [buf] (a shorter [buf] is read past its end in
    C++; those bytes are [x00] here). *)
Definition get_slot (h : RmFileHdr) (slot : Z) : Z := slot * record_size h.

Definition memcpy_to (off : Z) (buf : list byte) (n : Z) (sl : Z → byte) : Z → byte :=
  λ o, if decide (off ≤ o < off + n)
       then default x00 (buf !! Z.to_nat (o - off))
       else sl o.

Definition memcpy_from (off : Z) (n : Z) (sl : Z → byte) : list byte :=
  (λ i, sl (off + i)) <$> seqZ 0 n.

(** The loop of [insert_record]:
    [for (slot_no = 0; slot_no < n; slot_no++) if (!is_set(bitmap, slot_no)) break;]
    started at [slot_no] with [k] slots still to look at. *)
Fixpoint first_unset (bm : Z → bool) (slot : Z) (k : nat) : Z :=
  match k with
  | O => slot
  | S k' => if Bitmap.is_set bm slot then first_unset bm (slot + 1) k' else slot
  end.

(** The inner loop of [RmScan::next]:
    [while (slot_no < n - 1) { slot_no++; if (is_set(bitmap, slot_no)) return; }]
    with [k = n - 1 - slot_no] iterations left; [None] when the page is
    exhausted. *)
Fixpoint next_set (bm : Z → bool) (slot : Z) (k : nat) : option Z :=
  match k with
  | O => None
  | S k' =>
      if Bitmap.is_set bm (slot + 1) then Some (slot + 1)
      else next_set bm (slot + 1) k'
  end.

(** The bytes of a page once [insert_record] has put [buf] in the slot
    [slot], and once [delete_record] has freed [slot] and stored [next] as
    the link of the page. *)
Definition inserted_data (h : RmFileHdr) (slot : Z) (buf : list byte)
    (d : PageData) : PageData :=
  mkPageData
    (mkPageHdr (next_free_page_no (page_hdr d)) (num_records (page_hdr d) + 1))
    (Bitmap.set (bitmap d) slot)
    (memcpy_to (get_slot h slot) buf (record_size h) (slots d)).

Definition deleted_data (slot : Z) (next : Z) (d : PageData) : PageData :=
  mkPageData (mkPageHdr next (num_records (page_hdr d) - 1))
    (Bitmap.reset (bitmap d) slot) (slots d).

(** ** Record file handle ([rm_file_handle.cpp]) *)

Record RmFileHandle (D : Type) := mkFH {
  file_hdr_ : RmFileHdr;
  fd_ : Z;
  buffer_pool_manager_ : BufferPoolManager D
}.
Arguments mkFH {D}.
Arguments file_hdr_ {D}.
Arguments fd_ {D}.
Arguments buffer_pool_manager_ {D}.

(** [RmPageHandle]: its [page] pointer; [page_hdr], [bitmap] and [slots]
    point into the frame's bytes, so they are read through the pool. *)
Definition RmPageHandle := option frame_id_t.

Section record_file.
Context {D : Type} `{!DiskManager D}.

Local Abbreviation FH := (RmFileHandle D).

Definition set_bpm (b : BufferPoolManager D) (fh : FH) : FH :=
  mkFH (file_hdr_ fh) (fd_ fh) b.
Definition set_file_hdr (h : RmFileHdr) (fh : FH) : FH :=
  mkFH h (fd_ fh) (buffer_pool_manager_ fh).

(** A write through a pointer into the frame's bytes. *)
Definition upd_data (f : frame_id_t) (g : PageData → PageData) (fh : FH) : FH :=
  set_bpm (upd_frame f (λ p, set_data (g (data_ p)) p) (buffer_pool_manager_ fh)) fh.
Definition page_of (fh : FH) (f : frame_id_t) : Page :=
  frame (buffer_pool_manager_ fh) f.

Definition fetch_page_handle (pno : Z) (fh : FH) : RmPageHandle * FH :=
  if decide (pno < 0 ∨ (pno >= num_pages (file_hdr_ fh))%Z) then (None, fh)
  else
    let '(page, b) := fetch_page (mkPageId (fd_ fh) pno) (buffer_pool_manager_ fh) in
    (page, set_bpm b fh).

Definition create_new_page_handle (fh : FH) : RmPageHandle * FH :=
  match new_page (fd_ fh) (buffer_pool_manager_ fh) with
  | (None, b) => (None, set_bpm b fh)
  | (Some (f, _), b) =>
      let fh1 := set_bpm b fh in
      let fh2 := upd_data f (set_next_free_page_no RM_NO_PAGE) fh1 in
      let fh3 := upd_data f (set_num_records 0) fh2 in
      (Some f, set_file_hdr (set_num_pages (num_pages (file_hdr_ fh3) + 1)
                               (file_hdr_ fh3)) fh3)
  end.

Definition create_page_handle (fh : FH) : RmPageHandle * FH :=
  if decide (first_free_page_no (file_hdr_ fh) = RM_NO_PAGE)
  then create_new_page_handle fh
  else fetch_page_handle (first_free_page_no (file_hdr_ fh)) fh.

Definition release_page_handle (f : frame_id_t) (fh : FH) : FH :=
  let fh1 := upd_data f (set_next_free_page_no
                           (first_free_page_no (file_hdr_ fh))) fh in
  set_file_hdr (set_first_free_page_no (page_no (id_ (page_of fh1 f)))
                  (file_hdr_ fh1)) fh1.

Definition get_record (rid : Rid) (fh : FH) : option RmRecord * FH :=
  match fetch_page_handle (rid_page_no rid) fh with
  | (None, fh1) => (None, fh1)
  | (Some f, fh1) =>
      let h := file_hdr_ fh1 in
      if decide ((slot_no rid >= num_records_per_page h)%Z ∨ slot_no rid < 0)
      then (None, fh1)
      else
        (Some (mkRecord
                 (memcpy_from (get_slot h (slot_no rid)) (record_size h)
                    (slots (data_ (page_of fh1 f))))
                 (record_size h)),
         fh1)
  end.

Definition unpin_handle (f : frame_id_t) (is_dirty : bool) (fh : FH) : FH :=
  set_bpm (unpin_page (id_ (page_of fh f)) is_dirty
             (buffer_pool_manager_ fh)).2 fh.

Definition insert_record (buf : list byte) (fh : FH) : outcome (Rid * FH) :=
  let '(page_handle, fh1) := create_page_handle fh in
  let h := file_hdr_ fh1 in
  let n := num_records_per_page h in
  match page_handle with
  | None =>
      (* the loop reads [page_handle.bitmap] as soon as it runs once;
         past the loop [get_slot] is written through *)
      if decide (0 < n) then Fault NullHandle
      else if decide (0 = n) then Done (mkRid (-1) (-1), fh1)
      else Fault NullHandle
  | Some f =>
      let slot := first_unset (bitmap (data_ (page_of fh1 f))) 0 (Z.to_nat n) in
      if decide (slot = n) then Done (mkRid (-1) (-1), fh1)
      else
        let fh2 := upd_data f (λ d, set_slots
                      (memcpy_to (get_slot h slot) buf (record_size h) (slots d)) d) fh1 in
        let fh3 := upd_data f (λ d, set_bitmap (Bitmap.set (bitmap d) slot) d) fh2 in
        let fh4 := upd_data f (λ d, set_num_records
                                      (num_records (page_hdr d) + 1) d) fh3 in
        let fh5 :=
          if decide (num_records (page_hdr (data_ (page_of fh4 f))) = n)
          then set_file_hdr
                 (set_first_free_page_no
                    (next_free_page_no (page_hdr (data_ (page_of fh4 f))))
                    (file_hdr_ fh4)) fh4
          else fh4 in
        let fh6 := unpin_handle f true fh5 in
        Done (mkRid (page_no (id_ (page_of fh6 f))) slot, fh6)
  end.

(** The second [insert_record], which takes the [Rid]: the overwrite at a
    chosen place. *)
Definition insert_record_at (rid : Rid) (buf : list byte) (fh : FH) : outcome FH :=
  let '(page_handle, fh1) := fetch_page_handle (rid_page_no rid) fh in
  let h := file_hdr_ fh1 in
  match page_handle with
  | None => Done fh1
  | Some f =>
      if decide (slot_no rid >= num_records_per_page h)%Z then Done fh1
      else if decide (slot_no rid < 0) then Fault OutOfBounds
      else
        let fh2 := upd_data f (λ d, set_slots
                      (memcpy_to (get_slot h (slot_no rid)) buf (record_size h)
                         (slots d)) d) fh1 in
        Done (unpin_handle f true fh2)
  end.

Definition delete_record (rid : Rid) (fh : FH) : outcome FH :=
  let '(page_handle, fh1) := fetch_page_handle (rid_page_no rid) fh in
  let h := file_hdr_ fh1 in
  match page_handle with
  | None => Done fh1
  | Some f =>
      if decide (slot_no rid >= num_records_per_page h)%Z then Done fh1
      else if decide (slot_no rid < 0) then Fault OutOfBounds
      else
        let fh2 := upd_data f (λ d, set_bitmap
                      (Bitmap.reset (bitmap d) (slot_no rid)) d) fh1 in
        let fh3 := upd_data f (λ d, set_num_records
                                      (num_records (page_hdr d) - 1) d) fh2 in
        let fh4 := unpin_handle f true fh3 in
        if decide (num_records (page_hdr (data_ (page_of fh4 f)))
                   = num_records_per_page (file_hdr_ fh4) - 1)
        then Done (release_page_handle f fh4)
        else Done fh4
  end.

Definition update_record (rid : Rid) (buf : list byte) (fh : FH) : outcome FH :=
  let '(page_handle, fh1) := fetch_page_handle (rid_page_no rid) fh in
  let h := file_hdr_ fh1 in
  match page_handle with
  | None => Done fh1
  | Some f =>
      if decide (slot_no rid >= num_records_per_page h)%Z then Done fh1
      else if decide (slot_no rid < 0) then Fault OutOfBounds
      else
        let fh2 := upd_data f (λ d, set_slots
                      (memcpy_to (get_slot h (slot_no rid)) buf (record_size h)
                         (slots d)) d) fh1 in
        Done (unpin_handle f true fh2)
  end.

End record_file.

(** ** Record scan ([rm_scan.cpp]) *)

Record RmScan := mkScan { rid_ : Rid }.

Module Scan.
Section scan.
Context {D : Type} `{!DiskManager D}.

Local Abbreviation FH := (RmFileHandle D).

(** The inner loop of [next] on the page behind [page_handle], from
    [slot]: the slot found, or [None] when the page has no further set
    bit.  The loop body reads [page_handle.bitmap]. *)
Definition scan_page (h : RmFileHdr) (page_handle : RmPageHandle) (fh : FH)
    (slot : Z) : outcome (option Z) :=
  match page_handle with
  | None =>
      if decide (slot < num_records_per_page h - 1) then Fault NullHandle
      else Done None
  | Some f =>
      Done (next_set (bitmap (data_ (page_of fh f))) slot
              (Z.to_nat (num_records_per_page h - 1 - slot)))
  end.

(** The outer loop of [next], with [k] bounding the pages still ahead. *)
Fixpoint next_loop (k : nat) (fh : FH) (r : Rid) : outcome (Rid * FH) :=
  match k with
  | O => Done (r, fh)
  | S k' =>
      if decide (rid_page_no r < num_pages (file_hdr_ fh)) then
        let '(page_handle, fh1) := fetch_page_handle (rid_page_no r) fh in
        match scan_page (file_hdr_ fh1) page_handle fh1 (slot_no r) with
        | Fault e => Fault e
        | Done (Some s) => Done (mkRid (rid_page_no r) s, fh1)
        | Done None => next_loop k' fh1 (mkRid (rid_page_no r + 1) (-1))
        end
      else Done (r, fh)
  end.

(** [next]: the loop is entered with exactly as many rounds as there are
    pages from [rid_.page_no] to the end of the file. *)
Definition next (sc : RmScan) (fh : FH) : outcome (RmScan * FH) :=
  match next_loop (Z.to_nat (num_pages (file_hdr_ fh) - rid_page_no (rid_ sc)))
          fh (rid_ sc) with
  | Done (r, fh') => Done (mkScan r, fh')
  | Fault e => Fault e
  end.

(** The constructor [RmScan(file_handle)]. *)
Definition new (fh : FH) : outcome (RmScan * FH) :=
  next (mkScan (mkRid RM_FIRST_RECORD_PAGE (-1))) fh.

Definition is_end (sc : RmScan) (fh : FH) : outcome (bool * FH) :=
  if decide (rid_page_no (rid_ sc) >= num_pages (file_hdr_ fh))%Z
  then Done (true, fh)
  else
    match fetch_page_handle (rid_page_no (rid_ sc)) fh with
    | (None, _) => Fault NullHandle
    | (Some f, fh1) =>
        Done (bool_decide
                (slot_no (rid_ sc) >= num_records (page_hdr (data_ (page_of fh1 f))))%Z,
              fh1)
    end.

Definition rid (sc : RmScan) : Rid := rid_ sc.

End scan.
End Scan.

(** ** A disk in memory

    Modelled from the spec: [DiskManager] is not among the sources.
    [read_page] "fills buffer with the page's persisted bytes" (zeros for a
    page never written), [write_page] "persists buffer as the page's bytes",
    [allocate_page] "reserves and returns a new page number for file [fd];
    returns an invalid sentinel on failure": a file that is not open has no
    counter and allocation on it fails. *)
Record MemDisk := mkDisk {
  disk_pages : gmap PageId PageData;
  fd2pageno : gmap Z Z
}.

#[global] Instance MemDisk_manager : DiskManager MemDisk := {
  read_page d f p := default zero_data (disk_pages d !! mkPageId f p);
  write_page d f p x := mkDisk (<[mkPageId f p := x]> (disk_pages d)) (fd2pageno d);
  allocate_page d f :=
    match fd2pageno d !! f with
    | Some n => (n, mkDisk (disk_pages d) (<[f := n + 1]> (fd2pageno d)))
    | None => (INVALID_PAGE_ID, d)
    end
}.

(** What the record layer expects of a disk: a page reads back as it was
    last written, other pages are not disturbed, and allocation hands out
    consecutive page numbers without touching page contents. *)
Class DiskLaws (D : Type) `{!DiskManager D} : Prop := {
  read_write_eq : ∀ (d : D) f p x, read_page (write_page d f p x) f p = x;
  read_write_ne : ∀ (d : D) f p x f' p',
    mkPageId f p ≠ mkPageId f' p' →
    read_page (write_page d f p x) f' p' = read_page d f' p';
  read_allocate : ∀ (d : D) f f' p',
    read_page (allocate_page d f).2 f' p' = read_page d f' p';
  allocate_write : ∀ (d : D) f p x f',
    (allocate_page (write_page d f p x) f').1 = (allocate_page d f').1;
  allocate_next : ∀ (d : D) f,
    (allocate_page d f).1 ≠ INVALID_PAGE_ID →
    (allocate_page (allocate_page d f).2 f).1 = (allocate_page d f).1 + 1
}.

(** Modelled from the spec: a file as the (missing) record manager creates
    it and the constructor of [RmFileHandle] opens it: page 0 is the file
    header, there is no data page yet, the free-page list is empty, and the
    disk's page counter for [fd] stands at [num_pages]. *)
Definition fresh_file (pool_size : nat) (file : Z) (rec_size per_page : Z)
    : RmFileHandle MemDisk :=
  mkFH (mkFileHdr rec_size 1 per_page RM_NO_PAGE ((per_page + 7) / 8)) file
       (bpm_init pool_size (mkDisk ∅ {[file := 1]})).

(** ** Sequences of [fetch_page] and [unpin_page] on one page *)

Inductive pin_call :=
  | CallFetch
  | CallUnpin (is_dirty : bool).

Section pin_calls.
Context {D : Type} `{!DiskManager D}.

(** The pin count of the page [P]: the one of its frame while the page is
    resident, 0 while it is not (no frame holds it for anybody). *)
Definition pin_count_of (P : PageId) (s : BufferPoolManager D) : Z :=
  match page_table_ s !! P with
  | Some f => pin_count_ (frame s f)
  | None => 0
  end.

(** One call, with whether it succeeded (a frame came back, or [true]). *)
Definition pin_call_exec (P : PageId) (c : pin_call) (s : BufferPoolManager D)
    : bool * BufferPoolManager D :=
  match c with
  | CallFetch => let '(r, s') := fetch_page P s in (bool_decide (is_Some r), s')
  | CallUnpin d => unpin_page P d s
  end.

(** The calls in order, with the number of successful fetches and the
    number of successful unpins. *)
Fixpoint run_pin_calls (P : PageId) (cs : list pin_call) (s : BufferPoolManager D)
    : BufferPoolManager D * Z * Z :=
  match cs with
  | [] => (s, 0, 0)
  | c :: cs' =>
      let '(ok, s1) := pin_call_exec P c s in
      let '(s', nf, nu) := run_pin_calls P cs' s1 in
      match c with
      | CallFetch => (s', nf + (if ok then 1 else 0), nu)
      | CallUnpin _ => (s', nf, nu + (if ok then 1 else 0))
      end
  end.

End pin_calls.

(** ** Views of a file through the pool *)

Section file_views.
Context {D : Type} `{!DiskManager D}.

(** The current bytes of a page: those of its frame while it is resident,
    those on the disk otherwise. *)
Definition page_view_at (fdn : Z) (b : BufferPoolManager D) (pno : Z) : PageData :=
  match page_table_ b !! mkPageId fdn pno with
  | Some f => data_ (frame b f)
  | None => read_page (disk_manager_ b) fdn pno
  end.

Definition page_view (fh : RmFileHandle D) (pno : Z) : PageData :=
  page_view_at (fd_ fh) (buffer_pool_manager_ fh) pno.

(** The pages met from [pno] along [next_free_page_no], at most [k] of them. *)
Fixpoint free_chain (k : nat) (fh : RmFileHandle D) (pno : Z) : list Z :=
  match k with
  | O => []
  | S k' =>
      if decide (pno = RM_NO_PAGE) then []
      else pno :: free_chain k' fh (next_free_page_no (page_hdr (page_view fh pno)))
  end.

(** The free-page list of the file: what is reachable from
    [first_free_page_no]. *)
Definition free_pages (fh : RmFileHandle D) : list Z :=
  free_chain (Z.to_nat (num_pages (file_hdr_ fh))) fh
    (first_free_page_no (file_hdr_ fh)).

(** The pin count of a page of the file. *)
Definition page_pin_count (fh : RmFileHandle D) (pno : Z) : Z :=
  pin_count_of (mkPageId (fd_ fh) pno) (buffer_pool_manager_ fh).

End file_views.

(** ** Well-formed pools and files *)

Section well_formed.
Context {D : Type} `{!DiskManager D}.

(** The pool [s'] is [s] with the frame [f] rewritten to [pg']: the other
    frames, the page table and the disk are the same. *)
Definition reframed (s s' : BufferPoolManager D) (f : frame_id_t) (pg' : Page) : Prop :=
  pages_ s' !! f = Some pg' ∧
  (∀ f', f' ≠ f → pages_ s' !! f' = pages_ s !! f') ∧
  page_table_ s' = page_table_ s ∧
  disk_manager_ s' = disk_manager_ s.

(** The frame [pg] after [unpin_page] of its page with [is_dirty]: one pin
    fewer and the flag stored, or the frame as it was when the call fails
    on a pin count that is not positive. *)
Definition after_unpin (is_dirty : bool) (pg : Page) : Page :=
  if decide (pin_count_ pg ≤ 0) then pg
  else mkPage (id_ pg) (data_ pg) is_dirty (pin_count_ pg - 1).

(** The pool as the record layer needs it: besides [bpm_inv], every frame
    that once took a page is still the frame of that page (a frame that
    never did has the invalid id), page numbers in the page table are not
    negative, and a resident page that is clean and that the replacer may
    hand out has the bytes that are on the disk, so that dropping it loses
    nothing. *)
Record pool_ok (s : BufferPoolManager D) : Prop := mk_pool_ok {
  ok_inv : bpm_inv s;
  ok_owns : ∀ f pg, pages_ s !! f = Some pg →
            page_table_ s !! id_ pg = Some f ∨ page_no (id_ pg) < 0;
  ok_keys : ∀ K f, page_table_ s !! K = Some f → 0 ≤ page_no K;
  ok_clean : ∀ K f pg,
    page_table_ s !! K = Some f → pages_ s !! f = Some pg →
    is_dirty_ pg = false → f ∈ LRUlist_ (replacer_ s) →
    data_ pg = read_page (disk_manager_ s) (fd K) (page_no K)
}.

(** What [insert_record] followed by [get_record] relies on: a sound pool,
    a header with sensible counts, and a disk whose next page number for
    the file is [num_pages] (the constructor of [RmFileHandle] sets the
    counter of the disk manager to it). *)
Record file_wf (fh : RmFileHandle D) : Prop := mk_file_wf {
  wf_pool : bpm_inv (buffer_pool_manager_ fh);
  wf_per_page : 0 ≤ num_records_per_page (file_hdr_ fh);
  wf_num_pages : 0 ≤ num_pages (file_hdr_ fh);
  wf_alloc : (allocate_page (disk_manager_ (buffer_pool_manager_ fh)) (fd_ fh)).1
             = num_pages (file_hdr_ fh)
}.

(** A well-formed file: the pool is as above, the pages of the file in the
    pool are pages below [num_pages], and on every data page [num_records]
    is the number of set bits of the bitmap. *)
Record file_inv (fh : RmFileHandle D) : Prop := mk_file_inv {
  fi_pool : pool_ok (buffer_pool_manager_ fh);
  fi_per_page : 0 < num_records_per_page (file_hdr_ fh);
  fi_num_pages : RM_FIRST_RECORD_PAGE ≤ num_pages (file_hdr_ fh);
  fi_alloc : (allocate_page (disk_manager_ (buffer_pool_manager_ fh)) (fd_ fh)).1
             = num_pages (file_hdr_ fh);
  fi_keys : ∀ K f, page_table_ (buffer_pool_manager_ fh) !! K = Some f →
            fd K = fd_ fh → page_no K < num_pages (file_hdr_ fh);
  fi_count : ∀ pno,
    RM_FIRST_RECORD_PAGE ≤ pno < num_pages (file_hdr_ fh) →
    num_records (page_hdr (page_view fh pno))
    = count_set (bitmap (page_view fh pno)) (num_records_per_page (file_hdr_ fh))
}.

(** A pool in which no page is pinned and every frame can be taken: it is
    on the free list or in the replacer.  The replacer's hash table has no
    key outside its list and its capacity is the number of frames. *)
Record pool_ready (s : BufferPoolManager D) : Prop := mk_pool_ready {
  rdy_inv : bpm_inv s;
  rdy_unpinned : ∀ f pg, pages_ s !! f = Some pg → pin_count_ pg = 0;
  rdy_avail : ∀ f, (f < length (pages_ s))%nat →
              f ∈ free_list_ s ∨ f ∈ LRUlist_ (replacer_ s);
  rdy_hash : ∀ f, f ∈ LRUhash_ (replacer_ s) → f ∈ LRUlist_ (replacer_ s);
  rdy_max : max_size_ (replacer_ s) = length (pages_ s)
}.

(** The same pool while one caller holds the frame [f], pinned once. *)
Record pool_held (s : BufferPoolManager D) (f : frame_id_t) : Prop := mk_pool_held {
  held_inv : bpm_inv s;
  held_pin : ∃ pg, pages_ s !! f = Some pg ∧ pin_count_ pg = 1;
  held_unpinned : ∀ g pg, g ≠ f → pages_ s !! g = Some pg → pin_count_ pg = 0;
  held_avail : ∀ g, g ≠ f → (g < length (pages_ s))%nat →
               g ∈ free_list_ s ∨ g ∈ LRUlist_ (replacer_ s);
  held_hash : ∀ g, g ∈ LRUhash_ (replacer_ s) → g ∈ LRUlist_ (replacer_ s);
  held_max : max_size_ (replacer_ s) = length (pages_ s)
}.

(** The free-page list of the file, from the page [p] on, is the list [l]
    of distinct data pages, each with a free slot, each linked to the next,
    the last to [RM_NO_PAGE]. *)
Inductive chain_ok (fh : RmFileHandle D) : Z → list Z → Prop :=
  | chain_nil : chain_ok fh RM_NO_PAGE []
  | chain_cons p l :
      RM_FIRST_RECORD_PAGE ≤ p < num_pages (file_hdr_ fh) →
      num_records (page_hdr (page_view fh p)) < num_records_per_page (file_hdr_ fh) →
      p ∉ l →
      chain_ok fh (next_free_page_no (page_hdr (page_view fh p))) l →
      chain_ok fh p (p :: l).

(** A well-formed file, over a pool of at least one frame in which no page
    is pinned, whose free-page list holds only pages with a free slot. *)
Record file_ready (fh : RmFileHandle D) : Prop := mk_file_ready {
  fr_inv : file_inv fh;
  fr_frames : (0 < length (pages_ (buffer_pool_manager_ fh)))%nat;
  fr_pool : pool_ready (buffer_pool_manager_ fh);
  fr_chain : ∃ l, chain_ok fh (first_free_page_no (file_hdr_ fh)) l
}.

End well_formed.

(** ** Sequences of [insert_record] and [delete_record] *)

Inductive rm_call :=
  | CallInsert (buf : list byte)
  | CallDelete (rid : Rid).

Section rm_calls.
Context {D : Type} `{!DiskManager D}.

Definition rm_call_exec (c : rm_call) (fh : RmFileHandle D) : outcome (RmFileHandle D) :=
  match c with
  | CallInsert buf => bind (insert_record buf fh) (λ r, Done r.2)
  | CallDelete rid => delete_record rid fh
  end.

Fixpoint run_rm_calls (cs : list rm_call) (fh : RmFileHandle D) : outcome (RmFileHandle D) :=
  match cs with
  | [] => Done fh
  | c :: cs' => bind (rm_call_exec c fh) (run_rm_calls cs')
  end.

(** The slot [rid] of the file is a slot of a data page and its bit is set. *)
Definition occupied (fh : RmFileHandle D) (rid : Rid) : Prop :=
  RM_FIRST_RECORD_PAGE ≤ rid_page_no rid < num_pages (file_hdr_ fh) ∧
  0 ≤ slot_no rid < num_records_per_page (file_hdr_ fh) ∧
  bitmap (page_view fh (rid_page_no rid)) (slot_no rid) = true.

(** Every [delete_record] of the sequence is given an occupied slot of the
    file as it is when the call is made. *)
Fixpoint deletes_occupied (cs : list rm_call) (fh : RmFileHandle D) : Prop :=
  match cs with
  | [] => True
  | c :: cs' =>
      match c with
      | CallInsert _ => True
      | CallDelete rid => occupied fh rid
      end ∧
      match rm_call_exec c fh with
      | Done fh' => deletes_occupied cs' fh'
      | Fault _ => True
      end
  end.

End rm_calls.


(** ** Sequences of replacer calls *)

Inductive lru_op :=
  | LruVictim
  | LruPin (frame_id : frame_id_t)
  | LruUnpin (frame_id : frame_id_t).

Definition lru_exec (op : lru_op) (r : LRUReplacer) : LRUReplacer :=
  match op with
  | LruVictim => (LRU.victim r).2
  | LruPin f => LRU.pin f r
  | LruUnpin f => LRU.unpin f r
  end.

(** The calls in order, on a replacer built by the constructor or any
    other. *)
Fixpoint lru_run (ops : list lru_op) (r : LRUReplacer) : LRUReplacer :=
  match ops with
  | [] => r
  | op :: ops' => lru_run ops' (lru_exec op r)
  end.

(** ** Records and cursor positions, seen through the pool *)

Section record_views.
Context {D : Type} `{!DiskManager D}.

(** The bytes of the slot [rid] as [get_record] copies them out: the
    [record_size] bytes at [get_slot(slot_no)] of the page's current
    bytes. *)
Definition record_view (fh : RmFileHandle D) (rid : Rid) : list byte :=
  memcpy_from (get_slot (file_hdr_ fh) (slot_no rid)) (record_size (file_hdr_ fh))
    (slots (page_view fh (rid_page_no rid))).

(** The bit of the slot [rid] in the bitmap of its page. *)
Definition slot_bit (fh : RmFileHandle D) (rid : Rid) : bool :=
  Bitmap.is_set (bitmap (page_view fh (rid_page_no rid))) (slot_no rid).

End record_views.

(** Page-major, slot-minor order of cursor positions. *)
Definition rid_lt (a b : Rid) : Prop :=
  rid_page_no a < rid_page_no b ∨
  (rid_page_no a = rid_page_no b ∧ slot_no a < slot_no b).

(** ** Concrete pools and files used to run the code *)

Module Examples.

(** File 7 is open and has its header page only. *)
Definition disk7 : MemDisk := mkDisk ∅ {[7 := 1]}.
(** No file is open: every allocation fails. *)
Definition disk_closed : MemDisk := mkDisk ∅ ∅.

Definition pA : PageId := mkPageId 7 1.
Definition pB : PageId := mkPageId 7 2.

(** A pool of one frame whose page [pA] was fetched and released. *)
Definition pool_released : BufferPoolManager MemDisk :=
  bpm_exec (OpUnpin pA false) (bpm_exec (OpFetch pA) (bpm_init 1 disk7)).

(** A page image that differs from the zero page. *)
Definition image1 : PageData :=
  mkPageData (mkPageHdr RM_NO_PAGE 1) (λ p, bool_decide (p = 0)) (λ _, x2a).

(** A writer fetches [pA], changes its bytes and unpins it dirty; a reader
    fetches it and unpins it clean. *)
Definition pool_written : BufferPoolManager MemDisk :=
  (unpin_page pA true
     (upd_frame 0%nat (set_data image1) (fetch_page pA (bpm_init 1 disk7)).2)).2.
Definition pool_read_after : BufferPoolManager MemDisk :=
  (unpin_page pA false (fetch_page pA pool_written).2).2.

(** A pool of two frames that holds [pA] pinned once, and its frame. *)
Definition pool_pinned : BufferPoolManager MemDisk :=
  bpm_exec (OpFetch pA) (bpm_init 2 disk7).
Definition page_pinned : Page := mkPage pA zero_data false 1.

(** A pool of two frames in which [pA] was fetched, released, deleted and
    fetched again: it is in frame 1, and frame 0, back on the free list,
    still carries its id. *)
Definition pool_stale : BufferPoolManager MemDisk :=
  bpm_exec (OpFetch pA)
    (bpm_exec (OpDelete pA)
       (bpm_exec (OpUnpin pA false) (bpm_exec (OpFetch pA) (bpm_init 2 disk7)))).

(** The frame of [pool_written]: [pA] with the changed bytes, dirty and
    not pinned. *)
Definition page_written : Page := mkPage pA image1 true 0.

(** A file with 4 slots of 2 bytes per page, over a pool of 2 frames. *)
Definition file0 : RmFileHandle MemDisk := fresh_file 2 7 2 4.

(** The file [[P0: slots {0,2}, P1: slots {1}]]: [P0] is page 1 and [P1]
    is page 2 (page 0 is the file header); both pages have free slots and
    are chained on the free-page list. *)
Definition scan_page1 : PageData :=
  mkPageData (mkPageHdr 2 2) (λ p, bool_decide (p = 0 ∨ p = 2)) (λ _, x00).
Definition scan_page2 : PageData :=
  mkPageData (mkPageHdr RM_NO_PAGE 1) (λ p, bool_decide (p = 1)) (λ _, x00).
Definition scan_file : RmFileHandle MemDisk :=
  mkFH (mkFileHdr 2 3 4 1 1) 7
       (bpm_init 2 (mkDisk {[pA := scan_page1; pB := scan_page2]} {[7 := 3]})).

(** The file [[P0: slots {3}, P1: slots {1}]] over a pool of one frame
    that holds [P1] pinned: page 1 is a page of the file that the pool
    cannot supply. *)
Definition tail_page1 : PageData :=
  mkPageData (mkPageHdr 2 1) (λ p, bool_decide (p = 3)) (λ _, x00).
Definition tail_file : RmFileHandle MemDisk :=
  mkFH (mkFileHdr 2 3 4 1 1) 7
       (fetch_page pB
          (bpm_init 1 (mkDisk {[pA := tail_page1; pB := scan_page2]} {[7 := 3]}))).2.

(** [scan_file] over a pool of one frame. *)
Definition scan_file_small : RmFileHandle MemDisk :=
  mkFH (mkFileHdr 2 3 4 1 1) 7
       (bpm_init 1 (mkDisk {[pA := scan_page1; pB := scan_page2]} {[7 := 3]})).

(** [file0] after [insert_record] of the bytes 1, 2, then after
    [get_record] of the record, once and with a slot number out of range. *)
Definition file1 : RmFileHandle MemDisk :=
  (done_or (mkRid 0 0, file0) (insert_record [x01; x02] file0)).2.
Definition file1_got : RmFileHandle MemDisk := (get_record (mkRid 1 0) file1).2.
Definition file1_got2 : RmFileHandle MemDisk := (get_record (mkRid 1 4) file1_got).2.

(** [file1] after a second [insert_record]. *)
Definition file2 : RmFileHandle MemDisk :=
  (done_or (mkRid 0 0, file1) (insert_record [x03; x04] file1)).2.

(** [file1] after [delete_record] of the free slot [(1,1)]. *)
Definition file1_deleted : RmFileHandle MemDisk :=
  done_or file1 (delete_record (mkRid 1 1) file1).

(** The scan of [scan_file]: after the constructor, [is_end], [next],
    [is_end] and [next] again. *)
Definition scan_start : RmScan * RmFileHandle MemDisk :=
  done_or (mkScan (mkRid 0 0), scan_file) (Scan.new scan_file).
Definition scan_asked : RmFileHandle MemDisk :=
  (done_or (true, scan_start.2) (Scan.is_end scan_start.1 scan_start.2)).2.
Definition scan_second : RmScan * RmFileHandle MemDisk :=
  done_or scan_start (Scan.next scan_start.1 scan_asked).
Definition scan_asked2 : RmFileHandle MemDisk :=
  (done_or (true, scan_second.2) (Scan.is_end scan_second.1 scan_second.2)).2.
Definition scan_third : RmScan * RmFileHandle MemDisk :=
  done_or scan_second (Scan.next scan_second.1 scan_asked2).

(** The scan of [scan_file_small]: after the constructor and after [next]. *)
Definition small_start : RmScan * RmFileHandle MemDisk :=
  done_or (mkScan (mkRid 0 0), scan_file_small) (Scan.new scan_file_small).
Definition small_second : RmScan * RmFileHandle MemDisk :=
  done_or small_start (Scan.next small_start.1 small_start.2).

(** A file over a pool of one frame, so that every change of page evicts,
    and a sequence of calls on it. *)
Definition file_small : RmFileHandle MemDisk := fresh_file 1 7 2 4.
Definition calls_small : list rm_call :=
  [CallInsert [x01; x02]; CallInsert [x03; x04]; CallDelete (mkRid 1 0);
   CallInsert [x05; x06]; CallDelete (mkRid 2 0)].
Definition file_small_after : RmFileHandle MemDisk :=
  done_or file_small (run_rm_calls calls_small file_small).

(** A file with one slot per page over a pool of one frame: its only
    record is inserted and deleted, which puts page 1 on the free-page
    list. *)
Definition file_tiny : RmFileHandle MemDisk := fresh_file 1 7 2 1.
Definition calls_tiny : list rm_call :=
  [CallInsert [x01; x02]; CallDelete (mkRid 1 0)].
Definition file_tiny_after : RmFileHandle MemDisk :=
  done_or file_tiny (run_rm_calls calls_tiny file_tiny).

End Examples.

(** * Properties *)

(** ** The arithmetic of [int] *)

Lemma wrap_int_small z : INT_MIN ≤ z ≤ INT_MAX → wrap_int z = z.
Proof.
  unfold INT_MIN, INT_MAX, wrap_int. intros Hz.
  rewrite Z.mod_small by lia. lia.
Qed.

Lemma wrap_int_range z : INT_MIN ≤ wrap_int z ≤ INT_MAX.
Proof.
  unfold INT_MIN, INT_MAX, wrap_int.
  pose proof (Z.mod_pos_bound (z + 2147483648) 4294967296). lia.
Qed.

Lemma wrap_int_add_l a b : wrap_int (wrap_int a + b) = wrap_int (a + b).
Proof.
  unfold wrap_int. f_equal.
  replace ((a + 2147483648) mod 4294967296 - 2147483648 + b + 2147483648)
    with ((a + 2147483648) mod 4294967296 + b) by lia.
  rewrite Zplus_mod_idemp_l. f_equal. lia.
Qed.

Lemma wrap_int_one : wrap_int (0 + 1) = 1.
Proof. reflexivity. Qed.

(** ** The replacer *)

Lemma erase_node_subseteq x l y : y ∈ LRU.erase_node x l → y ∈ l.
Proof.
  induction l as [|z l IH]; simpl; [done|].
  destruct (decide (z = x)); rewrite !elem_of_cons; tauto.
Qed.

Lemma erase_node_NoDup x l : NoDup l → NoDup (LRU.erase_node x l).
Proof.
  induction 1 as [|z l Hz Hl IH]; simpl; [constructor|].
  case_decide; [done|].
  constructor; [|done]. intros Hin. by apply Hz, (erase_node_subseteq x).
Qed.

Lemma erase_node_gone x l : NoDup l → x ∉ LRU.erase_node x l.
Proof.
  induction 1 as [|z l Hz Hl IH]; simpl; [apply not_elem_of_nil|].
  destruct (decide (z = x)) as [->|Hne]; [done|].
  rewrite elem_of_cons. intros [->|Hin]; [done|]. by apply IH.
Qed.

Lemma scan_back_elem r x : LRU.scan_back r = Some x → x ∈ LRUlist_ r.
Proof.
  unfold LRU.scan_back. intros Hh.
  apply head_Some_elem_of in Hh.
  rewrite list_elem_of_filter, elem_of_reverse in Hh. tauto.
Qed.

Lemma victim_Some r x r' :
  LRU.victim r = (Some x, r') →
  x ∈ LRUlist_ r ∧
  LRUlist_ r' = filter (λ y, y ≠ x) (LRUlist_ r) ∧
  LRUhash_ r' = LRUhash_ r ∖ {[x]} ∧ max_size_ r' = max_size_ r.
Proof.
  unfold LRU.victim. destruct (LRUlist_ r) eqn:Hl; [done|].
  destruct (LRU.scan_back r) eqn:Hs; [|done].
  intros [= <- <-]. simpl. apply scan_back_elem in Hs. by rewrite Hl in Hs.
Qed.

Lemma victim_None r r' : LRU.victim r = (None, r') → r' = r.
Proof.
  unfold LRU.victim. destruct (LRUlist_ r); [by intros [= <-]|].
  destruct (LRU.scan_back r); [done|by intros [= <-]].
Qed.

(** ** Frames of the pool *)

Section pool_facts.
Context {D : Type} `{!DiskManager D}.

Local Abbreviation BPM := (BufferPoolManager D).

Lemma lookup_upd_frame f g (s : BPM) f' :
  pages_ (upd_frame f g s) !! f' =
  if decide (f' = f) then g <$> (pages_ s !! f) else pages_ s !! f'.
Proof.
  unfold upd_frame, frame. simpl. case_decide as Hf.
  - subst f'. destruct (pages_ s !! f) as [pg|] eqn:Hl.
    + rewrite list_lookup_insert_eq; [|by eapply lookup_lt_Some].
      by rewrite (list_lookup_total_correct _ _ _ Hl).
    + rewrite list_insert_ge; [done|]. by apply lookup_ge_None.
  - by rewrite list_lookup_insert_ne.
Qed.

Lemma lookup_upd_frame_eq f g (s : BPM) pg :
  pages_ s !! f = Some pg → pages_ (upd_frame f g s) !! f = Some (g pg).
Proof. intros Hl. by rewrite lookup_upd_frame, decide_True, Hl. Qed.

Lemma lookup_upd_frame_ne f g (s : BPM) f' :
  f' ≠ f → pages_ (upd_frame f g s) !! f' = pages_ s !! f'.
Proof. intros Hne. by rewrite lookup_upd_frame, decide_False. Qed.

Lemma frame_lookup (s : BPM) f pg : pages_ s !! f = Some pg → frame s f = pg.
Proof. intros Hl. unfold frame. by apply list_lookup_total_correct. Qed.

Lemma unpinned_upd_frame f g (s : BPM) f' :
  (f' = f → ∀ pg, pages_ s !! f = Some pg → pin_count_ (g pg) = 0) →
  unpinned s f' → unpinned (upd_frame f g s) f'.
Proof.
  intros Hg (pg & Hl & Hp). unfold unpinned.
  destruct (decide (f' = f)) as [->|Hne].
  - exists (g pg). rewrite lookup_upd_frame, decide_True, Hl by done. eauto.
  - exists pg. by rewrite lookup_upd_frame, decide_False.
Qed.

(** Rewriting a frame keeps the invariant when the frame keeps its page
    id and its pin count stays 0 if the frame is free or evictable. *)
Lemma upd_frame_inv f g (s : BPM) :
  bpm_inv s →
  (∀ pg, pages_ s !! f = Some pg →
     id_ (g pg) = id_ pg ∧
     (f ∈ free_list_ s ∨ f ∈ LRUlist_ (replacer_ s) → pin_count_ (g pg) = 0)) →
  bpm_inv (upd_frame f g s).
Proof.
  intros [Hfnd Hfpin Hftab Htid Hlnd Hlhash Hlpin] Hg.
  constructor.
  - done.
  - intros f' Hin. apply unpinned_upd_frame; [|by apply Hfpin].
    intros -> pg Hpg. by apply Hg; [|left].
  - done.
  - intros K f' HK. destruct (Htid K f' HK) as (pg & Hl & Hp).
    rewrite lookup_upd_frame. destruct (decide (f' = f)) as [->|]; [|eauto].
    rewrite Hl. simpl. eexists; split; [done|].
    destruct (Hg pg Hl) as (-> & _). done.
  - done.
  - done.
  - intros f' Hin. apply unpinned_upd_frame; [|by apply Hlpin].
    intros -> pg Hpg. by apply Hg; [|right].
Qed.

(** A change of the data or of the dirty flag of a frame. *)
Lemma upd_frame_inv_same f g (s : BPM) :
  bpm_inv s →
  (∀ p, id_ (g p) = id_ p ∧ pin_count_ (g p) = pin_count_ p) →
  bpm_inv (upd_frame f g s).
Proof.
  intros Hinv Hg. apply upd_frame_inv; [done|].
  intros pg Hpg. destruct (Hg pg) as [-> ->].
  split; [done|].
  intros [Hf|Hf].
  - destruct (inv_free_pin _ Hinv f Hf) as (pg' & Hl & Hp). congruence.
  - destruct (inv_lru_pin _ Hinv f Hf) as (pg' & Hl & Hp). congruence.
Qed.

(** A frame that is neither free nor evictable may change its pin count
    to any value. *)
Lemma upd_frame_inv_pin f n (s : BPM) :
  bpm_inv s → f ∉ free_list_ s → f ∉ LRUlist_ (replacer_ s) →
  bpm_inv (upd_frame f (λ p, set_pin_count (n p) p) s).
Proof.
  intros Hinv Hfree Hlru. apply upd_frame_inv; [done|].
  intros pg Hpg. simpl. split; [done|].
  by intros [|].
Qed.

Lemma set_disk_inv d (s : BPM) : bpm_inv s → bpm_inv (set_disk d s).
Proof. by intros []. Qed.

Lemma pin_replacer_inv f (s : BPM) :
  bpm_inv s →
  bpm_inv (set_replacer (LRU.pin f (replacer_ s)) s) ∧
  f ∉ LRUlist_ (LRU.pin f (replacer_ s)).
Proof.
  intros [Hfnd Hfpin Hftab Htid Hlnd Hlhash Hlpin]. unfold LRU.pin. case_decide as Hin.
  - split.
    + constructor; simpl; try done.
      * by apply erase_node_NoDup.
      * intros f' Hf'. apply elem_of_difference. split.
        -- by eapply Hlhash, erase_node_subseteq.
        -- intros ->%elem_of_singleton. by eapply erase_node_gone.
      * intros f' Hf'. by eapply Hlpin, erase_node_subseteq.
    + simpl. by apply erase_node_gone.
  - split; [by destruct s|]. intros Hf. by apply Hin, Hlhash.
Qed.

Lemma unpin_replacer_inv f (s : BPM) :
  bpm_inv s → unpinned s f →
  bpm_inv (set_replacer (LRU.unpin f (replacer_ s)) s).
Proof.
  intros [Hfnd Hfpin Hftab Htid Hlnd Hlhash Hlpin] Hun. unfold LRU.unpin. case_decide as Hin; [|by destruct s].
  destruct Hin as [Hin _].
  constructor; simpl; try done.
  - constructor; [|done]. intros Hf. by apply Hin, Hlhash.
  - intros f' [->|Hf']%elem_of_cons; [set_solver|].
    apply elem_of_union_r. by apply Hlhash.
  - intros f' [->|Hf']%elem_of_cons; [done|]. by apply Hlpin.
Qed.

(** What [find_victim_page] hands out: a frame with pin count 0 that is
    no longer on the free list. *)
Lemma find_victim_page_Some (s : BPM) f s' :
  bpm_inv s → find_victim_page s = (Some f, s') →
  unpinned s f ∧ bpm_inv s' ∧ (f ∉ free_list_ s') ∧
  pages_ s' = pages_ s ∧ page_table_ s' = page_table_ s ∧
  disk_manager_ s' = disk_manager_ s.
Proof.
  intros [Hfnd Hfpin Hftab Htid Hlnd Hlhash Hlpin]. unfold find_victim_page.
  destruct (free_list_ s) as [|f0 rest] eqn:Hfl.
  - destruct (LRU.victim (replacer_ s)) as [r rep] eqn:Hv.
    intros [= -> <-]. apply victim_Some in Hv as (Hin & Hl & Hh & Hm).
    split; [by apply Hlpin|]. simpl. rewrite Hfl.
    split; [|by split; [set_solver|]].
    constructor; simpl; rewrite ?Hfl, ?Hl, ?Hh.
    + constructor.
    + intros f' Hf'. by apply elem_of_nil in Hf'.
    + intros K f' _ Hf'. by apply elem_of_nil in Hf'.
    + done.
    + by apply NoDup_filter.
    + intros f' Hf'. apply list_elem_of_filter in Hf' as [Hne Hf'].
      apply elem_of_difference. split; [by apply Hlhash|].
      by intros ->%elem_of_singleton.
    + intros f' Hf'. apply list_elem_of_filter in Hf' as [Hne Hf'].
      by apply Hlpin.
  - intros [= <- <-]. apply NoDup_cons in Hfnd as [Hnin Hnd].
    split; [apply Hfpin; by left|]. simpl.
    split; [|done].
    constructor; simpl.
    + done.
    + intros f' Hf'. apply Hfpin. by right.
    + intros K f' HK Hf'. eapply Hftab; [done|]. by right.
    + done.
    + done.
    + done.
    + done.
Qed.

(** The frame comes from the free list or from the list of the replacer. *)
Lemma find_victim_page_from (s : BPM) f s' :
  find_victim_page s = (Some f, s') →
  f ∈ free_list_ s ∨ f ∈ LRUlist_ (replacer_ s).
Proof.
  unfold find_victim_page. destruct (free_list_ s) as [|f0 rest].
  - destruct (LRU.victim (replacer_ s)) as [r rep] eqn:Hv.
    intros [= -> <-]. right. by apply victim_Some in Hv as (Hin & _).
  - intros [= <- <-]. left. by left.
Qed.

Lemma find_victim_page_None (s : BPM) s' :
  find_victim_page s = (None, s') → s' = s.
Proof.
  unfold find_victim_page. destruct (free_list_ s) eqn:Hfl; [|done].
  destruct (LRU.victim (replacer_ s)) as [r rep] eqn:Hv.
  intros [= -> <-]. apply victim_None in Hv as ->. by destruct s.
Qed.

End pool_facts.

(** ** Every public method of the pool keeps the invariant *)

Section pool_invariant.
Context {D : Type} `{!DiskManager D}.

Local Abbreviation BPM := (BufferPoolManager D).

Lemma bpm_init_inv n (d : D) : bpm_inv (bpm_init n d).
Proof.
  constructor; simpl.
  - apply NoDup_seq.
  - intros f Hf. apply elem_of_seq in Hf. exists empty_page.
    split; [|done]. apply lookup_replicate_2. lia.
  - intros K f HK. by rewrite lookup_empty in HK.
  - intros K f HK. by rewrite lookup_empty in HK.
  - constructor.
  - intros f Hf. by apply elem_of_nil in Hf.
  - intros f Hf. by apply elem_of_nil in Hf.
Qed.

(** The frame [f] is given the page id [P]: the entry of its old id goes,
    the entry [P ↦ f] comes. *)
Lemma retable_inv f P K (s : BPM) :
  bpm_inv s → f ∉ free_list_ s → is_Some (pages_ s !! f) →
  K = id_ (frame s f) →
  bpm_inv (upd_frame f (λ p, set_id P (set_data zero_data p))
             (set_page_table (<[P := f]> (delete K (page_table_ s))) s)).
Proof.
  intros [Hfnd Hfpin Hftab Htid Hlnd Hlhash Hlpin] Hfree [pg Hpg] ->.
  rewrite (frame_lookup _ _ _ Hpg).
  assert (∀ f', unpinned s f' →
            unpinned (upd_frame f (λ p, set_id P (set_data zero_data p))
               (set_page_table (<[P := f]> (delete (id_ pg) (page_table_ s))) s)) f')
    as Hun.
  { intros f' Hf'. apply (unpinned_upd_frame f _ s); [|done].
    intros -> pg' Hpg'. destruct Hf' as (pg'' & Hl & Hp). simpl. congruence. }
  constructor.
  - done.
  - intros f' Hf'. by apply Hun, Hfpin.
  - intros K f'. simpl. intros HK.
    apply lookup_insert_Some in HK as [[<- <-]|[HPK HK]]; [done|].
    apply lookup_delete_Some in HK as [_ HK]. by eapply Hftab.
  - intros K f' HK. simpl in HK.
    apply lookup_insert_Some in HK as [[<- <-]|[HPK HK]].
    + eexists. split; [by apply lookup_upd_frame_eq|done].
    + apply lookup_delete_Some in HK as [HKne HK].
      destruct (Htid K f' HK) as (pg' & Hl & Hid).
      destruct (decide (f' = f)) as [->|Hne]; [congruence|].
      exists pg'. split; [|done]. by rewrite lookup_upd_frame_ne.
  - done.
  - done.
  - intros f' Hf'. by apply Hun, Hlpin.
Qed.

Lemma update_page_inv f P (s : BPM) :
  bpm_inv s → f ∉ free_list_ s → is_Some (pages_ s !! f) →
  bpm_inv (update_page f P s).
Proof.
  intros Hinv Hfree [pg Hpg]. unfold update_page.
  destruct (is_dirty_ (frame s f)) eqn:Hd.
  - apply retable_inv.
    + apply upd_frame_inv_same; [by apply set_disk_inv|done].
    + done.
    + eexists. apply lookup_upd_frame_eq. exact Hpg.
    + rewrite (frame_lookup _ _ _ Hpg).
      erewrite (frame_lookup (upd_frame _ _ _)); [|apply lookup_upd_frame_eq; exact Hpg].
      done.
  - apply retable_inv; eauto.
Qed.

(** [update_page] leaves the lists alone and changes no pin count. *)
Lemma update_page_lists f P (s : BPM) :
  free_list_ (update_page f P s) = free_list_ s ∧
  replacer_ (update_page f P s) = replacer_ s.
Proof. unfold update_page. by destruct (is_dirty_ (frame s f)). Qed.

Lemma update_page_frame f P (s : BPM) pg :
  pages_ s !! f = Some pg →
  pages_ (update_page f P s) !! f = Some (mkPage P zero_data false (pin_count_ pg)).
Proof.
  intros Hpg. unfold update_page. rewrite (frame_lookup _ _ _ Hpg).
  destruct (is_dirty_ pg) eqn:Hd.
  - erewrite lookup_upd_frame_eq;
      [|apply (lookup_upd_frame_eq f (set_dirty false)); exact Hpg].
    done.
  - erewrite lookup_upd_frame_eq; [|exact Hpg].
    unfold set_id, set_data. simpl. by rewrite Hd.
Qed.

Lemma update_page_other f P (s : BPM) f' :
  f' ≠ f → pages_ (update_page f P s) !! f' = pages_ s !! f'.
Proof.
  intros Hne. unfold update_page. destruct (is_dirty_ (frame s f)).
  - rewrite lookup_upd_frame_ne by done. cbn [pages_ set_page_table].
    by rewrite lookup_upd_frame_ne.
  - by rewrite lookup_upd_frame_ne.
Qed.

Lemma update_page_disk f P (s : BPM) :
  disk_manager_ (update_page f P s) =
  if is_dirty_ (frame s f)
  then write_page (disk_manager_ s) (fd (id_ (frame s f)))
         (page_no (id_ (frame s f))) (data_ (frame s f))
  else disk_manager_ s.
Proof. unfold update_page. by destruct (is_dirty_ (frame s f)). Qed.

Lemma update_page_table f P (s : BPM) :
  page_table_ (update_page f P s) =
  <[P := f]> (delete (id_ (frame s f)) (page_table_ s)).
Proof. unfold update_page. by destruct (is_dirty_ (frame s f)). Qed.

Lemma update_page_length f P (s : BPM) :
  length (pages_ (update_page f P s)) = length (pages_ s).
Proof.
  unfold update_page. destruct (is_dirty_ (frame s f)); simpl;
    by rewrite ?length_insert.
Qed.

Lemma fetch_page_inv P (s : BPM) : bpm_inv s → bpm_inv (fetch_page P s).2.
Proof.
  intros Hinv. unfold fetch_page.
  destruct (page_table_ s !! P) as [f|] eqn:HP.
  - simpl.
    change (bpm_inv (upd_frame f (λ p, set_pin_count (wrap_int (pin_count_ p + 1)) p)
                       (set_replacer (LRU.pin f (replacer_ s)) s))).
    destruct (pin_replacer_inv f s Hinv) as [Hinv' Hnin].
    apply (upd_frame_inv_pin f (λ p, wrap_int (pin_count_ p + 1)));
      [done|by eapply inv_free_table|done].
  - destruct (find_victim_page s) as [[f|] s1] eqn:Hv.
    + apply find_victim_page_Some in Hv as (Hun & Hinv1 & Hfree & Hpg & _); [|done].
      simpl.
      assert (is_Some (pages_ s1 !! f)) as Hf.
      { rewrite Hpg. destruct Hun as (pg & -> & _). by eexists. }
      pose proof (update_page_inv f P s1 Hinv1 Hfree Hf) as Hinv2.
      pose proof (update_page_lists f P s1) as [Hfl2 _].
      set (s2 := update_page f P s1) in *.
      set (s3 := upd_frame f _ s2).
      assert (bpm_inv s3) as Hinv3 by by apply upd_frame_inv_same.
      destruct (pin_replacer_inv f s3 Hinv3) as [Hinv4 Hnin].
      apply (upd_frame_inv_pin f (λ p, wrap_int (pin_count_ p + 1))); [done| |done].
      change (f ∉ free_list_ s2). by rewrite Hfl2.
    + apply find_victim_page_None in Hv as ->. done.
Qed.

Lemma unpin_page_inv P d (s : BPM) : bpm_inv s → bpm_inv (unpin_page P d s).2.
Proof.
  intros Hinv. unfold unpin_page.
  destruct (page_table_ s !! P) as [f|] eqn:HP; [|done].
  destruct (decide (pin_count_ (frame s f) ≤ 0)) as [|Hpos]; [done|].
  simpl.
  destruct (inv_table_id _ Hinv P f HP) as (pg & Hpg & Hid).
  rewrite (frame_lookup _ _ _ Hpg) in Hpos.
  assert (f ∉ free_list_ s) as Hfree by by eapply inv_free_table.
  assert (f ∉ LRUlist_ (replacer_ s)) as Hlru.
  { intros Hf. destruct (inv_lru_pin _ Hinv f Hf) as (pg' & Hl & Hp).
    rewrite Hpg in Hl. injection Hl as <-. lia. }
  set (s1 := upd_frame f (λ p, set_pin_count (pin_count_ p - 1) p) s).
  assert (bpm_inv s1) as Hinv1.
  { by apply (upd_frame_inv_pin f (λ p, pin_count_ p - 1)). }
  assert (pages_ s1 !! f = Some (set_pin_count (pin_count_ pg - 1) pg)) as Hpg1.
  { unfold s1. by rewrite lookup_upd_frame, decide_True, Hpg. }
  apply upd_frame_inv_same; [|done].
  destruct (decide (pin_count_ (frame s1 f) = 0)) as [Hz|]; [|done].
  apply (unpin_replacer_inv f s1); [done|].
  rewrite (frame_lookup _ _ _ Hpg1) in Hz. by eexists.
Qed.

Lemma flush_page_inv P (s : BPM) : bpm_inv s → bpm_inv (flush_page P s).2.
Proof.
  intros Hinv. unfold flush_page.
  destruct (page_table_ s !! P) as [f|]; [|done]. simpl.
  apply upd_frame_inv_same; [by apply set_disk_inv|done].
Qed.

Lemma new_page_inv fdn (s : BPM) : bpm_inv s → bpm_inv (new_page fdn s).2.
Proof.
  intros Hinv. unfold new_page.
  destruct (find_victim_page s) as [[f|] s1] eqn:Hv.
  - apply find_victim_page_Some in Hv as (Hun & Hinv1 & Hfree & Hpg & _); [|done].
    destruct (allocate_page (disk_manager_ s1) fdn) as [pno d] eqn:Ha.
    destruct (decide (pno = INVALID_PAGE_ID)); simpl; [by apply set_disk_inv|].
    assert (is_Some (pages_ s1 !! f)) as Hf.
    { rewrite Hpg. destruct Hun as (pg & -> & _). by eexists. }
    pose proof (update_page_inv f (mkPageId fdn pno) (set_disk d s1)
                  (set_disk_inv d s1 Hinv1) Hfree Hf) as Hinv2.
    pose proof (update_page_lists f (mkPageId fdn pno) (set_disk d s1)) as [Hfl2 _].
    set (s2 := update_page f _ _) in *.
    destruct (pin_replacer_inv f s2 Hinv2) as [Hinv3 Hnin].
    apply (upd_frame_inv_pin f (λ _, 1)); [done| |done].
    change (f ∉ free_list_ s2). by rewrite Hfl2.
  - apply find_victim_page_None in Hv as ->. done.
Qed.

Lemma delete_page_inv P (s : BPM) : bpm_inv s → bpm_inv (delete_page P s).2.
Proof.
  intros Hinv. unfold delete_page.
  destruct (page_table_ s !! P) as [f|] eqn:HP; [|done].
  destruct (decide (pin_count_ (frame s f) ≠ 0)) as [|Hz]; [done|].
  apply dec_stable in Hz. simpl.
  destruct (inv_table_id _ Hinv P f HP) as (pg & Hpg & Hid).
  rewrite (frame_lookup _ _ _ Hpg) in Hz.
  pose proof Hinv as [Hfnd Hfpin Hftab Htid Hlnd Hlhash Hlpin].
  assert (∀ f', unpinned s f' →
            unpinned (upd_frame f (set_data zero_data) s) f') as Hun.
  { intros f' Hf'. apply unpinned_upd_frame; [|done].
    intros -> pg' Hpg'. simpl. congruence. }
  constructor; simpl.
  - apply NoDup_app. split; [done|]. split; [|apply NoDup_singleton].
    intros f' Hf' ->%list_elem_of_singleton. by eapply Hftab.
  - intros f' [Hf'| ->%list_elem_of_singleton]%elem_of_app; apply Hun.
    + by apply Hfpin.
    + by exists pg.
  - intros K f' HK. apply lookup_delete_Some in HK as [HKne HK].
    intros [Hf'| ->%list_elem_of_singleton]%elem_of_app.
    + by eapply Hftab.
    + destruct (Htid K f HK) as (pg' & Hl & Hid'). congruence.
  - intros K f' HK. apply lookup_delete_Some in HK as [HKne HK].
    destruct (Htid K f' HK) as (pg' & Hl & Hid').
    change (∃ pg0, pages_ (upd_frame f (set_data zero_data) s) !! f' = Some pg0
                   ∧ id_ pg0 = K).
    rewrite lookup_upd_frame. destruct (decide (f' = f)) as [->|]; [|eauto].
    rewrite Hl. simpl. eauto.
  - done.
  - done.
  - intros f' Hf'. by apply Hun, Hlpin.
Qed.

Lemma flush_entry_inv file e (s : BPM) : bpm_inv s → bpm_inv (flush_entry file e s).
Proof.
  intros Hinv. unfold flush_entry. destruct (decide (fd e.1 ≠ file)); [done|].
  apply upd_frame_inv_same; [by apply set_disk_inv|done].
Qed.

Lemma flush_all_pages_inv file (s : BPM) :
  bpm_inv s → bpm_inv (flush_all_pages file s).
Proof.
  intros Hinv. unfold flush_all_pages.
  induction (map_to_list (page_table_ s)) as [|e l IH]; simpl; [done|].
  by apply flush_entry_inv.
Qed.

Lemma bpm_exec_inv op (s : BPM) : bpm_inv s → bpm_inv (bpm_exec op s).
Proof.
  destruct op; simpl.
  - apply fetch_page_inv.
  - apply unpin_page_inv.
  - apply flush_page_inv.
  - apply new_page_inv.
  - apply delete_page_inv.
  - apply flush_all_pages_inv.
Qed.

Lemma bpm_reachable_inv n d (s : BPM) : bpm_reachable n d s → bpm_inv s.
Proof.
  induction 1 as [|s op _ IH]; [apply bpm_init_inv|by apply bpm_exec_inv].
Qed.

End pool_invariant.

(** ** What [fetch_page] and [unpin_page] do to the pool *)

Section pool_calls.
Context {D : Type} `{!DiskManager D}.

Local Abbreviation BPM := (BufferPoolManager D).

(** A hit: the frame of the page gets one more pin, counted as an [int]
    counts; nothing else moves. *)
Lemma fetch_page_hit P (s : BPM) f pg :
  page_table_ s !! P = Some f → pages_ s !! f = Some pg →
  ∃ s', fetch_page P s = (Some f, s') ∧
    pages_ s' = <[f := set_pin_count (wrap_int (pin_count_ pg + 1)) pg]> (pages_ s) ∧
    page_table_ s' = page_table_ s ∧
    free_list_ s' = free_list_ s ∧
    disk_manager_ s' = disk_manager_ s.
Proof.
  intros HP Hpg. unfold fetch_page. rewrite HP. eexists. split; [done|].
  simpl. by rewrite (frame_lookup _ _ _ Hpg).
Qed.

(** A miss: the victim [f] is written back if dirty, takes the page, is
    filled from the disk and comes back clean with one pin. *)
Lemma fetch_page_miss P (s : BPM) f s1 pg :
  page_table_ s !! P = None →
  find_victim_page s = (Some f, s1) →
  pages_ s !! f = Some pg → pin_count_ pg = 0 →
  ∃ s', fetch_page P s = (Some f, s') ∧
    disk_manager_ s' =
      (if is_dirty_ pg
       then write_page (disk_manager_ s) (fd (id_ pg)) (page_no (id_ pg)) (data_ pg)
       else disk_manager_ s) ∧
    pages_ s' !! f =
      Some (mkPage P (read_page (disk_manager_ s') (fd P) (page_no P)) false 1) ∧
    (∀ f', f' ≠ f → pages_ s' !! f' = pages_ s !! f') ∧
    page_table_ s' = <[P := f]> (delete (id_ pg) (page_table_ s)) ∧
    free_list_ s' = free_list_ s1.
Proof.
  intros HP Hv Hpg Hz. unfold fetch_page. rewrite HP, Hv.
  assert (pages_ s1 = pages_ s ∧ page_table_ s1 = page_table_ s ∧
          disk_manager_ s1 = disk_manager_ s) as (Hp1 & Ht1 & Hd1).
  { unfold find_victim_page in Hv. destruct (free_list_ s).
    - destruct (LRU.victim (replacer_ s)). by injection Hv as _ <-.
    - by injection Hv as _ <-. }
  assert (pages_ s1 !! f = Some pg) as Hpg1 by by rewrite Hp1.
  eexists. split; [done|].
  pose proof (update_page_frame f P s1 pg Hpg1) as Hf2.
  pose proof (update_page_disk f P s1) as Hd2.
  pose proof (update_page_table f P s1) as Ht2.
  pose proof (update_page_lists f P s1) as [Hfl2 _].
  rewrite (frame_lookup _ _ _ Hpg1), Hd1 in Hd2.
  rewrite (frame_lookup _ _ _ Hpg1), Ht1 in Ht2.
  set (s2 := update_page f P s1) in *.
  split; [exact Hd2|]. split; [|split; [|split]].
  - erewrite lookup_upd_frame_eq; [|cbn [pages_ set_replacer];
      eapply lookup_upd_frame_eq; exact Hf2].
    cbn. by rewrite Hz, wrap_int_one.
  - intros f' Hne. rewrite lookup_upd_frame_ne by done.
    cbn [pages_ set_replacer]. rewrite lookup_upd_frame_ne by done.
    unfold s2. rewrite update_page_other by done. by rewrite Hp1.
  - exact Ht2.
  - exact Hfl2.
Qed.

Lemma unpin_page_ok P d (s : BPM) f pg :
  page_table_ s !! P = Some f → pages_ s !! f = Some pg → 0 < pin_count_ pg →
  ∃ s', unpin_page P d s = (true, s') ∧
    pages_ s' = <[f := mkPage (id_ pg) (data_ pg) d (pin_count_ pg - 1)]> (pages_ s) ∧
    page_table_ s' = page_table_ s ∧
    free_list_ s' = free_list_ s ∧
    disk_manager_ s' = disk_manager_ s.
Proof.
  intros HP Hpg Hpos. unfold unpin_page. rewrite HP.
  rewrite (frame_lookup _ _ _ Hpg).
  rewrite decide_False by lia. eexists. split; [done|].
  assert (pages_ s !!! f = pg) as Hpg' by by apply list_lookup_total_correct.
  assert (f < length (pages_ s))%nat as Hlt by by eapply lookup_lt_Some.
  split; [|by destruct (decide _)].
  destruct (decide _); unfold upd_frame, frame; simpl;
    rewrite list_lookup_total_insert_eq, list_insert_insert_eq, Hpg' by done;
    done.
Qed.

Lemma unpin_page_false P d (s : BPM) :
  (unpin_page P d s).1 = false → (unpin_page P d s).2 = s.
Proof.
  unfold unpin_page. destruct (page_table_ s !! P); [|done].
  by destruct (decide _).
Qed.

Lemma fetch_page_pin_count P (s : BPM) :
  bpm_inv s →
  pin_count_of P (fetch_page P s).2 =
  if (fetch_page P s).1 is Some _ then wrap_int (pin_count_of P s + 1)
  else pin_count_of P s.
Proof.
  intros Hinv. destruct (page_table_ s !! P) as [f|] eqn:HP.
  - destruct (inv_table_id _ Hinv P f HP) as (pg & Hpg & _).
    destruct (fetch_page_hit P s f pg HP Hpg) as (s' & -> & Hp' & Ht' & _).
    simpl. unfold pin_count_of, frame. rewrite Ht', HP, Hp'.
    rewrite list_lookup_total_insert_eq by by eapply lookup_lt_Some.
    by rewrite (list_lookup_total_correct _ _ _ Hpg).
  - destruct (find_victim_page s) as [[f|] s1] eqn:Hv.
    + destruct (find_victim_page_Some s f s1 Hinv Hv) as ((pg & Hpg & Hz) & _).
      destruct (fetch_page_miss P s f s1 pg HP Hv Hpg Hz)
        as (s' & -> & _ & Hf' & _ & Ht' & _).
      simpl. unfold pin_count_of. rewrite Ht', HP, lookup_insert_eq.
      by rewrite (frame_lookup _ _ _ Hf').
    + unfold fetch_page. rewrite HP, Hv.
      apply find_victim_page_None in Hv as ->. done.
Qed.

Lemma unpin_page_pin_count P d (s : BPM) :
  bpm_inv s →
  pin_count_of P (unpin_page P d s).2 =
  pin_count_of P s - (if (unpin_page P d s).1 then 1 else 0).
Proof.
  intros Hinv. destruct (page_table_ s !! P) as [f|] eqn:HP.
  - destruct (inv_table_id _ Hinv P f HP) as (pg & Hpg & _).
    destruct (decide (0 < pin_count_ pg)) as [Hpos|Hnpos].
    + destruct (unpin_page_ok P d s f pg HP Hpg Hpos) as (s' & -> & Hp' & Ht' & _).
      simpl. unfold pin_count_of, frame. rewrite Ht', HP, Hp'.
      rewrite list_lookup_total_insert_eq by by eapply lookup_lt_Some.
      by rewrite (list_lookup_total_correct _ _ _ Hpg).
    + unfold unpin_page. rewrite HP, (frame_lookup _ _ _ Hpg).
      rewrite decide_True by lia. simpl. lia.
  - unfold unpin_page. rewrite HP. simpl. lia.
Qed.

(** [unpin_page] succeeds exactly on a page with a positive pin count. *)
Lemma unpin_page_result P d (s : BPM) :
  (unpin_page P d s).1 = bool_decide (0 < pin_count_of P s).
Proof.
  unfold unpin_page, pin_count_of. destruct (page_table_ s !! P) as [f|]; [|done].
  destruct (decide (pin_count_ (frame s f) ≤ 0)); simpl.
  - by rewrite bool_decide_eq_false_2 by lia.
  - by rewrite bool_decide_eq_true_2 by lia.
Qed.

Lemma pin_call_exec_inv P c (s : BPM) :
  bpm_inv s → bpm_inv (pin_call_exec P c s).2.
Proof.
  intros Hinv. destruct c as [|d]; simpl.
  - pose proof (fetch_page_inv P s Hinv). by destruct (fetch_page P s).
  - by apply unpin_page_inv.
Qed.

(** The two counters of a run are not negative. *)
Lemma run_pin_calls_counters P cs (s : BPM) :
  0 ≤ (run_pin_calls P cs s).1.2 ∧ 0 ≤ (run_pin_calls P cs s).2.
Proof.
  revert s. induction cs as [|c cs IH]; intros s; simpl; [done|].
  destruct (pin_call_exec P c s) as [ok s1].
  specialize (IH s1). destruct (run_pin_calls P cs s1) as [[s' nf] nu].
  simpl in IH. destruct c, ok; simpl; lia.
Qed.

(** As long as the count at the start and the successful fetches together
    stay within [INT_MAX], no increment wraps. *)
Lemma run_pin_calls_count P cs (s : BPM) :
  bpm_inv s → 0 ≤ pin_count_of P s →
  let '(s', nf, nu) := run_pin_calls P cs s in
  pin_count_of P s + nf ≤ INT_MAX →
  pin_count_of P s' = pin_count_of P s + nf - nu ∧ 0 ≤ pin_count_of P s'.
Proof.
  revert s. induction cs as [|c cs IH]; intros s Hinv Hnn; simpl.
  - intros _. lia.
  - pose proof (pin_call_exec_inv P c s Hinv) as Hinv1.
    pose proof (run_pin_calls_counters P cs (pin_call_exec P c s).2) as Hcnt.
    destruct (pin_call_exec P c s) as [ok s1] eqn:Hc.
    specialize (IH s1 Hinv1). simpl in Hcnt.
    destruct (run_pin_calls P cs s1) as [[s' nf] nu]. simpl in Hcnt.
    destruct c as [|d]; simpl in Hc.
    + pose proof (fetch_page_pin_count P s Hinv) as Hstep.
      destruct (fetch_page P s) as [r s1']. injection Hc as <- <-.
      simpl in Hstep. intros Hbound.
      destruct r as [f|]; simpl in Hbound |- *.
      * rewrite ?bool_decide_eq_true_2 in Hbound by by eexists.
        rewrite ?bool_decide_eq_true_2 by by eexists.
        rewrite wrap_int_small in Hstep by (unfold INT_MIN, INT_MAX in *; lia).
        destruct IH as [IH Hnn']; lia.
      * rewrite ?bool_decide_eq_false_2 in Hbound by by intros [].
        rewrite ?bool_decide_eq_false_2 by by intros [].
        destruct IH as [IH Hnn']; lia.
    + pose proof (unpin_page_pin_count P d s Hinv) as Hstep.
      pose proof (unpin_page_result P d s) as Hres.
      rewrite Hc in Hstep, Hres. simpl in Hstep, Hres. intros Hbound.
      destruct ok.
      * symmetry in Hres. apply bool_decide_eq_true_1 in Hres.
        destruct IH as [IH Hnn']; lia.
      * destruct IH as [IH Hnn']; lia.
Qed.

(** Fetching a resident page [n] times adds [n] to its pin count as an
    [int] adds, and no fetch fails. *)
Lemma run_fetches_resident P n (s : BPM) :
  bpm_inv s → is_Some (page_table_ s !! P) →
  INT_MIN ≤ pin_count_of P s ≤ INT_MAX →
  ∃ s', run_pin_calls P (repeat CallFetch n) s = (s', Z.of_nat n, 0) ∧
    bpm_inv s' ∧ is_Some (page_table_ s' !! P) ∧
    pin_count_of P s' = wrap_int (pin_count_of P s + Z.of_nat n).
Proof.
  revert s. induction n as [|n IH]; intros s Hinv [f HP] Hrange.
  - exists s. simpl. split; [done|]. split; [done|]. split; [by eexists|].
    rewrite wrap_int_small; lia.
  - cbn [repeat run_pin_calls pin_call_exec].
    pose proof (fetch_page_pin_count P s Hinv) as Hstep.
    pose proof (fetch_page_inv P s Hinv) as Hinv1.
    destruct (inv_table_id _ Hinv P f HP) as (pg & Hpg & _).
    destruct (fetch_page_hit P s f pg HP Hpg) as (s1 & Hf & _ & Ht1 & _).
    rewrite Hf in Hstep, Hinv1 |- *. cbn [fst snd] in Hstep, Hinv1.
    destruct (IH s1 Hinv1) as (s' & Hrun & Hinv' & HP' & Hpin).
    { rewrite Ht1. by eexists. }
    { rewrite Hstep. apply wrap_int_range. }
    rewrite Hrun. exists s'. rewrite bool_decide_eq_true_2 by by eexists.
    split; [f_equal; f_equal; lia|]. split; [done|]. split; [done|].
    rewrite Hpin, Hstep, wrap_int_add_l. f_equal. lia.
Qed.

Lemma fetch_page_replacer P (s : BPM) :
  match page_table_ s !! P with
  | Some f =>
      replacer_ (fetch_page P s).2 = LRU.pin f (replacer_ s) ∧
      free_list_ (fetch_page P s).2 = free_list_ s
  | None =>
      match find_victim_page s with
      | (Some f, s1) =>
          replacer_ (fetch_page P s).2 = LRU.pin f (replacer_ s1) ∧
          free_list_ (fetch_page P s).2 = free_list_ s1
      | (None, _) => True
      end
  end.
Proof.
  unfold fetch_page. destruct (page_table_ s !! P) as [f|]; [done|].
  destruct (find_victim_page s) as [[f|] s1]; [|done].
  destruct (update_page_lists f P s1) as [Hfl Hrp]. split.
  - change (LRU.pin f (replacer_ (update_page f P s1)) = LRU.pin f (replacer_ s1)).
    by rewrite Hrp.
  - change (free_list_ (update_page f P s1) = free_list_ s1). done.
Qed.

Lemma new_page_replacer fdn (s : BPM) f pid s' s1 :
  find_victim_page s = (Some f, s1) → new_page fdn s = (Some (f, pid), s') →
  replacer_ s' = LRU.pin f (replacer_ s1) ∧ free_list_ s' = free_list_ s1.
Proof.
  intros Hv Hn. unfold new_page in Hn. rewrite Hv in Hn.
  destruct (allocate_page (disk_manager_ s1) fdn) as [pno d].
  destruct (decide _); [done|]. injection Hn as _ <-.
  destruct (update_page_lists f (mkPageId fdn pno) (set_disk d s1)) as [Hfl Hrp].
  split.
  - change (LRU.pin f (replacer_ (update_page f (mkPageId fdn pno) (set_disk d s1)))
            = LRU.pin f (replacer_ s1)).
    by rewrite Hrp.
  - change (free_list_ (update_page f (mkPageId fdn pno) (set_disk d s1))
            = free_list_ s1). done.
Qed.

(** Which frames the replacer may hand out after a call: [fetch_page] and
    [new_page] add none and remove the frame they return; [unpin_page] can
    only add the frame of its page. *)
Lemma pin_list_sub f r g : g ∈ LRUlist_ (LRU.pin f r) → g ∈ LRUlist_ r.
Proof.
  unfold LRU.pin. destruct (decide _); [|done]. simpl. apply erase_node_subseteq.
Qed.

Lemma unpin_list_sub f r g : g ∈ LRUlist_ (LRU.unpin f r) → g = f ∨ g ∈ LRUlist_ r.
Proof.
  unfold LRU.unpin. destruct (decide _); [|by right]. simpl.
  rewrite elem_of_cons. tauto.
Qed.

Lemma find_victim_page_list (s : BPM) r s1 g :
  find_victim_page s = (r, s1) →
  g ∈ LRUlist_ (replacer_ s1) → g ∈ LRUlist_ (replacer_ s).
Proof.
  unfold find_victim_page. destruct (free_list_ s) as [|f0 rest].
  - destruct (LRU.victim (replacer_ s)) as [[x|] rep] eqn:Hv; intros [= <- <-]; simpl.
    + apply victim_Some in Hv as (_ & -> & _). by intros [_ ?]%list_elem_of_filter.
    + by apply victim_None in Hv as ->.
  - by intros [= <- <-].
Qed.

Lemma fetch_page_list P (s : BPM) g :
  g ∈ LRUlist_ (replacer_ (fetch_page P s).2) → g ∈ LRUlist_ (replacer_ s).
Proof.
  pose proof (fetch_page_replacer P s) as Hrep.
  destruct (page_table_ s !! P) as [f|] eqn:HP.
  - destruct Hrep as [-> _]. apply pin_list_sub.
  - destruct (find_victim_page s) as [[f|] s1] eqn:Hv.
    + destruct Hrep as [-> _]. intros Hg%pin_list_sub.
      by eapply find_victim_page_list.
    + unfold fetch_page. rewrite HP, Hv. simpl. by eapply find_victim_page_list.
Qed.

Lemma fetch_page_not_listed P (s : BPM) f :
  bpm_inv s → (fetch_page P s).1 = Some f →
  f ∉ LRUlist_ (replacer_ (fetch_page P s).2).
Proof.
  intros Hinv. pose proof (fetch_page_replacer P s) as Hrep.
  destruct (page_table_ s !! P) as [g|] eqn:HP.
  - destruct Hrep as [-> _]. unfold fetch_page. rewrite HP. simpl. intros [= ->].
    by apply pin_replacer_inv.
  - destruct (find_victim_page s) as [[g|] s1] eqn:Hv.
    + destruct Hrep as [-> _]. unfold fetch_page. rewrite HP, Hv. simpl. intros [= ->].
      destruct (find_victim_page_Some s f s1 Hinv Hv) as (_ & Hinv1 & _).
      by apply pin_replacer_inv.
    + unfold fetch_page. by rewrite HP, Hv.
Qed.

Lemma new_page_list fdn (s : BPM) g :
  g ∈ LRUlist_ (replacer_ (new_page fdn s).2) → g ∈ LRUlist_ (replacer_ s).
Proof.
  unfold new_page. destruct (find_victim_page s) as [[f|] s1] eqn:Hv.
  - destruct (allocate_page (disk_manager_ s1) fdn) as [pno d].
    destruct (decide _); simpl.
    + by eapply find_victim_page_list.
    + destruct (update_page_lists f (mkPageId fdn pno) (set_disk d s1)) as [_ Hrp].
      change (g ∈ LRUlist_ (LRU.pin f (replacer_ (update_page f (mkPageId fdn pno)
                                                    (set_disk d s1))))
              → g ∈ LRUlist_ (replacer_ s)).
      rewrite Hrp. intros Hg%pin_list_sub. by eapply find_victim_page_list.
  - simpl. by eapply find_victim_page_list.
Qed.

Lemma new_page_not_listed fdn (s : BPM) f pid s' :
  bpm_inv s → new_page fdn s = (Some (f, pid), s') → f ∉ LRUlist_ (replacer_ s').
Proof.
  intros Hinv Hn. destruct (find_victim_page s) as [[g|] s1] eqn:Hv.
  - assert (g = f) as ->.
    { unfold new_page in Hn. rewrite Hv in Hn.
      destruct (allocate_page (disk_manager_ s1) fdn) as [pno d].
      destruct (decide _); [done|]. by injection Hn as ->. }
    destruct (new_page_replacer fdn s f pid s' s1 Hv Hn) as [-> _].
    destruct (find_victim_page_Some s f s1 Hinv Hv) as (_ & Hinv1 & _).
    by apply pin_replacer_inv.
  - unfold new_page in Hn. by rewrite Hv in Hn.
Qed.

Lemma unpin_page_list P d (s : BPM) g :
  g ∈ LRUlist_ (replacer_ (unpin_page P d s).2) →
  page_table_ s !! P = Some g ∨ g ∈ LRUlist_ (replacer_ s).
Proof.
  unfold unpin_page. destruct (page_table_ s !! P) as [f|]; [|by right].
  destruct (decide (pin_count_ (frame s f) ≤ 0)); [by right|].
  destruct (decide _); simpl; [|by right].
  intros [->|Hg]%unpin_list_sub; [by left|by right].
Qed.

(** A frame with a pin count other than 0 is not with the replacer. *)
Lemma pinned_not_listed (s : BPM) f pg :
  bpm_inv s → pages_ s !! f = Some pg → pin_count_ pg ≠ 0 →
  f ∉ LRUlist_ (replacer_ s).
Proof.
  intros Hinv Hpg Hpin Hin. destruct (inv_lru_pin _ Hinv f Hin) as (pg' & Hl & Hz).
  congruence.
Qed.

End pool_calls.

(** C1. In every state the pool can reach, the frame that [find_victim_page]
    selects (from the free list, or else from [LRUReplacer::victim]) exists
    and has pin count 0: no pinned page is evicted. *)
Theorem victim_frame_is_unpinned {D} `{!DiskManager D} n (d : D)
    (s s' : BufferPoolManager D) (f : frame_id_t) :
  bpm_reachable n d s →
  find_victim_page s = (Some f, s') →
  ∃ pg, pages_ s !! f = Some pg ∧ pin_count_ pg = 0.
Proof.
  intros Hr Hv. apply bpm_reachable_inv in Hr.
  by destruct (find_victim_page_Some s f s' Hr Hv) as [Hun _].
Qed.

(** C9, amended. From any state the pool can reach in which the page has
    no negative pin count, after any sequence of [fetch_page] and
    [unpin_page] calls on one page id in which the count at the start and
    the successful fetches together do not exceed [INT_MAX], the pin count
    of the page has grown by the number of successful fetches minus the
    number of successful unpins (so it is that difference when the page
    started unpinned) and is not negative; [unpin_page] returns [false]
    exactly when the page is not resident or its pin count is 0, and then
    the pool is unchanged. *)
Theorem pin_count_is_fetches_minus_unpins {D} `{!DiskManager D} n (d : D)
    (s : BufferPoolManager D) (P : PageId) :
  bpm_reachable n d s → 0 ≤ pin_count_of P s →
  (∀ cs, let '(s', nf, nu) := run_pin_calls P cs s in
         pin_count_of P s + nf ≤ INT_MAX →
         pin_count_of P s' = pin_count_of P s + nf - nu ∧
         (pin_count_of P s = 0 → pin_count_of P s' = nf - nu) ∧
         0 ≤ pin_count_of P s') ∧
  (∀ dirty,
     ((unpin_page P dirty s).1 = false ↔
      (page_table_ s !! P = None ∨
       ∃ f, page_table_ s !! P = Some f ∧ pin_count_ (frame s f) = 0)) ∧
     ((unpin_page P dirty s).1 = false → (unpin_page P dirty s).2 = s)).
Proof.
  intros Hr Hnn. apply bpm_reachable_inv in Hr. split.
  - intros cs. pose proof (run_pin_calls_count P cs s Hr Hnn) as Hc.
    destruct (run_pin_calls P cs s) as [[s' nf] nu].
    intros Hbound. destruct (Hc Hbound) as [Hc' Hnn']. repeat split; [done|lia|done].
  - intros dirty. split; [|apply unpin_page_false].
    unfold unpin_page. unfold pin_count_of in Hnn.
    destruct (page_table_ s !! P) as [f|] eqn:HP.
    + destruct (decide (pin_count_ (frame s f) ≤ 0)); simpl.
      * split; [|done]. intros _. right. exists f. split; [done|]. lia.
      * split; [done|]. intros [|(f' & [= <-] & Hz)]; [done|]. lia.
    + simpl. split; [by left|done].
Qed.

(** ** The pool on concrete inputs *)

(** Closed statements about concrete inputs are settled by running the
    code on them. *)
Ltac run_code :=
  intros; repeat match goal with |- _ ∧ _ => split end; vm_compute; reflexivity.

Lemma pool_released_reachable :
  bpm_reachable 1 Examples.disk7 Examples.pool_released.
Proof. unfold Examples.pool_released. apply reach_step, reach_step, reach_init. Qed.

Lemma victim_frame_is_unpinned_witness :
  ∃ pg, pages_ Examples.pool_released !! 0%nat = Some pg ∧ pin_count_ pg = 0.
Proof.
  apply (victim_frame_is_unpinned 1 Examples.disk7 Examples.pool_released
           (find_victim_page Examples.pool_released).2 0%nat).
  - unfold Examples.pool_released. apply reach_step, reach_step, reach_init.
  - vm_compute. reflexivity.
Defined.

Lemma pin_count_is_fetches_minus_unpins_witness :
  let '(s', nf, nu) :=
    run_pin_calls Examples.pA
      [CallFetch; CallFetch; CallUnpin true; CallUnpin false; CallUnpin false]
      (bpm_init 1 Examples.disk7) in
  pin_count_of Examples.pA s' = pin_count_of Examples.pA (bpm_init 1 Examples.disk7) + nf - nu ∧
  (pin_count_of Examples.pA (bpm_init 1 Examples.disk7) = 0 →
   pin_count_of Examples.pA s' = nf - nu) ∧
  0 ≤ pin_count_of Examples.pA s'.
Proof.
  assert (0 ≤ pin_count_of Examples.pA (bpm_init 1 Examples.disk7)) as Hnn
    by (vm_compute; discriminate).
  pose proof (proj1 (pin_count_is_fetches_minus_unpins 1 Examples.disk7
                       (bpm_init 1 Examples.disk7) Examples.pA
                       (reach_init 1 Examples.disk7) Hnn)
                [CallFetch; CallFetch; CallUnpin true; CallUnpin false; CallUnpin false])
    as Hcount.
  destruct (run_pin_calls Examples.pA _ (bpm_init 1 Examples.disk7))
    as [[s' nf] nu] eqn:Hrun.
  apply Hcount.
  assert (nf = 2) as -> by (vm_compute in Hrun; congruence).
  vm_compute. discriminate.
Defined.

Example run_pin_calls_example :
  let '(s', nf, nu) :=
    run_pin_calls Examples.pA
      [CallFetch; CallFetch; CallUnpin true; CallUnpin false; CallUnpin false]
      (bpm_init 1 Examples.disk7) in
  (pin_count_of Examples.pA s', nf, nu) = (0, 2, 2).
Proof. vm_compute. reflexivity. Qed.

(** C9 fails as stated: an [int] cannot count 2^31 pins.  In a fresh pool
    of one frame, 2^31 calls of [fetch_page] on the page [pA] all succeed
    and no [unpin_page] is made, yet the pin count of the page is then
    -2^31: it is not the number of fetches minus the number of unpins, and
    it is negative.  [unpin_page] now returns [false] although the page is
    resident and its pin count is not 0. *)
Lemma pin_count_wraps_after_2_31_fetches :
  ∃ s' : BufferPoolManager MemDisk,
    run_pin_calls Examples.pA (repeat CallFetch (Z.to_nat 2147483648))
      (bpm_init 1 Examples.disk7) = (s', 2147483648, 0) ∧
    pin_count_of Examples.pA s' = -2147483648 ∧
    is_Some (page_table_ s' !! Examples.pA) ∧
    (unpin_page Examples.pA false s').1 = false.
Proof.
  assert (Z.to_nat 2147483648 = S (Z.to_nat 2147483647)) as -> by lia.
  assert (Z.of_nat (Z.to_nat 2147483647) = 2147483647) as Hm by lia.
  generalize dependent (Z.to_nat 2147483647). intros m Hm.
  set (s1 := (fetch_page Examples.pA (bpm_init 1 Examples.disk7)).2).
  assert (fetch_page Examples.pA (bpm_init 1 Examples.disk7) = (Some 0%nat, s1))
    as Hfetch by (vm_compute; reflexivity).
  assert (pin_count_of Examples.pA s1 = 1) as Hpin1 by (vm_compute; reflexivity).
  assert (is_Some (page_table_ s1 !! Examples.pA)) as Hres
    by (exists 0%nat; vm_compute; reflexivity).
  assert (bpm_inv s1) as Hinv1 by apply fetch_page_inv, bpm_init_inv.
  clearbody s1.
  destruct (run_fetches_resident Examples.pA m s1 Hinv1 Hres)
    as (s' & Hrun & _ & Hres' & Hpin).
  { rewrite Hpin1. unfold INT_MIN, INT_MAX. lia. }
  exists s'. cbn [repeat run_pin_calls pin_call_exec].
  rewrite Hfetch, Hrun, Hpin1, Hm in *.
  split; [reflexivity|]. split; [exact Hpin|]. split; [exact Hres'|].
  rewrite unpin_page_result, Hpin. reflexivity.
Qed.

(** A successful [unpin_page] stores its argument in the dirty flag,
    whatever the flag was. *)
Lemma unpin_page_stores_dirty {D} `{!DiskManager D} P d
    (s : BufferPoolManager D) f pg :
  page_table_ s !! P = Some f → pages_ s !! f = Some pg → 0 < pin_count_ pg →
  (unpin_page P d s).1 = true ∧ is_dirty_ (frame (unpin_page P d s).2 f) = d.
Proof.
  intros HP Hpg Hpos.
  destruct (unpin_page_ok P d s f pg HP Hpg Hpos) as (s' & -> & Hp' & _).
  split; [done|]. simpl. unfold frame. rewrite Hp'.
  by rewrite list_lookup_total_insert_eq by by eapply lookup_lt_Some.
Qed.

(** C4 (the code does otherwise). A writer changes page [pA] and unpins it
    with [is_dirty = true]; a reader then fetches it and unpins it with
    [is_dirty = false].  The flag is now [false] although the page was never
    flushed: the frame still holds the new bytes, the disk the old ones, and
    when the frame is reused for [pB] the new bytes are dropped without a
    write-back. *)
Theorem unpin_page_overwrites_dirty_flag :
  page_table_ Examples.pool_written !! Examples.pA = Some 0%nat ∧
  is_dirty_ (frame Examples.pool_written 0%nat) = true ∧
  (unpin_page Examples.pA false (fetch_page Examples.pA Examples.pool_written).2).1 = true ∧
  is_dirty_ (frame Examples.pool_read_after 0%nat) = false ∧
  num_records (page_hdr (data_ (frame Examples.pool_read_after 0%nat))) = 1 ∧
  num_records (page_hdr (read_page (disk_manager_ Examples.pool_read_after) 7 1)) = 0 ∧
  (fetch_page Examples.pB Examples.pool_read_after).1 = Some 0%nat ∧
  num_records (page_hdr (page_view_at 7
     (fetch_page Examples.pB Examples.pool_read_after).2 1)) = 0.
Proof. run_code. Qed.

(** C8 (the code does otherwise). In a fresh pool of one frame, [new_page]
    for a file on which [allocate_page] fails returns no page, but the
    frame it had taken from the free list is not put back: it is then in
    no list and under no page id. *)
Theorem new_page_failure_drops_frame :
  let s := bpm_init 1 Examples.disk_closed in
  (new_page 7 s).1 = None ∧
  free_list_ s = [0%nat] ∧
  free_list_ (new_page 7 s).2 = [] ∧
  LRUlist_ (replacer_ (new_page 7 s).2) = [] ∧
  page_table_ (new_page 7 s).2 = ∅ ∧
  (fetch_page Examples.pA (new_page 7 s).2).1 = None.
Proof. run_code. Qed.

(** ** The record layer on concrete inputs *)

(** C3 (the code does otherwise). [insert_record] leaves page 1 with pin
    count 0; the [get_record] that follows finds the record and returns with
    the page still pinned: the pin it took through [fetch_page_handle] is
    never released, neither when the record is returned nor when the slot
    number is out of range. *)
Theorem get_record_leaves_page_pinned :
  insert_record [x01; x02] Examples.file0 = Done (mkRid 1 0, Examples.file1) ∧
  page_pin_count Examples.file1 1 = 0 ∧
  get_record (mkRid 1 0) Examples.file1
    = (Some (mkRecord [x01; x02] 2), Examples.file1_got) ∧
  page_pin_count Examples.file1_got 1 = 1 ∧
  get_record (mkRid 1 4) Examples.file1_got = (None, Examples.file1_got2) ∧
  page_pin_count Examples.file1_got2 1 = 2.
Proof. run_code. Qed.

(** C5 (the code does otherwise). In a fresh file with 4 slots per page the
    first [insert_record] creates page 1 with one record, but
    [first_free_page_no] stays [RM_NO_PAGE]: the page has free slots and is
    not on the free-page list, and the second insert allocates page 2
    instead of filling page 1. *)
Theorem new_page_is_not_linked :
  insert_record [x01; x02] Examples.file0 = Done (mkRid 1 0, Examples.file1) ∧
  num_records (page_hdr (page_view Examples.file1 1)) = 1 ∧
  num_records_per_page (file_hdr_ Examples.file1) = 4 ∧
  first_free_page_no (file_hdr_ Examples.file1) = RM_NO_PAGE ∧
  free_pages Examples.file1 = [] ∧
  insert_record [x03; x04] Examples.file1 = Done (mkRid 2 0, Examples.file2) ∧
  num_pages (file_hdr_ Examples.file2) = 3.
Proof. run_code. Qed.

(** C6 fails as stated: after one insert, [delete_record] of the free slot
    [(1,1)] takes [num_records] of page 1 to 0 while one bit is still set. *)
Lemma delete_free_slot_breaks_count :
  run_rm_calls [CallInsert [x01; x02]; CallDelete (mkRid 1 1)] Examples.file0
    = Done Examples.file1_deleted ∧
  num_records (page_hdr (page_view Examples.file1_deleted 1)) = 0 ∧
  count_set (bitmap (page_view Examples.file1_deleted 1))
    (num_records_per_page (file_hdr_ Examples.file1_deleted)) = 1.
Proof. run_code. Qed.

(** C7 (the code does otherwise). On the file [[P0: slots {0,2}, P1: slots {1}]]
    the scan starts at [(P0,0)], where [is_end] is [false]; [next] moves it
    to [(P0,2)], and there [is_end] is already [true] (slot number 2 is not
    below the 2 records of the page) although [(P1,1)] is occupied and has
    not been visited; a further [next] would have reached it. *)
Theorem scan_reports_end_too_early :
  Scan.new Examples.scan_file = Done Examples.scan_start ∧
  Scan.rid Examples.scan_start.1 = mkRid 1 0 ∧
  Scan.is_end Examples.scan_start.1 Examples.scan_start.2
    = Done (false, Examples.scan_asked) ∧
  Scan.next Examples.scan_start.1 Examples.scan_asked = Done Examples.scan_second ∧
  Scan.rid Examples.scan_second.1 = mkRid 1 2 ∧
  Scan.is_end Examples.scan_second.1 Examples.scan_second.2
    = Done (true, Examples.scan_asked2) ∧
  bitmap (page_view Examples.scan_asked2 2) 1 = true ∧
  Scan.next Examples.scan_second.1 Examples.scan_asked2 = Done Examples.scan_third ∧
  Scan.rid Examples.scan_third.1 = mkRid 2 1.
Proof. run_code. Qed.

(** ** The scan and the empty page handle *)

(** C10 fails as stated: page 1 is a page of [tail_file] that the pool
    cannot supply, yet [next] at [(1,3)], the last slot of the page, reads
    no bitmap through the empty handle: its inner loop does not run, and it
    goes on to page 2. *)
Lemma next_at_last_slot_skips_empty_handle :
  ¬ (∀ (fh : RmFileHandle MemDisk) (sc : RmScan),
       0 ≤ rid_page_no (rid_ sc) < num_pages (file_hdr_ fh) →
       (fetch_page (mkPageId (fd_ fh) (rid_page_no (rid_ sc)))
          (buffer_pool_manager_ fh)).1 = None →
       Scan.next sc fh = Fault NullHandle).
Proof.
  intros Hall.
  specialize (Hall Examples.tail_file (mkScan (mkRid 1 3))).
  assert (Scan.next (mkScan (mkRid 1 3)) Examples.tail_file ≠ Fault NullHandle)
    as Hne by (vm_compute; discriminate).
  apply Hne, Hall; [vm_compute; split; [discriminate|reflexivity]|vm_compute; reflexivity].
Qed.

(** C10, amended.  At a scan position on a page of the file that the pool
    cannot supply, [is_end] reads [page_hdr->num_records] through the empty
    handle, and so does [next] with the bitmap whenever the position is
    before the last slot of the page. *)
Theorem scan_reads_through_empty_handle {D} `{!DiskManager D}
    (fh : RmFileHandle D) (sc : RmScan) :
  0 ≤ rid_page_no (rid_ sc) < num_pages (file_hdr_ fh) →
  (fetch_page (mkPageId (fd_ fh) (rid_page_no (rid_ sc)))
     (buffer_pool_manager_ fh)).1 = None →
  Scan.is_end sc fh = Fault NullHandle ∧
  (slot_no (rid_ sc) < num_records_per_page (file_hdr_ fh) - 1 →
   Scan.next sc fh = Fault NullHandle).
Proof.
  intros Hrange Hfetch.
  assert (fetch_page_handle (rid_page_no (rid_ sc)) fh =
          (None, set_bpm (fetch_page (mkPageId (fd_ fh) (rid_page_no (rid_ sc)))
                            (buffer_pool_manager_ fh)).2 fh)) as Hh.
  { unfold fetch_page_handle. rewrite decide_False by lia.
    destruct (fetch_page _ _) as [r b]. simpl in Hfetch. by subst r. }
  split.
  - unfold Scan.is_end. rewrite decide_False by lia. by rewrite Hh.
  - intros Hslot. unfold Scan.next.
    destruct (Z.to_nat (num_pages (file_hdr_ fh) - rid_page_no (rid_ sc)))
      as [|k] eqn:Hk; [lia|].
    simpl. rewrite decide_True by lia. rewrite Hh. simpl.
    by rewrite decide_True by lia.
Qed.

Lemma scan_reads_through_empty_handle_witness :
  Scan.is_end (mkScan (mkRid 1 0)) Examples.tail_file = Fault NullHandle ∧
  (0 < num_records_per_page (file_hdr_ Examples.tail_file) - 1 →
   Scan.next (mkScan (mkRid 1 0)) Examples.tail_file = Fault NullHandle).
Proof.
  apply (scan_reads_through_empty_handle Examples.tail_file (mkScan (mkRid 1 0))).
  - vm_compute. split; [discriminate|reflexivity].
  - vm_compute. reflexivity.
Defined.

(** The empty handle is met by scanning alone: over a pool of one frame the
    scan of a file of two data pages keeps page 1 pinned and cannot get
    page 2. *)
Example scan_exhausts_small_pool :
  Scan.new Examples.scan_file_small = Done Examples.small_start ∧
  Scan.next Examples.small_start.1 Examples.small_start.2
    = Done Examples.small_second ∧
  Scan.rid Examples.small_second.1 = mkRid 1 2 ∧
  Scan.next Examples.small_second.1 Examples.small_second.2 = Fault NullHandle.
Proof. run_code. Qed.

(** ** The pool under the record layer: pages keep their bytes *)

Lemma PageId_eta (K : PageId) : mkPageId (fd K) (page_no K) = K.
Proof. by destruct K. Qed.

Section pool_pages.
Context {D : Type} `{!DiskManager D}.

Local Abbreviation BPM := (BufferPoolManager D).

Lemma frame_eq_lookup (s s' : BPM) f :
  pages_ s' !! f = pages_ s !! f → frame s' f = frame s f.
Proof. intros Hl. unfold frame. by rewrite !list_lookup_total_alt, Hl. Qed.

(** [new_page] when a victim is found and the disk hands out a page number. *)
Lemma new_page_some fdn (s : BPM) f s1 pg :
  find_victim_page s = (Some f, s1) →
  pages_ s !! f = Some pg →
  (allocate_page (disk_manager_ s) fdn).1 ≠ INVALID_PAGE_ID →
  let pid := mkPageId fdn (allocate_page (disk_manager_ s) fdn).1 in
  let d1 := (allocate_page (disk_manager_ s) fdn).2 in
  ∃ s', new_page fdn s = (Some (f, pid), s') ∧
    disk_manager_ s' =
      (if is_dirty_ pg
       then write_page d1 (fd (id_ pg)) (page_no (id_ pg)) (data_ pg)
       else d1) ∧
    pages_ s' !! f = Some (mkPage pid zero_data false 1) ∧
    (∀ f', f' ≠ f → pages_ s' !! f' = pages_ s !! f') ∧
    page_table_ s' = <[pid := f]> (delete (id_ pg) (page_table_ s)) ∧
    free_list_ s' = free_list_ s1.
Proof.
  intros Hv Hpg Hn pid d1. unfold new_page. rewrite Hv.
  assert (pages_ s1 = pages_ s ∧ page_table_ s1 = page_table_ s ∧
          disk_manager_ s1 = disk_manager_ s) as (Hp1 & Ht1 & Hd1).
  { unfold find_victim_page in Hv. destruct (free_list_ s).
    - destruct (LRU.victim (replacer_ s)). by injection Hv as _ <-.
    - by injection Hv as _ <-. }
  rewrite Hd1.
  destruct (allocate_page (disk_manager_ s) fdn) as [pno d] eqn:Ha.
  simpl in Hn, pid, d1. rewrite decide_False by done.
  eexists. split; [done|].
  assert (pages_ (set_disk d s1) !! f = Some pg) as Hpg1 by by rewrite <-Hp1 in Hpg.
  pose proof (update_page_frame f pid _ pg Hpg1) as Hf2.
  pose proof (update_page_disk f pid (set_disk d s1)) as Hd2.
  pose proof (update_page_table f pid (set_disk d s1)) as Ht2.
  pose proof (update_page_lists f pid (set_disk d s1)) as [Hfl2 _].
  rewrite (frame_lookup _ _ _ Hpg1) in Hd2, Ht2.
  cbn [disk_manager_ page_table_ set_disk] in Hd2, Ht2. rewrite Ht1 in Ht2.
  split; [exact Hd2|]. split; [|split; [|split]].
  - erewrite lookup_upd_frame_eq; [|cbn [pages_ set_replacer]; exact Hf2]. done.
  - intros f' Hne. rewrite lookup_upd_frame_ne by done.
    cbn [pages_ set_replacer]. rewrite update_page_other by done.
    cbn [pages_ set_disk]. by rewrite Hp1.
  - exact Ht2.
  - exact Hfl2.
Qed.

Context `{!DiskLaws D}.

(** A frame is rewritten in place, keeping its page id, while the replacer
    cannot hand it out or it is dirty, and no other frame comes to the
    replacer: only the page it holds is seen differently. *)
Lemma reframed_ok (s s' : BPM) f pg pg' :
  pool_ok s → bpm_inv s' →
  pages_ s !! f = Some pg → pages_ s' !! f = Some pg' →
  (∀ f', f' ≠ f → pages_ s' !! f' = pages_ s !! f') →
  page_table_ s' = page_table_ s → disk_manager_ s' = disk_manager_ s →
  id_ pg' = id_ pg →
  f ∉ LRUlist_ (replacer_ s') ∨ is_dirty_ pg' = true →
  (∀ g, g ≠ f → g ∈ LRUlist_ (replacer_ s') → g ∈ LRUlist_ (replacer_ s)) →
  pool_ok s' ∧
  (∀ fdn pno, page_view_at fdn s' pno =
     if decide (page_table_ s !! mkPageId fdn pno = Some f) then data_ pg'
     else page_view_at fdn s pno).
Proof.
  intros [Hinv Hown Hkeys Hclean] Hinv' Hpg Hpg' Hoth Ht Hd Hid Hbusy Hlist. split.
  - constructor; [done|..].
    + intros f' pg0 Hl. rewrite Ht. destruct (decide (f' = f)) as [->|Hne].
      * rewrite Hpg' in Hl. injection Hl as <-. rewrite Hid. by apply Hown.
      * rewrite Hoth in Hl by done. by apply Hown.
    + intros K f' HK. rewrite Ht in HK. by eapply Hkeys.
    + intros K f' pg0 HK Hl Hcl Hin. rewrite Ht in HK. rewrite Hd.
      destruct (decide (f' = f)) as [->|Hne].
      * rewrite Hpg' in Hl. injection Hl as <-.
        destruct Hbusy as [?|?]; [done|congruence].
      * rewrite Hoth in Hl by done. eapply Hclean; [done..|]. by apply Hlist.
  - intros fdn pno. unfold page_view_at. rewrite Ht, Hd.
    destruct (page_table_ s !! mkPageId fdn pno) as [g|] eqn:HK.
    + destruct (decide (Some g = Some f)) as [[= ->]|Hne].
      * by rewrite (frame_lookup _ _ _ Hpg').
      * f_equal. apply frame_eq_lookup, Hoth. congruence.
    + by rewrite decide_False.
Qed.

(** The frame [f], taken from the free list or from the replacer and
    holding [pg], is given the page [P] that was not resident: the page it
    held is written back if dirty and is seen as before, [P] is seen as the
    bytes [dat] put in the frame. *)
Lemma installed_ok (s s' : BPM) f P pg d0 dat :
  pool_ok s → bpm_inv s' →
  page_table_ s !! P = None → 0 ≤ page_no P →
  pages_ s !! f = Some pg →
  f ∈ free_list_ s ∨ f ∈ LRUlist_ (replacer_ s) →
  f ∉ LRUlist_ (replacer_ s') →
  (∀ g, g ∈ LRUlist_ (replacer_ s') → g ∈ LRUlist_ (replacer_ s)) →
  (∀ fdn pno, read_page d0 fdn pno = read_page (disk_manager_ s) fdn pno) →
  disk_manager_ s' =
    (if is_dirty_ pg
     then write_page d0 (fd (id_ pg)) (page_no (id_ pg)) (data_ pg)
     else d0) →
  pages_ s' !! f = Some (mkPage P dat false 1) →
  (∀ f', f' ≠ f → pages_ s' !! f' = pages_ s !! f') →
  page_table_ s' = <[P := f]> (delete (id_ pg) (page_table_ s)) →
  pool_ok s' ∧
  (∀ fdn pno, 0 ≤ pno → mkPageId fdn pno ≠ P →
     page_view_at fdn s' pno = page_view_at fdn s pno) ∧
  page_view_at (fd P) s' (page_no P) = dat ∧
  read_page (disk_manager_ s') (fd P) (page_no P)
    = read_page (disk_manager_ s) (fd P) (page_no P).
Proof.
  intros [Hinv Hown Hkeys Hclean] Hinv' HP HPnn Hpg Hfrom Hnl Hlist Hd0 Hd' Hf' Hoth Ht'.
  remember (id_ pg) as K0 eqn:HeqK0.
  pose proof (Hown f pg Hpg) as Hownf. rewrite <-HeqK0 in Hownf.
  assert (K0 ≠ P) as HK0P.
  { intros HK. destruct Hownf as [Ho|Ho].
    - rewrite HK, HP in Ho. done.
    - rewrite HK in Ho. lia. }
  assert (∀ K, K ≠ K0 →
            read_page (disk_manager_ s') (fd K) (page_no K)
            = read_page (disk_manager_ s) (fd K) (page_no K)) as Hread.
  { intros K HK. rewrite Hd'. destruct (is_dirty_ pg); [|apply Hd0].
    rewrite read_write_ne; [apply Hd0|]. rewrite !PageId_eta. done. }
  assert (∀ K g, K ≠ P → page_table_ s' !! K = Some g →
            K ≠ K0 ∧ page_table_ s !! K = Some g ∧ g ≠ f) as Hold.
  { intros K g HKP HK. rewrite Ht', lookup_insert_ne in HK by done.
    apply lookup_delete_Some in HK as [HK0 HK]. split; [done|]. split; [done|].
    intros ->. destruct (inv_table_id _ Hinv K f HK) as (pg0 & Hl & Hid).
    rewrite Hpg in Hl. injection Hl as <-. congruence. }
  split; [|split; [|split]].
  - constructor; [done|..].
    + intros f' pg0 Hl. destruct (decide (f' = f)) as [->|Hne].
      * rewrite Hf' in Hl. injection Hl as <-. left. simpl.
        by rewrite Ht', lookup_insert_eq.
      * rewrite Hoth in Hl by done.
        destruct (Hown f' pg0 Hl) as [Ho|Ho]; [left|by right].
        rewrite Ht'. rewrite lookup_insert_ne by congruence.
        rewrite lookup_delete_ne; [done|]. intros HK.
        destruct Hownf as [Ho'|Ho'].
        -- rewrite HK in Ho'. congruence.
        -- apply Hkeys in Ho. rewrite <-HK in Ho. lia.
    + intros K g HK. destruct (decide (K = P)) as [->|HKP]; [done|].
      destruct (Hold K g HKP HK) as (_ & HK' & _). by eapply Hkeys.
    + intros K g pg0 HK Hl Hcl Hin. destruct (decide (K = P)) as [->|HKP].
      * rewrite Ht', lookup_insert_eq in HK. by injection HK as <-.
      * destruct (Hold K g HKP HK) as (HK0 & HK' & Hgf).
        rewrite Hoth in Hl by done. rewrite Hread by done.
        eapply Hclean; [done..|]. by apply Hlist.
  - intros fdn pno Hpno HKP. unfold page_view_at.
    destruct (decide (mkPageId fdn pno = K0)) as [HK|HK].
    + rewrite Ht', lookup_insert_ne, HK, lookup_delete_eq by congruence.
      destruct Hownf as [Ho|Ho]; [|rewrite <-HK in Ho; simpl in Ho; lia].
      rewrite Ho, (frame_lookup _ _ _ Hpg), Hd'.
      assert (f ∈ LRUlist_ (replacer_ s)) as Hin.
      { destruct Hfrom as [Hfree|?]; [|done].
        by destruct (inv_free_table _ Hinv K0 f Ho). }
      pose proof (Hclean K0 f pg Ho Hpg) as Hcl. rewrite <-HK in Hcl. simpl in Hcl.
      destruct (is_dirty_ pg) eqn:Hdirty.
      * rewrite <-HK. simpl. apply read_write_eq.
      * rewrite Hd0. symmetry. by apply Hcl.
    + rewrite Ht', lookup_insert_ne, lookup_delete_ne by congruence.
      destruct (page_table_ s !! mkPageId fdn pno) as [g|] eqn:HKg.
      * f_equal. apply frame_eq_lookup, Hoth. intros ->.
        destruct (inv_table_id _ Hinv _ f HKg) as (pg0 & Hl & Hid).
        rewrite Hpg in Hl. injection Hl as <-. congruence.
      * exact (Hread (mkPageId fdn pno) HK).
  - unfold page_view_at. rewrite PageId_eta, Ht', lookup_insert_eq.
    by rewrite (frame_lookup _ _ _ Hf').
  - apply Hread. congruence.
Qed.

(** [fetch_page] under the record layer: whatever it evicts, every page is
    seen as before; a returned frame holds the page and is not with the
    replacer. *)
Lemma fetch_page_Some P (s : BPM) f :
  bpm_inv s → (fetch_page P s).1 = Some f →
  page_table_ (fetch_page P s).2 !! P = Some f ∧
  ∃ pg, pages_ (fetch_page P s).2 !! f = Some pg ∧ id_ pg = P ∧
        f ∉ LRUlist_ (replacer_ (fetch_page P s).2).
Proof.
  intros Hinv Hf. pose proof (fetch_page_not_listed P s f Hinv Hf) as Hnl.
  revert Hf Hnl. destruct (page_table_ s !! P) as [g|] eqn:HP.
  - destruct (inv_table_id _ Hinv P g HP) as (pg & Hpg & Hid).
    destruct (fetch_page_hit P s g pg HP Hpg) as (s' & -> & Hp' & Ht' & _).
    simpl. intros [= ->] Hnl. rewrite Ht'. split; [done|].
    exists (set_pin_count (wrap_int (pin_count_ pg + 1)) pg). rewrite Hp'.
    rewrite list_lookup_insert_eq by by eapply lookup_lt_Some.
    done.
  - destruct (find_victim_page s) as [[g|] s1] eqn:Hv.
    + destruct (find_victim_page_Some s g s1 Hinv Hv) as ((pg & Hpg & Hz) & _).
      destruct (fetch_page_miss P s g s1 pg HP Hv Hpg Hz)
        as (s' & -> & _ & Hf' & _ & Ht' & _).
      simpl. intros [= ->] Hnl. rewrite Ht', lookup_insert_eq. split; [done|].
      eexists. split; [exact Hf'|]. done.
    + unfold fetch_page. rewrite HP, Hv. done.
Qed.

Lemma fetch_page_ok P (s : BPM) :
  pool_ok s → 0 ≤ page_no P →
  pool_ok (fetch_page P s).2 ∧
  (∀ fdn pno, 0 ≤ pno →
     page_view_at fdn (fetch_page P s).2 pno = page_view_at fdn s pno) ∧
  (∀ fdn, (allocate_page (disk_manager_ (fetch_page P s).2) fdn).1
          = (allocate_page (disk_manager_ s) fdn).1) ∧
  (∀ K g, page_table_ (fetch_page P s).2 !! K = Some g →
          K = P ∨ page_table_ s !! K = Some g).
Proof.
  intros Hok HPnn. pose proof (ok_inv _ Hok) as Hinv.
  pose proof (fetch_page_inv P s Hinv) as Hinv'.
  destruct (page_table_ s !! P) as [f|] eqn:HP.
  - destruct (inv_table_id _ Hinv P f HP) as (pg & Hpg & Hid).
    destruct (fetch_page_hit P s f pg HP Hpg) as (s' & Hs' & Hp' & Ht' & _ & Hd').
    rewrite Hs' in Hinv' |- *. simpl in Hinv' |- *.
    assert (f < length (pages_ s))%nat as Hlt by by eapply lookup_lt_Some.
    assert ((fetch_page P s).1 = Some f) as Hret by by rewrite Hs'.
    pose proof (fetch_page_not_listed P s f Hinv Hret) as Hnl.
    pose proof (fetch_page_list P s) as Hlist.
    rewrite Hs' in Hnl, Hlist. simpl in Hnl, Hlist.
    destruct (reframed_ok s s' f pg (set_pin_count (wrap_int (pin_count_ pg + 1)) pg))
      as [Hok' Hview]; try done.
    { rewrite Hp'. by apply list_lookup_insert_eq. }
    { intros f' Hne. rewrite Hp'. by apply list_lookup_insert_ne. }
    { by left. }
    { intros g _. apply Hlist. }
    split; [done|]. split; [|split].
    + intros fdn pno _. rewrite Hview. case_decide as HK; [|done].
      unfold page_view_at. by rewrite HK, (frame_lookup _ _ _ Hpg).
    + intros fdn. by rewrite Hd'.
    + intros K g HK. right. by rewrite <-Ht'.
  - destruct (find_victim_page s) as [[f|] s1] eqn:Hv.
    + destruct (find_victim_page_Some s f s1 Hinv Hv) as ((pg & Hpg & Hz) & _).
      destruct (fetch_page_miss P s f s1 pg HP Hv Hpg Hz)
        as (s' & Hs' & Hd' & Hf' & Hoth & Ht' & _).
      assert ((fetch_page P s).1 = Some f) as Hret by by rewrite Hs'.
      pose proof (fetch_page_not_listed P s f Hinv Hret) as Hnl.
      pose proof (fetch_page_list P s) as Hlist.
      pose proof (find_victim_page_from s f s1 Hv) as Hfrom.
      rewrite Hs' in Hnl, Hlist.
      rewrite Hs' in Hinv' |- *. simpl in Hinv', Hnl, Hlist |- *.
      destruct (installed_ok s s' f P pg (disk_manager_ s)
                  (read_page (disk_manager_ s') (fd P) (page_no P)))
        as (Hok' & Hview & HviewP & HreadP); try done.
      split; [done|]. split; [|split].
      * intros fdn pno Hpno. destruct (decide (mkPageId fdn pno = P)) as [<-|HK].
        -- simpl in HviewP, HreadP. rewrite HviewP, HreadP.
           unfold page_view_at. by rewrite HP.
        -- by apply Hview.
      * intros fdn. rewrite Hd'. destruct (is_dirty_ pg); [|done].
        apply allocate_write.
      * intros K g HK. rewrite Ht' in HK.
        apply lookup_insert_Some in HK as [[-> _]|[_ HK]]; [by left|right].
        by apply lookup_delete_Some in HK as [_ HK].
    + assert (fetch_page P s = (None, s)) as ->.
      { unfold fetch_page. rewrite HP, Hv.
        by apply find_victim_page_None in Hv as ->. }
      simpl. auto.
Qed.

(** [new_page] under the record layer, for a file whose next page number
    [n] is not yet a page of the pool: the new page is seen as zeros, every
    other page as before, and the disk will hand out [n + 1] next. *)
Lemma new_page_ok fdn (s : BPM) n :
  pool_ok s → 0 ≤ n → (allocate_page (disk_manager_ s) fdn).1 = n →
  page_table_ s !! mkPageId fdn n = None →
  match new_page fdn s with
  | (Some (f, pid), s') =>
      pid = mkPageId fdn n ∧ pool_ok s' ∧
      (∀ fdn' pno, 0 ≤ pno → mkPageId fdn' pno ≠ pid →
         page_view_at fdn' s' pno = page_view_at fdn' s pno) ∧
      pages_ s' !! f = Some (mkPage pid zero_data false 1) ∧
      page_table_ s' !! pid = Some f ∧
      (allocate_page (disk_manager_ s') fdn).1 = n + 1 ∧
      (∀ K g, page_table_ s' !! K = Some g → K = pid ∨ page_table_ s !! K = Some g)
  | (None, s') => s' = s
  end.
Proof.
  intros Hok Hn Ha HP. pose proof (ok_inv _ Hok) as Hinv.
  pose proof (new_page_inv fdn s Hinv) as Hinv'.
  destruct (find_victim_page s) as [[f|] s1] eqn:Hv.
  - destruct (find_victim_page_Some s f s1 Hinv Hv) as ((pg & Hpg & Hz) & _).
    assert ((allocate_page (disk_manager_ s) fdn).1 ≠ INVALID_PAGE_ID) as Hvalid
      by (rewrite Ha; unfold INVALID_PAGE_ID; lia).
    destruct (new_page_some fdn s f s1 pg Hv Hpg Hvalid)
      as (s' & Hs' & Hd' & Hf' & Hoth & Ht' & _).
    rewrite Ha in Hs', Hf', Ht'.
    pose proof (new_page_not_listed fdn s f _ s' Hinv Hs') as Hnl.
    pose proof (new_page_list fdn s) as Hlist.
    pose proof (find_victim_page_from s f s1 Hv) as Hfrom.
    rewrite Hs' in Hlist. simpl in Hlist.
    rewrite Hs' in Hinv' |- *. simpl in Hinv'.
    destruct (installed_ok s s' f (mkPageId fdn n) pg
                (allocate_page (disk_manager_ s) fdn).2 zero_data)
      as (Hok' & Hview & _ & _); try done.
    { intros fdn' pno. apply read_allocate. }
    split; [done|]. split; [done|]. split; [done|]. split; [done|].
    split; [by rewrite Ht', lookup_insert_eq|]. split.
    + rewrite Hd'. destruct (is_dirty_ pg).
      * rewrite allocate_write, allocate_next by done. by rewrite Ha.
      * rewrite allocate_next by done. by rewrite Ha.
    + intros K g HK. rewrite Ht' in HK.
      apply lookup_insert_Some in HK as [[<- _]|[_ HK]]; [by left|right].
      by apply lookup_delete_Some in HK as [_ HK].
  - unfold new_page. rewrite Hv. by apply find_victim_page_None in Hv as ->.
Qed.

(** [unpin_page] with [is_dirty = true] on a pinned page. *)
Lemma unpin_page_true_ok P (s : BPM) f pg :
  pool_ok s →
  page_table_ s !! P = Some f → pages_ s !! f = Some pg → 0 < pin_count_ pg →
  let s' := (unpin_page P true s).2 in
  pool_ok s' ∧
  (∀ fdn pno, page_view_at fdn s' pno = page_view_at fdn s pno) ∧
  page_table_ s' = page_table_ s ∧ disk_manager_ s' = disk_manager_ s ∧
  pages_ s' !! f = Some (mkPage (id_ pg) (data_ pg) true (pin_count_ pg - 1)) ∧
  (∀ f', f' ≠ f → pages_ s' !! f' = pages_ s !! f').
Proof.
  intros Hok HP Hpg Hpos. pose proof (ok_inv _ Hok) as Hinv.
  pose proof (unpin_page_inv P true s Hinv) as Hinv'.
  destruct (unpin_page_ok P true s f pg HP Hpg Hpos) as (s' & Hs' & Hp' & Ht' & _ & Hd').
  rewrite Hs' in Hinv' |- *. simpl in Hinv' |- *.
  assert (f < length (pages_ s))%nat as Hlt by by eapply lookup_lt_Some.
  assert (pages_ s' !! f = Some (mkPage (id_ pg) (data_ pg) true (pin_count_ pg - 1)))
    as Hf' by (rewrite Hp'; by apply list_lookup_insert_eq).
  assert (∀ f', f' ≠ f → pages_ s' !! f' = pages_ s !! f') as Hoth
    by (intros f' Hne; rewrite Hp'; by apply list_lookup_insert_ne).
  pose proof (unpin_page_list P true s) as Hlist.
  rewrite Hs' in Hlist. simpl in Hlist.
  destruct (reframed_ok s s' f pg _ Hok Hinv' Hpg Hf' Hoth Ht' Hd')
    as [Hok' Hview]; [done|by right| |].
  { intros g Hne Hg. destruct (Hlist g Hg) as [Hg'|Hg']; [congruence|done]. }
  split; [done|]. split; [|done].
  intros fdn pno. rewrite Hview. case_decide as HK; [|done].
  unfold page_view_at. by rewrite HK, (frame_lookup _ _ _ Hpg).
Qed.

End pool_pages.

(** ** Bits and bytes of a page *)

Lemma first_unset_spec bm k s :
  s ≤ first_unset bm s k ≤ s + Z.of_nat k ∧
  (first_unset bm s k < s + Z.of_nat k → bm (first_unset bm s k) = false).
Proof.
  revert s. induction k as [|k IH]; intros s; simpl; [lia|].
  unfold Bitmap.is_set. destruct (bm s) eqn:Hs.
  - destruct (IH (s + 1)) as [Hr Hf]. split; [lia|]. intros Hlt. apply Hf. lia.
  - split; [lia|done].
Qed.

Lemma filter_length_change (bm bm' : Z → bool) pos (l : list Z) :
  (∀ i, i ≠ pos → bm' i = bm i) → NoDup l →
  Z.of_nat (length (filter (λ i, bm' i = true) l))
  = Z.of_nat (length (filter (λ i, bm i = true) l))
    + (if decide (pos ∈ l)
       then (if bm' pos then 1 else 0) - (if bm pos then 1 else 0)
       else 0).
Proof.
  intros Hoth Hnd. induction Hnd as [|x l Hx Hnd IH].
  { rewrite decide_False by apply not_elem_of_nil. simpl. lia. }
  rewrite !filter_cons. destruct (decide (x = pos)) as [->|Hne].
  - rewrite decide_False in IH by done.
    rewrite (decide_True (P := pos ∈ pos :: l)) by left.
    destruct (bm' pos), (bm pos); simpl;
      repeat (rewrite decide_True by done || rewrite decide_False by done);
      simpl; lia.
  - rewrite (Hoth x Hne).
    assert ((if decide (pos ∈ x :: l)
             then (if bm' pos then 1 else 0) - (if bm pos then 1 else 0) else 0)
            = (if decide (pos ∈ l)
               then (if bm' pos then 1 else 0) - (if bm pos then 1 else 0) else 0))
      as ->.
    { destruct (decide (pos ∈ l)) as [Hin|Hin].
      - rewrite decide_True; [done|by right].
      - rewrite decide_False; [done|]. rewrite elem_of_cons. intros [?|?]; congruence. }
    destruct (decide (bm x = true)); simpl; lia.
Qed.

Lemma count_set_set bm pos n :
  0 ≤ pos < n → bm pos = false →
  count_set (Bitmap.set bm pos) n = count_set bm n + 1.
Proof.
  intros Hpos Hbit. unfold count_set.
  rewrite (filter_length_change bm (Bitmap.set bm pos) pos).
  - rewrite decide_True by (apply elem_of_seqZ; lia).
    unfold Bitmap.set. rewrite decide_True, Hbit by done. lia.
  - intros i Hi. unfold Bitmap.set. by rewrite decide_False.
  - apply NoDup_seqZ.
Qed.

Lemma count_set_reset bm pos n :
  0 ≤ pos < n → bm pos = true →
  count_set (Bitmap.reset bm pos) n = count_set bm n - 1.
Proof.
  intros Hpos Hbit. unfold count_set.
  rewrite (filter_length_change bm (Bitmap.reset bm pos) pos).
  - rewrite decide_True by (apply elem_of_seqZ; lia).
    unfold Bitmap.reset. rewrite decide_True, Hbit by done. lia.
  - intros i Hi. unfold Bitmap.reset. by rewrite decide_False.
  - apply NoDup_seqZ.
Qed.

Lemma count_set_zero n : count_set (λ _, false) n = 0.
Proof.
  unfold count_set. induction (seqZ 0 n) as [|x l IH]; [done|].
  rewrite filter_cons. by rewrite decide_False.
Qed.

(** What [memcpy] put in a slot is what [memcpy] reads back from it. *)
Lemma memcpy_from_to off (buf : list byte) sl :
  memcpy_from off (Z.of_nat (length buf))
    (memcpy_to off buf (Z.of_nat (length buf)) sl) = buf.
Proof.
  unfold memcpy_from, memcpy_to. apply list_eq. intros i.
  rewrite list_lookup_fmap.
  destruct (decide (i < length buf)%nat) as [Hlt|Hge].
  - rewrite lookup_seqZ_lt by lia. simpl.
    rewrite decide_True by lia.
    replace (Z.to_nat (off + (0 + Z.of_nat i) - off)) with i by lia.
    destruct (lookup_lt_is_Some_2 buf i Hlt) as [b Hb]. by rewrite Hb.
  - rewrite lookup_seqZ_ge by lia. simpl. symmetry. apply lookup_ge_None. lia.
Qed.

(** ** Steps of the record layer on one frame *)

Section record_steps.
Context {D : Type} `{!DiskManager D}.

Local Abbreviation BPM := (BufferPoolManager D).
Local Abbreviation FH := (RmFileHandle D).

Lemma reframed_upd (s : BPM) f g pg :
  pages_ s !! f = Some pg → reframed s (upd_frame f g s) f (g pg).
Proof.
  intros Hpg. split; [by apply lookup_upd_frame_eq|].
  split; [|done]. intros f' Hne. by apply lookup_upd_frame_ne.
Qed.

Lemma reframed_trans (s s1 s2 : BPM) f pg1 pg2 :
  reframed s s1 f pg1 → reframed s1 s2 f pg2 → reframed s s2 f pg2.
Proof.
  intros (H1 & Ho1 & Ht1 & Hd1) (H2 & Ho2 & Ht2 & Hd2).
  split; [done|]. split; [|split; congruence].
  intros f' Hne. rewrite Ho2, Ho1 by done. done.
Qed.

Lemma reframed_unpin P d (s : BPM) f pg :
  page_table_ s !! P = Some f → pages_ s !! f = Some pg → 0 < pin_count_ pg →
  reframed s (unpin_page P d s).2 f
    (mkPage (id_ pg) (data_ pg) d (pin_count_ pg - 1)).
Proof.
  intros HP Hpg Hpos.
  destruct (unpin_page_ok P d s f pg HP Hpg Hpos) as (s' & -> & Hp' & Ht' & _ & Hd').
  simpl. assert (f < length (pages_ s))%nat by by eapply lookup_lt_Some.
  split; [rewrite Hp'; by apply list_lookup_insert_eq|].
  split; [|done]. intros f' Hne. rewrite Hp'. by apply list_lookup_insert_ne.
Qed.

Lemma after_unpin_data d (pg : Page) : data_ (after_unpin d pg) = data_ pg.
Proof. unfold after_unpin. by destruct (decide _). Qed.

Lemma after_unpin_id d (pg : Page) : id_ (after_unpin d pg) = id_ pg.
Proof. unfold after_unpin. by destruct (decide _). Qed.

Lemma after_unpin_pinned d (pg : Page) :
  0 < pin_count_ pg →
  after_unpin d pg = mkPage (id_ pg) (data_ pg) d (pin_count_ pg - 1).
Proof. intros Hpos. unfold after_unpin. rewrite decide_False by lia. done. Qed.

(** [unpin_page] on a resident page, whether it succeeds or not. *)
Lemma reframed_unpin_any P d (s : BPM) f pg :
  page_table_ s !! P = Some f → pages_ s !! f = Some pg →
  reframed s (unpin_page P d s).2 f (after_unpin d pg).
Proof.
  intros HP Hpg. destruct (decide (0 < pin_count_ pg)) as [Hpos|Hnpos].
  - rewrite after_unpin_pinned by done. by apply reframed_unpin.
  - unfold after_unpin, unpin_page. rewrite HP, (frame_lookup _ _ _ Hpg).
    rewrite !decide_True by lia. simpl. by split.
Qed.

(** After [unpin_page] with [is_dirty = true] of a page whose frame was not
    with the replacer, the frame is still not with it, or it is dirty. *)
Lemma unpin_page_busy P (s : BPM) f pg :
  page_table_ s !! P = Some f → pages_ s !! f = Some pg →
  f ∉ LRUlist_ (replacer_ s) →
  f ∉ LRUlist_ (replacer_ (unpin_page P true s).2) ∨
  is_dirty_ (after_unpin true pg) = true.
Proof.
  intros HP Hpg Hnl. unfold after_unpin, unpin_page.
  rewrite HP, (frame_lookup _ _ _ Hpg).
  destruct (decide (pin_count_ pg ≤ 0)); [by left|by right].
Qed.

(** The frames that [unpin_page] of the page in [f] leaves with the
    replacer, [f] apart, were with it before. *)
Lemma unpin_page_list_other P d (s : BPM) f g :
  page_table_ s !! P = Some f → g ≠ f →
  g ∈ LRUlist_ (replacer_ (unpin_page P d s).2) → g ∈ LRUlist_ (replacer_ s).
Proof.
  intros HP Hne Hg. destruct (unpin_page_list P d s g Hg) as [Hg'|Hg']; [congruence|done].
Qed.

(** The end of a mutator of the record layer: the frame [f], fetched into
    [s1] and rewritten up to [b], is unpinned with [is_dirty = true]. *)
Lemma unpin_closing (s1 b s' : BPM) P f pg :
  reframed s1 b f pg → replacer_ b = replacer_ s1 →
  page_table_ s1 !! P = Some f → f ∉ LRUlist_ (replacer_ s1) →
  replacer_ s' = replacer_ (unpin_page P true b).2 →
  (f ∉ LRUlist_ (replacer_ s') ∨ is_dirty_ (after_unpin true pg) = true) ∧
  (∀ g, g ≠ f → g ∈ LRUlist_ (replacer_ s') → g ∈ LRUlist_ (replacer_ s1)).
Proof.
  intros (Hpg & _ & Ht & _) Hrep HP Hnl ->. rewrite <-Ht in HP. rewrite <-Hrep in *.
  split; [by apply unpin_page_busy|].
  intros g Hne. by apply (unpin_page_list_other P true b f g).
Qed.

Lemma page_of_lookup (fh : FH) f pg :
  pages_ (buffer_pool_manager_ fh) !! f = Some pg → page_of fh f = pg.
Proof. apply frame_lookup. Qed.

Lemma upd_data_reframed (fh : FH) f g pg :
  pages_ (buffer_pool_manager_ fh) !! f = Some pg →
  reframed (buffer_pool_manager_ fh) (buffer_pool_manager_ (upd_data f g fh)) f
    (set_data (g (data_ pg)) pg).
Proof. intros Hpg. by apply (reframed_upd _ f (λ p, set_data (g (data_ p)) p)). Qed.

Lemma upd_data_inv (fh : FH) f g :
  bpm_inv (buffer_pool_manager_ fh) →
  bpm_inv (buffer_pool_manager_ (upd_data f g fh)).
Proof. intros Hinv. by apply upd_frame_inv_same. Qed.

(** [insert_record] once [create_page_handle] has returned the frame [f]
    holding [pg], whether the final [unpin_page] succeeds or not. *)
Lemma insert_record_steps buf (fh : FH) f fh1 pg :
  create_page_handle fh = (Some f, fh1) →
  bpm_inv (buffer_pool_manager_ fh1) →
  pages_ (buffer_pool_manager_ fh1) !! f = Some pg →
  page_table_ (buffer_pool_manager_ fh1) !! id_ pg = Some f →
  let h := file_hdr_ fh1 in
  let slot := first_unset (bitmap (data_ pg)) 0 (Z.to_nat (num_records_per_page h)) in
  slot ≠ num_records_per_page h →
  ∃ fh', insert_record buf fh = Done (mkRid (page_no (id_ pg)) slot, fh') ∧
    fd_ fh' = fd_ fh1 ∧
    num_pages (file_hdr_ fh') = num_pages h ∧
    num_records_per_page (file_hdr_ fh') = num_records_per_page h ∧
    record_size (file_hdr_ fh') = record_size h ∧
    first_free_page_no (file_hdr_ fh') =
      (if decide (num_records (page_hdr (data_ pg)) + 1 = num_records_per_page h)
       then next_free_page_no (page_hdr (data_ pg))
       else first_free_page_no h) ∧
    bpm_inv (buffer_pool_manager_ fh') ∧
    (∃ b4, buffer_pool_manager_ fh' = (unpin_page (id_ pg) true b4).2 ∧
           bpm_inv b4 ∧
           reframed (buffer_pool_manager_ fh1) b4 f
             (mkPage (id_ pg) (inserted_data h slot buf (data_ pg))
                     (is_dirty_ pg) (pin_count_ pg)) ∧
           replacer_ b4 = replacer_ (buffer_pool_manager_ fh1) ∧
           free_list_ b4 = free_list_ (buffer_pool_manager_ fh1)) ∧
    reframed (buffer_pool_manager_ fh1) (buffer_pool_manager_ fh') f
      (after_unpin true
         (mkPage (id_ pg) (inserted_data h slot buf (data_ pg))
                 (is_dirty_ pg) (pin_count_ pg))).
Proof.
  intros Hc Hinv Hpg HP h slot Hslot.
  unfold insert_record. rewrite Hc. fold h.
  rewrite (page_of_lookup fh1 f pg Hpg). fold slot.
  rewrite decide_False by done.
  set (fh2 := upd_data f _ fh1).
  set (fh3 := upd_data f _ fh2).
  set (fh4 := upd_data f _ fh3).
  set (pg4 := mkPage (id_ pg) (inserted_data h slot buf (data_ pg))
                (is_dirty_ pg) (pin_count_ pg)).
  assert (reframed (buffer_pool_manager_ fh1) (buffer_pool_manager_ fh4) f pg4)
    as H14.
  { pose proof (upd_data_reframed fh1 f _ pg Hpg : reframed _ (buffer_pool_manager_ fh2) _ _) as H2.
    pose proof (upd_data_reframed fh2 f _ _ (proj1 H2)
                : reframed _ (buffer_pool_manager_ fh3) _ _) as H3.
    pose proof (upd_data_reframed fh3 f _ _ (proj1 H3)
                : reframed _ (buffer_pool_manager_ fh4) _ _) as H4.
    exact (reframed_trans _ _ _ _ _ _ (reframed_trans _ _ _ _ _ _ H2 H3) H4). }
  assert (bpm_inv (buffer_pool_manager_ fh4)) as Hinv4
    by (repeat apply upd_data_inv; done).
  set (fh5 := if decide _ then _ else fh4).
  assert (buffer_pool_manager_ fh5 = buffer_pool_manager_ fh4 ∧
          fd_ fh5 = fd_ fh1 ∧
          num_pages (file_hdr_ fh5) = num_pages h ∧
          num_records_per_page (file_hdr_ fh5) = num_records_per_page h ∧
          record_size (file_hdr_ fh5) = record_size h ∧
          first_free_page_no (file_hdr_ fh5) =
            (if decide (num_records (page_hdr (data_ pg)) + 1 = num_records_per_page h)
             then next_free_page_no (page_hdr (data_ pg))
             else first_free_page_no h))
    as (Hb5 & Hfd5 & Hnp5 & Hrp5 & Hrs5 & Hff5).
  { unfold fh5. rewrite (page_of_lookup fh4 f pg4 (proj1 H14)). cbn [data_ pg4].
    cbn [inserted_data page_hdr num_records next_free_page_no].
    destruct (decide (num_records (page_hdr (data_ pg)) + 1 = num_records_per_page h));
      repeat split; reflexivity. }
  pose proof H14 as (Hpg4 & Hoth4 & Ht4 & Hd4).
  assert (page_of fh5 f = pg4) as Hof5.
  { apply page_of_lookup. by rewrite Hb5. }
  unfold unpin_handle. rewrite Hof5. cbn [id_ pg4].
  pose proof (reframed_unpin_any (id_ pg) true (buffer_pool_manager_ fh5) f pg4) as H6.
  rewrite Hb5 in H6 |- *. rewrite Ht4 in H6. specialize (H6 HP Hpg4).
  pose proof (unpin_page_inv (id_ pg) true _ Hinv4) as Hinv6.
  set (b6 := (unpin_page (id_ pg) true (buffer_pool_manager_ fh4)).2) in *.
  eexists. split.
  - f_equal. f_equal. f_equal. f_equal.
    erewrite (page_of_lookup (set_bpm b6 fh5)); [|apply H6].
    by rewrite after_unpin_id.
  - cbn [fd_ file_hdr_ buffer_pool_manager_ set_bpm].
    split; [done|]. split; [done|]. split; [done|]. split; [done|].
    split; [done|]. split; [done|].
    split; [by exists (buffer_pool_manager_ fh4)|].
    eapply reframed_trans; [|exact H6]. by split.
Qed.

(** The same when the frame is pinned: the final [unpin_page] succeeds. *)
Lemma insert_record_done buf (fh : FH) f fh1 pg :
  create_page_handle fh = (Some f, fh1) →
  bpm_inv (buffer_pool_manager_ fh1) →
  pages_ (buffer_pool_manager_ fh1) !! f = Some pg →
  page_table_ (buffer_pool_manager_ fh1) !! id_ pg = Some f →
  0 < pin_count_ pg →
  let h := file_hdr_ fh1 in
  let slot := first_unset (bitmap (data_ pg)) 0 (Z.to_nat (num_records_per_page h)) in
  slot ≠ num_records_per_page h →
  ∃ fh', insert_record buf fh = Done (mkRid (page_no (id_ pg)) slot, fh') ∧
    fd_ fh' = fd_ fh1 ∧
    num_pages (file_hdr_ fh') = num_pages h ∧
    num_records_per_page (file_hdr_ fh') = num_records_per_page h ∧
    record_size (file_hdr_ fh') = record_size h ∧
    first_free_page_no (file_hdr_ fh') =
      (if decide (num_records (page_hdr (data_ pg)) + 1 = num_records_per_page h)
       then next_free_page_no (page_hdr (data_ pg))
       else first_free_page_no h) ∧
    bpm_inv (buffer_pool_manager_ fh') ∧
    (∃ b4, buffer_pool_manager_ fh' = (unpin_page (id_ pg) true b4).2 ∧
           bpm_inv b4 ∧
           reframed (buffer_pool_manager_ fh1) b4 f
             (mkPage (id_ pg) (inserted_data h slot buf (data_ pg))
                     (is_dirty_ pg) (pin_count_ pg)) ∧
           replacer_ b4 = replacer_ (buffer_pool_manager_ fh1) ∧
           free_list_ b4 = free_list_ (buffer_pool_manager_ fh1)) ∧
    reframed (buffer_pool_manager_ fh1) (buffer_pool_manager_ fh') f
      (mkPage (id_ pg) (inserted_data h slot buf (data_ pg)) true
              (pin_count_ pg - 1)).
Proof.
  intros Hc Hinv Hpg HP Hpos h slot Hslot.
  destruct (insert_record_steps buf fh f fh1 pg Hc Hinv Hpg HP Hslot)
    as (fh' & Hins & Hfd & Hnp & Hrp & Hrs & Hff & Hinv' & Hb4 & Hre).
  rewrite after_unpin_pinned in Hre by done.
  exists fh'. done.
Qed.

Lemma insert_record_full buf (fh : FH) f fh1 :
  create_page_handle fh = (Some f, fh1) →
  first_unset (bitmap (data_ (page_of fh1 f))) 0
    (Z.to_nat (num_records_per_page (file_hdr_ fh1)))
  = num_records_per_page (file_hdr_ fh1) →
  insert_record buf fh = Done (mkRid (-1) (-1), fh1).
Proof.
  intros Hc Hfull. unfold insert_record. rewrite Hc.
  by rewrite decide_True.
Qed.

Lemma insert_record_none buf (fh : FH) fh1 :
  create_page_handle fh = (None, fh1) →
  insert_record buf fh = Fault NullHandle ∨
  insert_record buf fh = Done (mkRid (-1) (-1), fh1).
Proof.
  intros Hc. unfold insert_record. rewrite Hc.
  destruct (decide _); [by left|]. destruct (decide _); [by right|by left].
Qed.

(** [new_page] read backwards from its result. *)
Lemma new_page_Some_inv fdn (s : BPM) f pid s' :
  bpm_inv s → new_page fdn s = (Some (f, pid), s') →
  pid = mkPageId fdn (allocate_page (disk_manager_ s) fdn).1 ∧
  (allocate_page (disk_manager_ s) fdn).1 ≠ INVALID_PAGE_ID ∧
  pages_ s' !! f = Some (mkPage pid zero_data false 1) ∧
  page_table_ s' !! pid = Some f.
Proof.
  intros Hinv Hn.
  destruct (find_victim_page s) as [[g|] s1] eqn:Hv.
  - destruct (find_victim_page_Some s g s1 Hinv Hv) as ((pg & Hpg & _) & _).
    destruct (decide ((allocate_page (disk_manager_ s) fdn).1 = INVALID_PAGE_ID))
      as [Hbad|Hgood].
    + exfalso. unfold new_page in Hn. rewrite Hv in Hn.
      assert (disk_manager_ s1 = disk_manager_ s) as Hd1.
      { unfold find_victim_page in Hv. destruct (free_list_ s).
        - destruct (LRU.victim (replacer_ s)). by injection Hv as _ <-.
        - by injection Hv as _ <-. }
      rewrite Hd1 in Hn.
      destruct (allocate_page (disk_manager_ s) fdn) as [pno d]. simpl in Hbad.
      by rewrite decide_True in Hn.
    + destruct (new_page_some fdn s g s1 pg Hv Hpg Hgood)
        as (s'' & Hs'' & _ & Hf' & _ & Ht' & _).
      rewrite Hs'' in Hn. injection Hn as <- <- <-.
      split; [done|]. split; [done|]. split; [done|].
      by rewrite Ht', lookup_insert_eq.
  - unfold new_page in Hn. by rewrite Hv in Hn.
Qed.

(** What [create_page_handle] hands to [insert_record]: a frame that holds
    a page of the file and is not with the replacer. *)
Lemma create_page_handle_Some (fh : FH) f fh1 :
  file_wf fh → create_page_handle fh = (Some f, fh1) →
  fd_ fh1 = fd_ fh ∧
  record_size (file_hdr_ fh1) = record_size (file_hdr_ fh) ∧
  num_records_per_page (file_hdr_ fh1) = num_records_per_page (file_hdr_ fh) ∧
  bpm_inv (buffer_pool_manager_ fh1) ∧
  ∃ pg, pages_ (buffer_pool_manager_ fh1) !! f = Some pg ∧
        fd (id_ pg) = fd_ fh ∧
        0 ≤ page_no (id_ pg) < num_pages (file_hdr_ fh1) ∧
        page_table_ (buffer_pool_manager_ fh1) !! id_ pg = Some f ∧
        f ∉ LRUlist_ (replacer_ (buffer_pool_manager_ fh1)).
Proof.
  intros [Hinv Hcap Hnp Ha] Hc. unfold create_page_handle in Hc.
  destruct (decide (first_free_page_no (file_hdr_ fh) = RM_NO_PAGE)) as [Hff|Hff].
  - unfold create_new_page_handle in Hc.
    pose proof (new_page_inv (fd_ fh) _ Hinv) as Hinv'.
    destruct (new_page (fd_ fh) (buffer_pool_manager_ fh)) as [[[g pid]|] b] eqn:Hn;
      [|done].
    injection Hc as <- <-. simpl in Hinv'.
    destruct (new_page_Some_inv _ _ _ _ _ Hinv Hn) as (Hpid & Hvalid & Hg & Ht).
    pose proof (new_page_not_listed _ _ _ _ _ Hinv Hn) as Hnl.
    rewrite Ha in Hpid.
    split; [done|]. split; [done|]. split; [done|].
    split; [by repeat apply upd_frame_inv_same|].
    pose proof (reframed_upd b g (λ p, set_data (set_next_free_page_no RM_NO_PAGE (data_ p)) p)
                  _ Hg) as H2.
    pose proof (reframed_upd _ g (λ p, set_data (set_num_records 0 (data_ p)) p)
                  _ (proj1 H2)) as H3.
    eexists. split; [exact (proj1 H3)|]. simpl.
    rewrite Hpid. simpl. split; [done|]. split; [lia|]. split; [|done].
    by rewrite <-Hpid.
  - unfold fetch_page_handle in Hc.
    destruct (decide _) as [|Hrange]; [done|].
    pose proof (fetch_page_inv (mkPageId (fd_ fh) (first_free_page_no (file_hdr_ fh)))
                  _ Hinv) as Hinv'.
    pose proof (fetch_page_Some (mkPageId (fd_ fh) (first_free_page_no (file_hdr_ fh)))
                  (buffer_pool_manager_ fh) f Hinv) as Hsome.
    destruct (fetch_page _ _) as [r b]. injection Hc as -> <-.
    destruct (Hsome eq_refl) as (Ht & pg & Hpg & Hid & Hnl).
    simpl in *. split; [done|]. split; [done|]. split; [done|]. split; [done|].
    exists pg. rewrite Hid. simpl. split; [done|]. split; [done|].
    split; [lia|]. done.
Qed.

End record_steps.

(** ** Round trip of a record *)

(** [get_record] on a resident page: the bytes of the slot, as they are in
    the frame. *)
Lemma get_record_resident {D} `{!DiskManager D} (fh : RmFileHandle D) rid f pg :
  0 ≤ rid_page_no rid < num_pages (file_hdr_ fh) →
  0 ≤ slot_no rid < num_records_per_page (file_hdr_ fh) →
  page_table_ (buffer_pool_manager_ fh) !! mkPageId (fd_ fh) (rid_page_no rid) = Some f →
  pages_ (buffer_pool_manager_ fh) !! f = Some pg →
  (get_record rid fh).1 =
    Some (mkRecord
            (memcpy_from (get_slot (file_hdr_ fh) (slot_no rid))
               (record_size (file_hdr_ fh)) (slots (data_ pg)))
            (record_size (file_hdr_ fh))).
Proof.
  intros Hpno Hslot HP Hpg. unfold get_record, fetch_page_handle.
  rewrite decide_False by lia.
  destruct (fetch_page_hit _ _ f pg HP Hpg) as (s' & -> & Hp' & _).
  cbn [file_hdr_ set_bpm]. rewrite decide_False by lia. simpl.
  unfold page_of, frame. cbn [buffer_pool_manager_ set_bpm]. rewrite Hp'.
  by rewrite list_lookup_total_insert_eq by by eapply lookup_lt_Some.
Qed.




(** ** The disk in memory keeps the laws *)

#[global] Instance MemDisk_laws : DiskLaws MemDisk.
Proof.
  constructor.
  - intros d f p x. simpl. by rewrite lookup_insert_eq.
  - intros d f p x f' p' Hne. simpl. by rewrite lookup_insert_ne.
  - intros d f f' p'. simpl. by destruct (fd2pageno d !! f).
  - intros d f p x f'. simpl. by destruct (fd2pageno d !! f').
  - intros d f. simpl. destruct (fd2pageno d !! f) as [n|] eqn:Hn; simpl.
    + intros _. by rewrite lookup_insert_eq.
    + done.
Qed.

(** ** [delete_record] on one frame *)

Section delete_step.
Context {D : Type} `{!DiskManager D}.

Local Abbreviation FH := (RmFileHandle D).

Lemma set_data_same (p : Page) d : data_ p = d → set_data d p = p.
Proof. intros <-. by destruct p. Qed.

(** [delete_record] once [fetch_page_handle] has returned the frame [f]
    holding [pg] and the slot number is in range, whether [unpin_page]
    succeeds or not. *)
Lemma delete_record_steps rid (fh : FH) f fh1 pg :
  fetch_page_handle (rid_page_no rid) fh = (Some f, fh1) →
  bpm_inv (buffer_pool_manager_ fh1) →
  pages_ (buffer_pool_manager_ fh1) !! f = Some pg →
  page_table_ (buffer_pool_manager_ fh1) !! id_ pg = Some f →
  0 ≤ slot_no rid < num_records_per_page (file_hdr_ fh1) →
  let h := file_hdr_ fh1 in
  let relink :=
    bool_decide (num_records (page_hdr (data_ pg)) - 1 = num_records_per_page h - 1) in
  let next := if relink then first_free_page_no h
              else next_free_page_no (page_hdr (data_ pg)) in
  ∃ fh', delete_record rid fh = Done fh' ∧
    fd_ fh' = fd_ fh1 ∧
    num_pages (file_hdr_ fh') = num_pages h ∧
    num_records_per_page (file_hdr_ fh') = num_records_per_page h ∧
    first_free_page_no (file_hdr_ fh') =
      (if relink then page_no (id_ pg) else first_free_page_no h) ∧
    bpm_inv (buffer_pool_manager_ fh') ∧
    (∃ b3 pg5,
       bpm_inv b3 ∧
       reframed (buffer_pool_manager_ fh1) b3 f
         (mkPage (id_ pg)
            (deleted_data (slot_no rid) (next_free_page_no (page_hdr (data_ pg)))
               (data_ pg))
            (is_dirty_ pg) (pin_count_ pg)) ∧
       replacer_ b3 = replacer_ (buffer_pool_manager_ fh1) ∧
       free_list_ b3 = free_list_ (buffer_pool_manager_ fh1) ∧
       pages_ (unpin_page (id_ pg) true b3).2 !! f = Some pg5 ∧
       reframed (unpin_page (id_ pg) true b3).2 (buffer_pool_manager_ fh') f
         (set_data (deleted_data (slot_no rid) next (data_ pg)) pg5) ∧
       replacer_ (buffer_pool_manager_ fh') = replacer_ (unpin_page (id_ pg) true b3).2 ∧
       free_list_ (buffer_pool_manager_ fh') = free_list_ (unpin_page (id_ pg) true b3).2) ∧
    reframed (buffer_pool_manager_ fh1) (buffer_pool_manager_ fh') f
      (set_data (deleted_data (slot_no rid) next (data_ pg))
         (after_unpin true
            (mkPage (id_ pg)
               (deleted_data (slot_no rid) (next_free_page_no (page_hdr (data_ pg)))
                  (data_ pg))
               (is_dirty_ pg) (pin_count_ pg)))).
Proof.
  intros Hc Hinv Hpg HP Hslot h relink next.
  unfold delete_record. rewrite Hc.
  rewrite decide_False by lia. rewrite decide_False by lia.
  set (fh2 := upd_data f _ fh1).
  set (fh3 := upd_data f _ fh2).
  set (pg3 := mkPage (id_ pg)
                (deleted_data (slot_no rid) (next_free_page_no (page_hdr (data_ pg)))
                   (data_ pg))
                (is_dirty_ pg) (pin_count_ pg)).
  assert (reframed (buffer_pool_manager_ fh1) (buffer_pool_manager_ fh3) f pg3)
    as H13.
  { pose proof (upd_data_reframed fh1 f _ pg Hpg
                : reframed _ (buffer_pool_manager_ fh2) _ _) as H2.
    pose proof (upd_data_reframed fh2 f _ _ (proj1 H2)
                : reframed _ (buffer_pool_manager_ fh3) _ _) as H3.
    exact (reframed_trans _ _ _ _ _ _ H2 H3). }
  assert (bpm_inv (buffer_pool_manager_ fh3)) as Hinv3
    by (repeat apply upd_data_inv; done).
  pose proof H13 as (Hpg3 & Hoth3 & Ht3 & Hd3).
  unfold unpin_handle. rewrite (page_of_lookup fh3 f pg3 Hpg3). cbn [id_ pg3].
  pose proof (reframed_unpin_any (id_ pg) true (buffer_pool_manager_ fh3) f pg3) as H4.
  rewrite Ht3 in H4. specialize (H4 HP Hpg3).
  pose proof (unpin_page_inv (id_ pg) true _ Hinv3) as Hinv4.
  set (b4 := (unpin_page (id_ pg) true (buffer_pool_manager_ fh3)).2) in *.
  set (fh4 := set_bpm b4 fh3).
  pose proof (reframed_trans _ _ _ _ _ _ H13 H4) as H14.
  rewrite (page_of_lookup fh4 f _ (proj1 H4)). rewrite after_unpin_data.
  cbn [data_ pg3 deleted_data page_hdr num_records].
  change (num_records_per_page (file_hdr_ fh4)) with (num_records_per_page h).
  unfold next, relink.
  destruct (decide (num_records (page_hdr (data_ pg)) - 1 = num_records_per_page h - 1))
    as [Hrel|Hrel].
  - rewrite bool_decide_eq_true_2 by done.
    unfold release_page_handle.
    set (fh5 := upd_data f _ fh4).
    pose proof (upd_data_reframed fh4 f
                  (set_next_free_page_no (first_free_page_no (file_hdr_ fh4)))
                  _ (proj1 H4)
                : reframed _ (buffer_pool_manager_ fh5) _ _) as H5.
    rewrite after_unpin_data in H5.
    eexists. split; [done|].
    cbn [fd_ file_hdr_ buffer_pool_manager_ set_file_hdr num_pages
         num_records_per_page first_free_page_no set_first_free_page_no].
    split; [done|]. split; [done|]. split; [done|]. split.
    { rewrite (page_of_lookup fh5 f _ (proj1 H5)). cbn [id_ set_data].
      by rewrite after_unpin_id. }
    split; [by apply upd_data_inv|]. split.
    { eexists (buffer_pool_manager_ fh3), _. split; [done|]. split; [exact H13|].
      split; [done|]. split; [done|]. split; [exact (proj1 H4)|].
      split; [exact H5|]. done. }
    exact (reframed_trans _ _ _ _ _ _ H14 H5).
  - rewrite bool_decide_eq_false_2 by done.
    pose proof (set_data_same (after_unpin true pg3)
                  (deleted_data (slot_no rid) (next_free_page_no (page_hdr (data_ pg)))
                     (data_ pg)) (after_unpin_data true pg3)) as Hsame.
    eexists. split; [done|].
    split; [done|]. split; [done|]. split; [done|]. split; [done|].
    split; [done|]. split.
    { eexists (buffer_pool_manager_ fh3), _. split; [done|]. split; [exact H13|].
      split; [done|]. split; [done|]. split; [exact (proj1 H4)|].
      split; [|done]. rewrite Hsame. split; [exact (proj1 H4)|]. done. }
    rewrite Hsame. exact H14.
Qed.

(** The same when the frame is pinned: [unpin_page] succeeds. *)
Lemma delete_record_done rid (fh : FH) f fh1 pg :
  fetch_page_handle (rid_page_no rid) fh = (Some f, fh1) →
  bpm_inv (buffer_pool_manager_ fh1) →
  pages_ (buffer_pool_manager_ fh1) !! f = Some pg →
  page_table_ (buffer_pool_manager_ fh1) !! id_ pg = Some f →
  0 < pin_count_ pg →
  0 ≤ slot_no rid < num_records_per_page (file_hdr_ fh1) →
  let h := file_hdr_ fh1 in
  let relink :=
    bool_decide (num_records (page_hdr (data_ pg)) - 1 = num_records_per_page h - 1) in
  let next := if relink then first_free_page_no h
              else next_free_page_no (page_hdr (data_ pg)) in
  ∃ fh', delete_record rid fh = Done fh' ∧
    fd_ fh' = fd_ fh1 ∧
    num_pages (file_hdr_ fh') = num_pages h ∧
    num_records_per_page (file_hdr_ fh') = num_records_per_page h ∧
    first_free_page_no (file_hdr_ fh') =
      (if relink then page_no (id_ pg) else first_free_page_no h) ∧
    bpm_inv (buffer_pool_manager_ fh') ∧
    (∃ b3 pg5,
       bpm_inv b3 ∧
       reframed (buffer_pool_manager_ fh1) b3 f
         (mkPage (id_ pg)
            (deleted_data (slot_no rid) (next_free_page_no (page_hdr (data_ pg)))
               (data_ pg))
            (is_dirty_ pg) (pin_count_ pg)) ∧
       replacer_ b3 = replacer_ (buffer_pool_manager_ fh1) ∧
       free_list_ b3 = free_list_ (buffer_pool_manager_ fh1) ∧
       pages_ (unpin_page (id_ pg) true b3).2 !! f = Some pg5 ∧
       reframed (unpin_page (id_ pg) true b3).2 (buffer_pool_manager_ fh') f
         (set_data (deleted_data (slot_no rid) next (data_ pg)) pg5) ∧
       replacer_ (buffer_pool_manager_ fh') = replacer_ (unpin_page (id_ pg) true b3).2 ∧
       free_list_ (buffer_pool_manager_ fh') = free_list_ (unpin_page (id_ pg) true b3).2) ∧
    reframed (buffer_pool_manager_ fh1) (buffer_pool_manager_ fh') f
      (mkPage (id_ pg) (deleted_data (slot_no rid) next (data_ pg)) true
              (pin_count_ pg - 1)).
Proof.
  intros Hc Hinv Hpg HP Hpos Hslot h relink next.
  destruct (delete_record_steps rid fh f fh1 pg Hc Hinv Hpg HP Hslot)
    as (fh' & Hdel & Hfd & Hnp & Hrp & Hff & Hinv' & Hb & Hre).
  rewrite after_unpin_pinned in Hre by done.
  exists fh'. done.
Qed.

End delete_step.

(** ** [insert_record] and [delete_record] keep a file well-formed *)

Section file_invariant.
Context {D : Type} `{!DiskManager D} `{!DiskLaws D}.

Local Abbreviation FH := (RmFileHandle D).

Lemma file_inv_wf (fh : FH) : file_inv fh → file_wf fh.
Proof.
  intros [Hok Hcap Hnp Ha _ _]. unfold RM_FIRST_RECORD_PAGE in Hnp.
  constructor; [by apply ok_inv|lia|lia|done].
Qed.

Lemma set_bpm_same (fh : FH) : set_bpm (buffer_pool_manager_ fh) fh = fh.
Proof. by destruct fh. Qed.

Lemma page_view_resident (fh : FH) f pg :
  page_table_ (buffer_pool_manager_ fh) !! id_ pg = Some f →
  pages_ (buffer_pool_manager_ fh) !! f = Some pg →
  fd (id_ pg) = fd_ fh →
  page_view fh (page_no (id_ pg)) = data_ pg.
Proof.
  intros HP Hpg Hfd. unfold page_view, page_view_at.
  rewrite <-Hfd, PageId_eta, HP. by rewrite (frame_lookup _ _ _ Hpg).
Qed.

Lemma fetch_page_handle_inv pno (fh : FH) h fh1 :
  file_inv fh → fetch_page_handle pno fh = (h, fh1) →
  file_inv fh1 ∧ file_hdr_ fh1 = file_hdr_ fh ∧ fd_ fh1 = fd_ fh ∧
  (∀ p, 0 ≤ p → page_view fh1 p = page_view fh p) ∧
  (∀ f, h = Some f →
     0 ≤ pno < num_pages (file_hdr_ fh) ∧
     ∃ pg, pages_ (buffer_pool_manager_ fh1) !! f = Some pg ∧
           id_ pg = mkPageId (fd_ fh) pno ∧
           page_table_ (buffer_pool_manager_ fh1) !! id_ pg = Some f ∧
           f ∉ LRUlist_ (replacer_ (buffer_pool_manager_ fh1))).
Proof.
  intros Hfi Hc. pose proof Hfi as [Hok Hcap Hnp Ha Hkeys Hcount].
  unfold fetch_page_handle in Hc.
  destruct (decide _) as [Hout|Hin].
  { injection Hc as <- <-. split; [done|]. split; [done|]. split; [done|].
    split; [done|]. intros f [=]. }
  set (P := mkPageId (fd_ fh) pno) in *.
  destruct (fetch_page_ok P (buffer_pool_manager_ fh) Hok) as (Hok' & Hview & Ha' & Hk');
    [simpl; lia|].
  pose proof (fetch_page_Some P (buffer_pool_manager_ fh)) as Hsome.
  destruct (fetch_page P (buffer_pool_manager_ fh)) as [r b]. injection Hc as <- <-.
  simpl in *. split; [|split; [done|split; [done|split]]].
  - constructor; simpl; try done.
    + by rewrite Ha'.
    + intros K g HK HKfd. destruct (Hk' K g HK) as [->|HK'].
      * simpl. lia.
      * by eapply Hkeys.
    + intros p Hp. unfold page_view. simpl. rewrite Hview by (unfold RM_FIRST_RECORD_PAGE in Hp; lia).
      by apply Hcount.
  - intros p Hp. unfold page_view. simpl. by apply Hview.
  - intros f ->. split; [lia|].
    destruct (Hsome f (ok_inv _ Hok) eq_refl) as (Ht & pg & Hpg & Hid & Hpos).
    exists pg. rewrite Hid. done.
Qed.

(** The frame [f] of a well-formed file is rewritten, out of the reach of
    the replacer or dirty, and the page it holds still has as many records
    as set bits. *)
Lemma reframed_file_inv (fh1 fh' : FH) f pg pg' :
  file_inv fh1 →
  bpm_inv (buffer_pool_manager_ fh') →
  pages_ (buffer_pool_manager_ fh1) !! f = Some pg →
  reframed (buffer_pool_manager_ fh1) (buffer_pool_manager_ fh') f pg' →
  id_ pg' = id_ pg →
  (f ∉ LRUlist_ (replacer_ (buffer_pool_manager_ fh')) ∨ is_dirty_ pg' = true) ∧
  (∀ g, g ≠ f → g ∈ LRUlist_ (replacer_ (buffer_pool_manager_ fh')) →
        g ∈ LRUlist_ (replacer_ (buffer_pool_manager_ fh1))) →
  fd_ fh' = fd_ fh1 →
  num_pages (file_hdr_ fh') = num_pages (file_hdr_ fh1) →
  num_records_per_page (file_hdr_ fh') = num_records_per_page (file_hdr_ fh1) →
  (fd (id_ pg) = fd_ fh1 →
   RM_FIRST_RECORD_PAGE ≤ page_no (id_ pg) < num_pages (file_hdr_ fh1) →
   page_table_ (buffer_pool_manager_ fh1) !! id_ pg = Some f →
   num_records (page_hdr (data_ pg'))
   = count_set (bitmap (data_ pg')) (num_records_per_page (file_hdr_ fh1))) →
  file_inv fh'.
Proof.
  intros [Hok Hcap Hnp Ha Hkeys Hcount] Hinv' Hpg (Hpg' & Hoth & Ht & Hd)
    Hid [Hbusy Hlist] Hfd Hnp' Hcap' Hnew.
  destruct (reframed_ok _ _ f pg pg' Hok Hinv' Hpg Hpg' Hoth Ht Hd Hid Hbusy Hlist)
    as [Hok' Hview].
  constructor.
  - done.
  - by rewrite Hcap'.
  - by rewrite Hnp'.
  - by rewrite Hd, Hfd, Hnp'.
  - intros K g HK HKfd. rewrite Ht in HK. rewrite Hfd in HKfd. rewrite Hnp'.
    by eapply Hkeys.
  - intros pno Hpno. rewrite Hnp' in Hpno. rewrite Hcap'.
    unfold page_view. rewrite Hview, Hfd.
    destruct (decide _) as [HK|HK]; [|by apply Hcount].
    destruct (inv_table_id _ (ok_inv _ Hok) _ f HK) as (pg0 & Hl & Hid0).
    rewrite Hpg in Hl. injection Hl as <-.
    apply Hnew; rewrite Hid0; simpl; done.
Qed.

Lemma create_page_handle_inv (fh : FH) h fh1 :
  file_inv fh → create_page_handle fh = (h, fh1) →
  file_inv fh1 ∧
  (∀ p, 0 ≤ p < num_pages (file_hdr_ fh) → page_view fh1 p = page_view fh p) ∧
  num_pages (file_hdr_ fh) ≤ num_pages (file_hdr_ fh1) ∧
  num_records_per_page (file_hdr_ fh1) = num_records_per_page (file_hdr_ fh) ∧
  first_free_page_no (file_hdr_ fh1) = first_free_page_no (file_hdr_ fh) ∧
  fd_ fh1 = fd_ fh.
Proof.
  intros Hfi Hc. pose proof Hfi as [Hok Hcap Hnp Ha Hkeys Hcount].
  unfold create_page_handle in Hc.
  destruct (decide _) as [Hff|Hff].
  2:{ destruct (fetch_page_handle_inv _ fh h fh1 Hfi Hc) as (? & Hh & ? & Hv & _).
      rewrite Hh. split; [done|]. split; [|done]. intros p Hp. apply Hv. lia. }
  unfold create_new_page_handle in Hc.
  assert (page_table_ (buffer_pool_manager_ fh)
            !! mkPageId (fd_ fh) (num_pages (file_hdr_ fh)) = None) as Hfresh.
  { destruct (page_table_ _ !! _) as [g|] eqn:HK; [|done].
    apply Hkeys in HK; simpl in HK; [lia|done]. }
  unfold RM_FIRST_RECORD_PAGE in Hnp.
  pose proof (new_page_ok (fd_ fh) (buffer_pool_manager_ fh) (num_pages (file_hdr_ fh))
                Hok ltac:(lia) Ha Hfresh) as Hnew.
  destruct (new_page (fd_ fh) (buffer_pool_manager_ fh)) as [[[f pid]|] b] eqn:Hn.
  - pose proof (new_page_not_listed _ _ _ _ _ (ok_inv _ Hok) Hn) as Hnl.
    destruct Hnew as (-> & Hokb & Hviewb & Hf & Htb & Hab & Hkb).
    injection Hc as <- <-.
    set (P := mkPageId (fd_ fh) (num_pages (file_hdr_ fh))) in *.
    set (fh0 := set_bpm b fh).
    set (fh2 := upd_data f (set_next_free_page_no RM_NO_PAGE) fh0).
    set (fh3 := upd_data f (set_num_records 0) fh2).
    pose proof (upd_data_reframed fh0 f (set_next_free_page_no RM_NO_PAGE) _ Hf
                : reframed b (buffer_pool_manager_ fh2) _ _) as H2.
    pose proof (upd_data_reframed fh2 f (set_num_records 0) _ (proj1 H2)
                : reframed _ (buffer_pool_manager_ fh3) _ _) as H3.
    destruct (reframed_trans _ _ _ _ _ _ H2 H3) as (Hpg3 & Hoth3 & Ht3 & Hd3).
    assert (bpm_inv (buffer_pool_manager_ fh3)) as Hinv3.
    { apply upd_data_inv, upd_data_inv. simpl. by apply ok_inv. }
    destruct (reframed_ok b (buffer_pool_manager_ fh3) f _ _ Hokb Hinv3 Hf Hpg3
                Hoth3 Ht3 Hd3) as [Hok3 Hview3]; [done|by left|by intros g _ Hg|].
    assert (∀ pno, 0 ≤ pno < num_pages (file_hdr_ fh) →
              page_view_at (fd_ fh) (buffer_pool_manager_ fh3) pno
              = page_view fh pno) as Hold.
    { intros pno Hpno. rewrite Hview3. destruct (decide _) as [HK|HK].
      - destruct (inv_table_id _ (ok_inv _ Hokb) _ f HK) as (pg0 & Hl & Hid0).
        rewrite Hf in Hl. injection Hl as <-. simpl in Hid0.
        injection Hid0 as Hid0. lia.
      - apply Hviewb; [lia|]. unfold P. intros [= ?]. lia. }
    split; [|split; [|split; [|done]]].
    + constructor.
      * exact Hok3.
      * done.
      * simpl. unfold RM_FIRST_RECORD_PAGE. lia.
      * cbn [buffer_pool_manager_ set_file_hdr fd_ file_hdr_ num_pages set_num_pages].
        rewrite Hd3. exact Hab.
      * intros K g HK HKfd.
        cbn [buffer_pool_manager_ set_file_hdr fd_ file_hdr_ num_pages set_num_pages] in *.
        rewrite Ht3 in HK. destruct (Hkb K g HK) as [->|HK'].
        -- simpl. lia.
        -- pose proof (Hkeys K g HK' HKfd). simpl. lia.
      * intros pno Hpno.
        cbn [buffer_pool_manager_ set_file_hdr fd_ file_hdr_ num_pages set_num_pages
             num_records_per_page] in *.
        unfold page_view at 1 2.
        cbn [buffer_pool_manager_ set_file_hdr fd_].
        destruct (decide (pno = num_pages (file_hdr_ fh))) as [->|Hne].
        -- rewrite Hview3, decide_True by exact Htb. simpl. by rewrite count_set_zero.
        -- rewrite Hold by (unfold RM_FIRST_RECORD_PAGE in *; lia).
           apply Hcount. unfold RM_FIRST_RECORD_PAGE in *. lia.
    + intros p Hp. unfold page_view at 1.
      cbn [buffer_pool_manager_ set_file_hdr fd_]. by apply Hold.
    + simpl. lia.
  - subst b. injection Hc as <- <-. rewrite set_bpm_same.
    split; [done|]. split; [done|]. split; [lia|]. done.
Qed.

Lemma insert_record_inv buf (fh : FH) r fh' :
  file_inv fh → insert_record buf fh = Done (r, fh') → file_inv fh'.
Proof.
  intros Hfi Hins.
  destruct (create_page_handle fh) as [[f|] fh1] eqn:Hc.
  - destruct (create_page_handle_inv fh _ fh1 Hfi Hc) as [Hfi1 _].
    destruct (create_page_handle_Some fh f fh1 (file_inv_wf fh Hfi) Hc)
      as (Hfd & Hrs & Hrp & Hinv1 & pg & Hpg & Hidfd & Hrange & HP & Hnl).
    set (n := num_records_per_page (file_hdr_ fh1)).
    set (slot := first_unset (bitmap (data_ pg)) 0 (Z.to_nat n)).
    destruct (decide (slot = n)) as [Hfull|Hfree].
    + rewrite (insert_record_full buf fh f fh1 Hc) in Hins.
      * by injection Hins as _ <-.
      * by rewrite (page_of_lookup fh1 f pg Hpg).
    + destruct (insert_record_steps buf fh f fh1 pg Hc Hinv1 Hpg HP Hfree)
        as (fh6 & Hins6 & Hfd6 & Hnp6 & Hrp6 & Hrs6 & _ & Hinv6
            & (b4 & Hb4 & _ & H14 & Hrep4 & _) & Hre).
      rewrite Hins6 in Hins. injection Hins as _ <-.
      eapply (reframed_file_inv fh1 fh6 f pg); try done.
      { by rewrite after_unpin_id. }
      { eapply unpin_closing; [exact H14|done|exact HP|done|by rewrite Hb4]. }
      intros Hfd1 Hdata HP1. rewrite after_unpin_data. simpl. fold n slot.
      pose proof (fi_per_page _ Hfi1) as Hcap. fold n in Hcap.
      destruct (first_unset_spec (bitmap (data_ pg)) (Z.to_nat n) 0) as [Hs Hbit].
      fold slot in Hs, Hbit.
      rewrite count_set_set by (try apply Hbit; lia).
      f_equal. rewrite <-(page_view_resident fh1 f pg HP1 Hpg Hfd1).
      by apply (fi_count _ Hfi1).
  - destruct (create_page_handle_inv fh _ fh1 Hfi Hc) as [Hfi1 _].
    destruct (insert_record_none buf fh fh1 Hc) as [Hi|Hi]; rewrite Hi in Hins.
    + done.
    + by injection Hins as _ <-.
Qed.

Lemma delete_record_inv rid (fh : FH) fh' :
  file_inv fh → occupied fh rid → delete_record rid fh = Done fh' → file_inv fh'.
Proof.
  intros Hfi (Hpno & Hslot & Hbit) Hdel.
  destruct (fetch_page_handle (rid_page_no rid) fh) as [[f|] fh1] eqn:Hc.
  - destruct (fetch_page_handle_inv _ fh _ fh1 Hfi Hc)
      as (Hfi1 & Hhdr & Hfd & Hview & Hsome).
    destruct (Hsome f eq_refl) as (_ & pg & Hpg & Hid & HP & Hnl).
    rewrite <-Hhdr in Hslot.
    destruct (delete_record_steps rid fh f fh1 pg Hc
                (ok_inv _ (fi_pool _ Hfi1)) Hpg HP Hslot)
      as (fh6 & Hdel6 & Hfd6 & Hnp6 & Hrp6 & _ & Hinv6
          & (b3 & pg5 & _ & H13 & Hrep3 & _ & _ & _ & Hrep6 & _) & Hre).
    rewrite Hdel6 in Hdel. injection Hdel as <-.
    eapply (reframed_file_inv fh1 fh6 f pg); try done.
    { cbn [id_ set_data]. by rewrite after_unpin_id. }
    { eapply unpin_closing; [exact H13|done|exact HP|done|exact Hrep6]. }
    intros Hfd1 Hdata HP1. simpl.
    assert (page_view fh1 (rid_page_no rid) = data_ pg) as Hv.
    { rewrite <-(page_view_resident fh1 f pg HP1 Hpg Hfd1). by rewrite Hid. }
    rewrite Hview in Hv by (unfold RM_FIRST_RECORD_PAGE in Hpno; lia).
    rewrite Hv in Hbit.
    rewrite count_set_reset by done.
    f_equal. rewrite <-(page_view_resident fh1 f pg HP1 Hpg Hfd1).
    by apply (fi_count _ Hfi1).
  - destruct (fetch_page_handle_inv _ fh _ fh1 Hfi Hc) as (Hfi1 & _).
    unfold delete_record in Hdel. rewrite Hc in Hdel. by injection Hdel as <-.
Qed.

Lemma run_rm_calls_inv cs (fh : FH) fh' :
  file_inv fh → deletes_occupied cs fh → run_rm_calls cs fh = Done fh' →
  file_inv fh'.
Proof.
  revert fh. induction cs as [|c cs IH]; intros fh Hfi Hocc Hrun; simpl in *.
  - by injection Hrun as <-.
  - destruct Hocc as [Hc Hrest].
    destruct (rm_call_exec c fh) as [fh1|e] eqn:Hexec; [|done].
    simpl in Hrun. apply (IH fh1); [|done|done].
    destruct c as [buf|rid]; simpl in Hexec.
    + destruct (insert_record buf fh) as [[r fh2]|e] eqn:Hins; [|done].
      simpl in Hexec. injection Hexec as <-. by eapply insert_record_inv.
    + by eapply delete_record_inv.
Qed.

End file_invariant.

Lemma fresh_file_inv pool_size file rec_size per_page :
  0 < per_page → file_inv (fresh_file pool_size file rec_size per_page).
Proof.
  intros Hcap. constructor; simpl.
  - constructor; simpl.
    + apply bpm_init_inv.
    + intros f pg Hl. apply lookup_replicate in Hl as [-> _]. right. simpl.
      unfold INVALID_PAGE_ID. lia.
    + intros K f HK. by rewrite lookup_empty in HK.
    + intros K f pg HK. by rewrite lookup_empty in HK.
  - done.
  - unfold RM_FIRST_RECORD_PAGE. lia.
  - by rewrite lookup_singleton_eq.
  - intros K f HK. by rewrite lookup_empty in HK.
  - unfold RM_FIRST_RECORD_PAGE. intros pno Hpno. lia.
Qed.

(** C6, amended.  From a well-formed file, after any sequence of
    [insert_record] and [delete_record] calls in which every
    [delete_record] is given the [Rid] of an occupied slot, the file is
    still well-formed: on every data page, whether its bytes are in a frame
    or on the disk, [num_records] is the number of set bits of the
    bitmap. *)
Theorem num_records_counts_set_bits {D} `{!DiskManager D} `{!DiskLaws D}
    (cs : list rm_call) (fh fh' : RmFileHandle D) :
  file_inv fh →
  deletes_occupied cs fh →
  run_rm_calls cs fh = Done fh' →
  ∀ pno, RM_FIRST_RECORD_PAGE ≤ pno < num_pages (file_hdr_ fh') →
    num_records (page_hdr (page_view fh' pno))
    = count_set (bitmap (page_view fh' pno))
        (num_records_per_page (file_hdr_ fh')).
Proof.
  intros Hfi Hocc Hrun. apply fi_count. by eapply run_rm_calls_inv.
Qed.

Lemma num_records_counts_set_bits_witness :
  num_pages (file_hdr_ Examples.file_small_after) = 4 ∧
  num_records (page_hdr (page_view Examples.file_small_after 1))
  = count_set (bitmap (page_view Examples.file_small_after 1))
      (num_records_per_page (file_hdr_ Examples.file_small_after)) ∧
  num_records (page_hdr (page_view Examples.file_small_after 2))
  = count_set (bitmap (page_view Examples.file_small_after 2))
      (num_records_per_page (file_hdr_ Examples.file_small_after)) ∧
  num_records (page_hdr (page_view Examples.file_small_after 3))
  = count_set (bitmap (page_view Examples.file_small_after 3))
      (num_records_per_page (file_hdr_ Examples.file_small_after)).
Proof.
  split; [vm_compute; reflexivity|].
  assert (file_inv Examples.file_small) as Hinv by (apply fresh_file_inv; lia).
  assert (deletes_occupied Examples.calls_small Examples.file_small) as Hocc.
  { vm_compute.
    repeat match goal with
           | |- _ ∧ _ => split
           | |- True => exact I
           end; try reflexivity; discriminate. }
  assert (run_rm_calls Examples.calls_small Examples.file_small
          = Done Examples.file_small_after) as Hrun by (vm_compute; reflexivity).
  pose proof (num_records_counts_set_bits Examples.calls_small Examples.file_small
                Examples.file_small_after Hinv Hocc Hrun) as Hcount.
  repeat match goal with |- _ ∧ _ => split end;
    apply Hcount; vm_compute; (split; [discriminate|reflexivity]).
Defined.

Example calls_small_run :
  run_rm_calls Examples.calls_small Examples.file_small
    = Done Examples.file_small_after ∧
  num_pages (file_hdr_ Examples.file_small_after) = 4 ∧
  num_records (page_hdr (page_view Examples.file_small_after 1)) = 0 ∧
  num_records (page_hdr (page_view Examples.file_small_after 2)) = 0 ∧
  num_records (page_hdr (page_view Examples.file_small_after 3)) = 1.
Proof. run_code. Qed.

(** ** A pool with a frame to give *)

Lemma erase_node_other x l y : y ≠ x → y ∈ l → y ∈ LRU.erase_node x l.
Proof.
  intros Hne. induction l as [|z l IH]; simpl; [done|].
  rewrite elem_of_cons. destruct (decide (z = x)) as [->|Hz].
  - intros [->|Hin]; done.
  - rewrite elem_of_cons. intros [->|Hin]; [by left|right; by apply IH].
Qed.

Lemma pin_list_other f r g : g ≠ f → g ∈ LRUlist_ r → g ∈ LRUlist_ (LRU.pin f r).
Proof.
  intros Hne Hin. unfold LRU.pin. destruct (decide _); [|done].
  simpl. by apply erase_node_other.
Qed.

Lemma pin_hash f r :
  (∀ g, g ∈ LRUhash_ r → g ∈ LRUlist_ r) →
  (f ∉ LRUhash_ (LRU.pin f r)) ∧
  (∀ g, g ∈ LRUhash_ (LRU.pin f r) → g ∈ LRUlist_ (LRU.pin f r)) ∧
  max_size_ (LRU.pin f r) = max_size_ r.
Proof.
  intros Hsub. unfold LRU.pin. destruct (decide _) as [Hin|Hnin]; simpl.
  - split; [set_solver|]. split; [|done].
    intros g [Hg Hne]%elem_of_difference.
    apply erase_node_other; [set_solver|by apply Hsub].
  - done.
Qed.

Lemma scan_back_is_Some r :
  LRUlist_ r ≠ [] → (∀ x, x ∈ LRUlist_ r → x ∈ LRUhash_ r) →
  is_Some (LRU.scan_back r).
Proof.
  intros Hne Hsub. unfold LRU.scan_back.
  destruct (reverse (LRUlist_ r)) as [|y l] eqn:Hrev.
  - apply (f_equal reverse) in Hrev. rewrite reverse_involutive in Hrev. done.
  - rewrite filter_cons_True; [by eexists|].
    apply Hsub, elem_of_reverse. rewrite Hrev. by left.
Qed.

Lemma length_by_lookup {A} (l l' : list A) :
  (∀ i, is_Some (l' !! i) ↔ is_Some (l !! i)) → length l' = length l.
Proof.
  intros Hl. destruct (Nat.lt_trichotomy (length l') (length l)) as [Hlt|[->|Hlt]].
  - assert (is_Some (l' !! length l')) as Hs by (apply Hl, lookup_lt_is_Some; lia).
    apply lookup_lt_is_Some in Hs. lia.
  - done.
  - assert (is_Some (l !! length l)) as Hs by (apply Hl, lookup_lt_is_Some; lia).
    apply lookup_lt_is_Some in Hs. lia.
Qed.

(** Distinct frame numbers below [n], none of them [f], are fewer than [n]. *)
Lemma distinct_frames_length (l : list nat) (f n : nat) :
  NoDup l → f ∉ l → (f < n)%nat → (∀ x, x ∈ l → (x < n)%nat) →
  (length l < n)%nat.
Proof.
  intros Hnd Hf Hfn Hl.
  assert (f :: l ⊆+ seq 0 n) as Hsub.
  { apply NoDup_submseteq; [by constructor|].
    intros x [->|Hx]%elem_of_cons; apply elem_of_seq; [lia|]. specialize (Hl x Hx). lia. }
  apply submseteq_length in Hsub. rewrite length_seq in Hsub. simpl in Hsub. lia.
Qed.

Section pool_ready_facts.
Context {D : Type} `{!DiskManager D}.

Local Abbreviation BPM := (BufferPoolManager D).

Lemma find_victim_page_ready (s : BPM) :
  pool_ready s → (0 < length (pages_ s))%nat →
  ∃ f s1, find_victim_page s = (Some f, s1).
Proof.
  intros [Hinv Hun Hav Hhash Hmax] Hlen. unfold find_victim_page.
  destruct (free_list_ s) as [|f rest] eqn:Hfl; [|by eexists _, _].
  destruct (Hav 0%nat Hlen) as [Hin|Hin]; [by apply elem_of_nil in Hin|].
  unfold LRU.victim. destruct (LRUlist_ (replacer_ s)) as [|y l] eqn:Hl;
    [by apply elem_of_nil in Hin|].
  destruct (scan_back_is_Some (replacer_ s)) as [x Hx].
  - by rewrite Hl.
  - apply (inv_lru_hash _ Hinv).
  - rewrite Hx. by eexists _, _.
Qed.

(** The lists after [find_victim_page]: the frame has left the list it was
    taken from, nothing else has moved. *)
Lemma find_victim_page_lists (s : BPM) f s1 :
  bpm_inv s → find_victim_page s = (Some f, s1) →
  (∀ g, g ≠ f → g ∈ free_list_ s ∨ g ∈ LRUlist_ (replacer_ s) →
        g ∈ free_list_ s1 ∨ g ∈ LRUlist_ (replacer_ s1)) ∧
  ((∀ g, g ∈ LRUhash_ (replacer_ s) → g ∈ LRUlist_ (replacer_ s)) →
   (∀ g, g ∈ LRUhash_ (replacer_ s1) → g ∈ LRUlist_ (replacer_ s1))) ∧
  max_size_ (replacer_ s1) = max_size_ (replacer_ s).
Proof.
  intros Hinv Hv. unfold find_victim_page in Hv.
  destruct (free_list_ s) as [|f0 rest] eqn:Hfl.
  - destruct (LRU.victim (replacer_ s)) as [r rep] eqn:Hvic.
    injection Hv as -> <-. apply victim_Some in Hvic as (Hin & Hl & Hh & Hm).
    simpl. rewrite Hfl, Hl, Hh. split; [|split; [|done]].
    + intros g Hne [Hg|Hg]; [by left|right].
      apply list_elem_of_filter. done.
    + intros Hsub g [Hg Hne]%elem_of_difference.
      apply list_elem_of_filter. split; [set_solver|by apply Hsub].
  - injection Hv as <- <-. simpl. split; [|done].
    intros g Hne [Hg|Hg]; [left|by right].
    apply elem_of_cons in Hg as [->|Hg]; done.
Qed.

Lemma unpin_page_replacer P d (s : BPM) f pg :
  page_table_ s !! P = Some f → pages_ s !! f = Some pg → 0 < pin_count_ pg →
  replacer_ (unpin_page P d s).2 =
    (if decide (pin_count_ pg - 1 = 0) then LRU.unpin f (replacer_ s)
     else replacer_ s) ∧
  free_list_ (unpin_page P d s).2 = free_list_ s.
Proof.
  intros HP Hpg Hpos. unfold unpin_page. rewrite HP, (frame_lookup _ _ _ Hpg).
  rewrite decide_False by lia.
  erewrite (frame_lookup (upd_frame _ _ _)); [|by apply lookup_upd_frame_eq].
  simpl. by destruct (decide _).
Qed.

(** Once a frame is installed for a caller, the pool is held by that frame. *)
Lemma installed_held (s s1 s' : BPM) f :
  pool_ready s → bpm_inv s' →
  (∀ g, g ≠ f → g ∈ free_list_ s ∨ g ∈ LRUlist_ (replacer_ s) →
        g ∈ free_list_ s1 ∨ g ∈ LRUlist_ (replacer_ s1)) →
  (∀ g, g ∈ LRUhash_ (replacer_ s1) → g ∈ LRUlist_ (replacer_ s1)) →
  max_size_ (replacer_ s1) = max_size_ (replacer_ s) →
  replacer_ s' = LRU.pin f (replacer_ s1) → free_list_ s' = free_list_ s1 →
  (∃ pg, pages_ s' !! f = Some pg ∧ pin_count_ pg = 1) →
  is_Some (pages_ s !! f) →
  (∀ g, g ≠ f → pages_ s' !! g = pages_ s !! g) →
  pool_held s' f.
Proof.
  intros [Hinv Hun Hav Hhash Hmax] Hinv' Hlists Hhash1 Hmax1 Hrep Hfl Hpin Hf Hoth.
  assert (length (pages_ s') = length (pages_ s)) as Hlen.
  { apply length_by_lookup. intros i. destruct (decide (i = f)) as [->|Hne].
    - destruct Hpin as (pg & -> & _). split; [done|by eexists].
    - by rewrite Hoth. }
  destruct (pin_hash f (replacer_ s1) Hhash1) as (Hnin & Hsub & Hm).
  constructor.
  - done.
  - done.
  - intros g pg Hne Hl. rewrite Hoth in Hl by done. by eapply Hun.
  - intros g Hne Hlt. rewrite Hlen in Hlt. rewrite Hrep, Hfl.
    destruct (Hlists g Hne (Hav g Hlt)) as [Hg|Hg]; [by left|right].
    by apply pin_list_other.
  - rewrite Hrep. exact Hsub.
  - rewrite Hrep, Hm, Hmax1, Hmax, Hlen. done.
Qed.

Lemma fetch_page_ready P (s : BPM) :
  pool_ready s → (0 < length (pages_ s))%nat →
  ∃ f, (fetch_page P s).1 = Some f ∧ pool_held (fetch_page P s).2 f.
Proof.
  intros Hrdy Hlen. pose proof (rdy_inv _ Hrdy) as Hinv.
  pose proof (fetch_page_inv P s Hinv) as Hinv'.
  pose proof (fetch_page_replacer P s) as Hrep.
  destruct (page_table_ s !! P) as [f|] eqn:HP.
  - destruct (inv_table_id _ Hinv P f HP) as (pg & Hpg & Hid).
    destruct (fetch_page_hit P s f pg HP Hpg) as (s' & Hs' & Hp' & _).
    rewrite Hs' in *. simpl in *. destruct Hrep as [Hrep Hfl].
    exists f. split; [done|].
    assert (f < length (pages_ s))%nat as Hlt by by eapply lookup_lt_Some.
    apply (installed_held s s s'); try done.
    + apply (rdy_hash _ Hrdy).
    + eexists. rewrite Hp', list_lookup_insert_eq by done. split; [done|].
      simpl. rewrite (rdy_unpinned _ Hrdy f pg Hpg). done.
    + intros g Hne. rewrite Hp'. by apply list_lookup_insert_ne.
  - destruct (find_victim_page_ready s Hrdy Hlen) as (f & s1 & Hv).
    rewrite Hv in Hrep. destruct Hrep as [Hrep Hfl].
    destruct (find_victim_page_Some s f s1 Hinv Hv) as ((pg & Hpg & Hz) & _).
    destruct (fetch_page_miss P s f s1 pg HP Hv Hpg Hz)
      as (s' & Hs' & _ & Hf' & Hoth & _).
    rewrite Hs' in *. simpl in *. exists f. split; [done|].
    destruct (find_victim_page_lists s f s1 Hinv Hv) as (Hl1 & Hh1 & Hm1).
    apply (installed_held s s1 s'); try done.
    + apply Hh1, (rdy_hash _ Hrdy).
    + by eexists.
Qed.

Lemma new_page_ready fdn (s : BPM) :
  pool_ready s → (0 < length (pages_ s))%nat →
  (allocate_page (disk_manager_ s) fdn).1 ≠ INVALID_PAGE_ID →
  ∃ f pid s', new_page fdn s = (Some (f, pid), s') ∧ pool_held s' f.
Proof.
  intros Hrdy Hlen Hvalid. pose proof (rdy_inv _ Hrdy) as Hinv.
  pose proof (new_page_inv fdn s Hinv) as Hinv'.
  destruct (find_victim_page_ready s Hrdy Hlen) as (f & s1 & Hv).
  destruct (find_victim_page_Some s f s1 Hinv Hv) as ((pg & Hpg & Hz) & _).
  destruct (new_page_some fdn s f s1 pg Hv Hpg Hvalid)
    as (s' & Hs' & _ & Hf' & Hoth & _).
  destruct (new_page_replacer fdn s f _ s' s1 Hv Hs') as [Hrep Hfl].
  rewrite Hs' in Hinv'. simpl in Hinv'.
  eexists f, _, s'. split; [done|].
  destruct (find_victim_page_lists s f s1 Hinv Hv) as (Hl1 & Hh1 & Hm1).
  apply (installed_held s s1 s'); try done.
  - apply Hh1, (rdy_hash _ Hrdy).
  - by eexists.
Qed.

(** The frame that holds the pool is pinned. *)
Lemma held_pinned (s : BPM) f pg :
  pool_held s f → pages_ s !! f = Some pg → 0 < pin_count_ pg.
Proof.
  intros Hheld Hpg. destruct (held_pin _ _ Hheld) as (pg' & Hl & Hone).
  rewrite Hpg in Hl. injection Hl as <-. lia.
Qed.

(** Writing the bytes of a frame does not change who holds the pool. *)
Lemma reframed_held (s s' : BPM) f g pg pg' :
  pool_held s f → bpm_inv s' →
  pages_ s !! g = Some pg → reframed s s' g pg' →
  pin_count_ pg' = pin_count_ pg →
  replacer_ s' = replacer_ s → free_list_ s' = free_list_ s →
  pool_held s' f.
Proof.
  intros [Hinv Hpin Hun Hav Hhash Hmax] Hinv' Hpg (Hpg' & Hoth & _ & _) Hsame Hrep Hfl.
  assert (length (pages_ s') = length (pages_ s)) as Hlen.
  { apply length_by_lookup. intros i. destruct (decide (i = g)) as [->|Hne].
    - rewrite Hpg, Hpg'. split; by eexists.
    - by rewrite Hoth. }
  constructor; rewrite ?Hrep, ?Hfl, ?Hlen; try done.
  - destruct Hpin as (pf & Hpf & Hone). destruct (decide (f = g)) as [->|Hne].
    + exists pg'. split; [done|]. rewrite Hsame. congruence.
    + exists pf. by rewrite Hoth.
  - intros h ph Hne Hl. destruct (decide (h = g)) as [->|Hne'].
    + rewrite Hpg' in Hl. injection Hl as <-. rewrite Hsame. by eapply Hun.
    + rewrite Hoth in Hl by done. by eapply Hun.
Qed.

(** The holder unpins its page: every frame can be taken again. *)
Lemma unpin_page_ready P d (s : BPM) f :
  pool_held s f → page_table_ s !! P = Some f →
  (unpin_page P d s).1 = true ∧ pool_ready (unpin_page P d s).2.
Proof.
  intros [Hinv (pg & Hpg & Hone) Hun Hav Hhash Hmax] HP.
  pose proof (unpin_page_inv P d s Hinv) as Hinv'.
  destruct (unpin_page_replacer P d s f pg HP Hpg) as [Hrep Hfl]; [lia|].
  destruct (unpin_page_ok P d s f pg HP Hpg) as (s' & Hs' & Hp' & _); [lia|].
  rewrite Hs' in *. simpl in *. split; [done|].
  rewrite decide_True in Hrep by lia.
  assert (f < length (pages_ s))%nat as Hlt by by eapply lookup_lt_Some.
  assert (f ∉ LRUlist_ (replacer_ s)) as Hnl.
  { intros Hin. destruct (inv_lru_pin _ Hinv f Hin) as (pg0 & Hl & Hz).
    rewrite Hpg in Hl. injection Hl as <-. lia. }
  assert (f ∉ LRUhash_ (replacer_ s)) as Hnh by (intros Hin; by apply Hnl, Hhash).
  assert (LRU.Size (replacer_ s) < max_size_ (replacer_ s))%nat as Hsize.
  { rewrite Hmax. apply (distinct_frames_length _ f); try done.
    - apply (inv_lru_nodup _ Hinv).
    - intros x Hx. destruct (inv_lru_pin _ Hinv x Hx) as (pg0 & Hl & _).
      by eapply lookup_lt_Some. }
  unfold LRU.unpin in Hrep. rewrite decide_True in Hrep by done.
  assert (length (pages_ s') = length (pages_ s)) as Hlen
    by (rewrite Hp'; apply length_insert).
  constructor; rewrite ?Hrep, ?Hfl, ?Hlen; simpl; try done.
  - intros g pg0 Hl. rewrite Hp' in Hl. destruct (decide (g = f)) as [->|Hne].
    + rewrite list_lookup_insert_eq in Hl by done. injection Hl as <-. simpl. lia.
    + rewrite list_lookup_insert_ne in Hl by done. by eapply Hun.
  - intros g Hg. destruct (decide (g = f)) as [->|Hne].
    + right. by left.
    + destruct (Hav g Hne Hg) as [?|?]; [by left|right; by right].
  - intros g [->%elem_of_singleton|Hg]%elem_of_union; [by left|right; by apply Hhash].
Qed.

End pool_ready_facts.

(** ** The calls of the record layer finish *)

Lemma first_unset_all bm k s :
  first_unset bm s k = s + Z.of_nat k →
  ∀ i, s ≤ i < s + Z.of_nat k → bm i = true.
Proof.
  revert s. induction k as [|k IH]; intros s Hall i Hi; [lia|].
  simpl in Hall. unfold Bitmap.is_set in Hall. destruct (bm s) eqn:Hs.
  - destruct (decide (i = s)) as [->|Hne]; [done|].
    apply (IH (s + 1)); lia.
  - lia.
Qed.

Lemma count_set_all bm n :
  0 ≤ n → (∀ i, 0 ≤ i < n → bm i = true) → count_set bm n = n.
Proof.
  intros Hn Hall. unfold count_set.
  assert (filter (λ i, bm i = true) (seqZ 0 n) = seqZ 0 n) as ->.
  { assert (Forall (λ i, 0 ≤ i < n) (seqZ 0 n)) as Hran.
    { apply Forall_forall. intros i Hi. apply elem_of_seqZ in Hi. lia. }
    induction Hran as [|x l Hx Hl IH]; [done|].
    rewrite filter_cons_True by by apply Hall. by rewrite IH. }
  rewrite length_seqZ. lia.
Qed.

(** A page with fewer records than slots has a free slot for
    [insert_record] to find. *)
Lemma first_unset_finds bm n :
  0 ≤ n → count_set bm n < n → first_unset bm 0 (Z.to_nat n) ≠ n.
Proof.
  intros Hn Hcount Hfull.
  pose proof (first_unset_all bm (Z.to_nat n) 0) as Hall.
  rewrite Z2Nat.id in Hall by done.
  rewrite (count_set_all bm n) in Hcount; [lia|done|].
  intros i Hi. apply Hall; [lia|lia].
Qed.

Section file_ready_facts.
Context {D : Type} `{!DiskManager D} `{!DiskLaws D}.

Local Abbreviation BPM := (BufferPoolManager D).
Local Abbreviation FH := (RmFileHandle D).

(** How the pages of the file are seen once the frame [f] is rewritten. *)
Lemma reframed_views (fh1 fh' : FH) f pg pg' :
  bpm_inv (buffer_pool_manager_ fh1) →
  pages_ (buffer_pool_manager_ fh1) !! f = Some pg →
  page_table_ (buffer_pool_manager_ fh1) !! id_ pg = Some f →
  reframed (buffer_pool_manager_ fh1) (buffer_pool_manager_ fh') f pg' →
  fd_ fh' = fd_ fh1 →
  ∀ q, page_view fh' q =
       if decide (id_ pg = mkPageId (fd_ fh1) q) then data_ pg'
       else page_view fh1 q.
Proof.
  intros Hinv Hpg HP (Hpg' & Hoth & Ht & Hd) Hfd q.
  unfold page_view, page_view_at. rewrite Ht, Hd, Hfd.
  destruct (decide (id_ pg = mkPageId (fd_ fh1) q)) as [Hid|Hid].
  - rewrite <-Hid, HP. by rewrite (frame_lookup _ _ _ Hpg').
  - destruct (page_table_ _ !! mkPageId (fd_ fh1) q) as [g|] eqn:HK; [|done].
    f_equal. apply frame_eq_lookup, Hoth. intros ->.
    destruct (inv_table_id _ Hinv _ f HK) as (pg0 & Hl & Hid0). congruence.
Qed.

(** The free-page list is still one when its pages keep their links and
    their free slots. *)
Lemma chain_ok_ext (fh fh' : FH) p l :
  chain_ok fh p l →
  num_pages (file_hdr_ fh) ≤ num_pages (file_hdr_ fh') →
  num_records_per_page (file_hdr_ fh') = num_records_per_page (file_hdr_ fh) →
  (∀ q, q ∈ l →
     next_free_page_no (page_hdr (page_view fh' q))
     = next_free_page_no (page_hdr (page_view fh q)) ∧
     (num_records (page_hdr (page_view fh q)) < num_records_per_page (file_hdr_ fh) →
      num_records (page_hdr (page_view fh' q)) < num_records_per_page (file_hdr_ fh))) →
  chain_ok fh' p l.
Proof.
  intros Hchain Hnp Hcap. induction Hchain as [|p l Hp Hfree Hnin Hrest IH]; intros Hsame.
  - constructor.
  - destruct (Hsame p) as [Hnext Hnum]; [by left|].
    constructor.
    + lia.
    + rewrite Hcap. by apply Hnum.
    + done.
    + rewrite Hnext. apply IH. intros q Hq. apply Hsame. by right.
Qed.

Lemma chain_ok_head (fh : FH) p l :
  chain_ok fh p l → p ≠ RM_NO_PAGE →
  ∃ l', l = p :: l' ∧
    RM_FIRST_RECORD_PAGE ≤ p < num_pages (file_hdr_ fh) ∧
    num_records (page_hdr (page_view fh p)) < num_records_per_page (file_hdr_ fh) ∧
    (p ∉ l') ∧
    chain_ok fh (next_free_page_no (page_hdr (page_view fh p))) l'.
Proof. intros Hchain Hne. destruct Hchain; [done|]. by eexists. Qed.

Lemma chain_ok_range (fh : FH) p l q :
  chain_ok fh p l → q ∈ l →
  RM_FIRST_RECORD_PAGE ≤ q < num_pages (file_hdr_ fh) ∧
  num_records (page_hdr (page_view fh q)) < num_records_per_page (file_hdr_ fh).
Proof.
  induction 1 as [|p l Hp Hfree Hnin Hrest IH]; [by intros ?%elem_of_nil|].
  intros [->|Hq]%elem_of_cons; [done|by apply IH].
Qed.

Lemma reframed_ready (s s' : BPM) g pg pg' :
  pool_ready s → bpm_inv s' →
  pages_ s !! g = Some pg → reframed s s' g pg' →
  pin_count_ pg' = pin_count_ pg →
  replacer_ s' = replacer_ s → free_list_ s' = free_list_ s →
  pool_ready s'.
Proof.
  intros [Hinv Hun Hav Hhash Hmax] Hinv' Hpg (Hpg' & Hoth & _ & _) Hsame Hrep Hfl.
  assert (length (pages_ s') = length (pages_ s)) as Hlen.
  { apply length_by_lookup. intros i. destruct (decide (i = g)) as [->|Hne].
    - rewrite Hpg, Hpg'. split; by eexists.
    - by rewrite Hoth. }
  constructor; rewrite ?Hrep, ?Hfl, ?Hlen; try done.
  intros h ph Hl. destruct (decide (h = g)) as [->|Hne'].
  - rewrite Hpg' in Hl. injection Hl as <-. rewrite Hsame. by eapply Hun.
  - rewrite Hoth in Hl by done. by eapply Hun.
Qed.

(** On a ready file [create_page_handle] always returns a frame: a new page
    without records when the free-page list is empty, the head of the list
    otherwise. *)
Lemma create_page_handle_ready (fh : FH) :
  file_ready fh →
  ∃ f fh1 pg,
    create_page_handle fh = (Some f, fh1) ∧
    pool_held (buffer_pool_manager_ fh1) f ∧
    pages_ (buffer_pool_manager_ fh1) !! f = Some pg ∧
    ((first_free_page_no (file_hdr_ fh) = RM_NO_PAGE ∧
      next_free_page_no (page_hdr (data_ pg)) = RM_NO_PAGE ∧
      num_records (page_hdr (data_ pg)) = 0 ∧
      bitmap (data_ pg) 0 = false) ∨
     (first_free_page_no (file_hdr_ fh) ≠ RM_NO_PAGE ∧
      page_no (id_ pg) = first_free_page_no (file_hdr_ fh))).
Proof.
  intros [Hfi Hlen Hrdy (l & Hchain)].
  pose proof (rdy_inv _ Hrdy) as Hinv.
  unfold create_page_handle.
  destruct (decide (first_free_page_no (file_hdr_ fh) = RM_NO_PAGE)) as [Hff|Hff].
  - unfold create_new_page_handle.
    pose proof (fi_num_pages _ Hfi) as Hnp. unfold RM_FIRST_RECORD_PAGE in Hnp.
    destruct (new_page_ready (fd_ fh) (buffer_pool_manager_ fh) Hrdy Hlen)
      as (f & pid & b & Hn & Hheld).
    { rewrite (fi_alloc _ Hfi). unfold INVALID_PAGE_ID. lia. }
    rewrite Hn.
    destruct (new_page_Some_inv _ _ _ _ _ Hinv Hn) as (_ & _ & Hf & _).
    set (fh0 := set_bpm b fh).
    set (fh2 := upd_data f (set_next_free_page_no RM_NO_PAGE) fh0).
    set (fh3 := upd_data f (set_num_records 0) fh2).
    pose proof (upd_data_reframed fh0 f (set_next_free_page_no RM_NO_PAGE) _ Hf) as H2.
    fold fh2 in H2. pose proof H2 as (Hf2 & _).
    pose proof (upd_data_reframed fh2 f (set_num_records 0) _ Hf2) as H3.
    fold fh3 in H3. pose proof H3 as (Hf3 & _).
    assert (bpm_inv (buffer_pool_manager_ fh2)) as Hinv2
      by (apply upd_data_inv; apply (held_inv _ _ Hheld)).
    assert (bpm_inv (buffer_pool_manager_ fh3)) as Hinv3 by by apply upd_data_inv.
    eexists f, _, _. split; [done|]. split; [|split; [exact Hf3|by left]].
    apply (reframed_held (buffer_pool_manager_ fh2) _ f f _ _
             (reframed_held b _ f f _ _ Hheld Hinv2 Hf H2 eq_refl eq_refl eq_refl)
             Hinv3 Hf2 H3); done.
  - destruct (chain_ok_head fh _ l Hchain Hff) as (l' & _ & Hrange & _).
    unfold RM_FIRST_RECORD_PAGE in Hrange.
    unfold fetch_page_handle. rewrite decide_False by lia.
    set (P := mkPageId (fd_ fh) (first_free_page_no (file_hdr_ fh))).
    destruct (fetch_page_ready P (buffer_pool_manager_ fh) Hrdy Hlen) as (f & Hf & Hheld).
    destruct (fetch_page_Some P _ f Hinv Hf) as (_ & pg & Hpg & Hid & _).
    destruct (fetch_page P (buffer_pool_manager_ fh)) as [r b]. simpl in *. subst r.
    exists f, (set_bpm b fh), pg. split; [done|]. split; [done|]. split; [done|].
    right. by rewrite Hid.
Qed.

Lemma insert_record_ready buf (fh : FH) :
  file_ready fh → ∃ r fh', insert_record buf fh = Done (r, fh') ∧ file_ready fh'.
Proof.
  intros Hrdy. pose proof Hrdy as [Hfi Hlen Hpool (l & Hchain)].
  destruct (create_page_handle_ready fh Hrdy) as (f & fh1 & pg & Hc & Hheld & Hpg & Hcase).
  destruct (create_page_handle_inv fh _ fh1 Hfi Hc)
    as (Hfi1 & Hviews1 & Hnp1 & Hcap1 & Hff1 & Hfd1).
  destruct (create_page_handle_Some fh f fh1 (file_inv_wf fh Hfi) Hc)
    as (_ & _ & _ & Hinv1 & pg0 & Hpg0 & Hidfd & Hrange & HP & _).
  rewrite Hpg in Hpg0. injection Hpg0 as <-.
  pose proof (held_pinned _ f pg Hheld Hpg) as Hpos.
  pose proof (fi_per_page _ Hfi1) as Hcap.
  assert (id_ pg = mkPageId (fd_ fh1) (page_no (id_ pg))) as Hid
    by (rewrite Hfd1, <-Hidfd; by rewrite PageId_eta).
  assert (page_view fh1 (page_no (id_ pg)) = data_ pg) as Hview1
    by (apply (page_view_resident fh1 f pg HP Hpg); congruence).
  set (n := num_records_per_page (file_hdr_ fh1)) in *.
  set (slot := first_unset (bitmap (data_ pg)) 0 (Z.to_nat n)).
  assert (slot ≠ n) as Hfree.
  { destruct Hcase as [(_ & _ & _ & Hbit)|(Hff & Hpno)].
    - unfold slot. destruct (Z.to_nat n) as [|k] eqn:Hk; [lia|].
      simpl. unfold Bitmap.is_set. rewrite Hbit. lia.
    - apply first_unset_finds; [lia|].
      destruct (chain_ok_head fh _ l Hchain Hff) as (l' & _ & Hr & Hnum & _).
      rewrite <-Hpno, <-Hviews1, Hview1 in Hnum
        by (unfold RM_FIRST_RECORD_PAGE in Hr; lia).
      rewrite <-Hcap1 in Hnum. fold n in Hnum.
      rewrite <-Hview1, <-(fi_count _ Hfi1), Hview1; [done|].
      rewrite Hpno. lia. }
  destruct (insert_record_done buf fh f fh1 pg Hc Hinv1 Hpg HP Hpos Hfree)
    as (fh6 & Hins6 & Hfd6 & Hnp6 & Hrp6 & Hrs6 & Hff6 & Hinv6 & Hb4 & Hre).
  exists (mkRid (page_no (id_ pg)) slot), fh6. split; [exact Hins6|].
  pose proof (reframed_views fh1 fh6 f pg _ Hinv1 Hpg HP Hre Hfd6) as Hviews6.
  constructor.
  - exact (insert_record_inv buf fh _ fh6 Hfi Hins6).
  - apply Nat.lt_le_trans with (S f); [lia|]. apply Nat.le_succ_l.
    eapply lookup_lt_Some. exact (proj1 Hre).
  - destruct Hb4 as (b4 & -> & Hinv4 & H14 & Hrep4 & Hfl4).
    apply (unpin_page_ready (id_ pg) true b4 f).
    + by apply (reframed_held _ b4 f f pg _ Hheld Hinv4 Hpg H14).
    + destruct H14 as (_ & _ & -> & _). done.
  - fold n in Hff6. rewrite Hff6.
    destruct Hcase as [(Hff & Hnext & Hnum & _)|(Hff & Hpno)].
    + exists []. rewrite Hnext, Hff1, Hff. destruct (decide _); constructor.
    + destruct (chain_ok_head fh _ l Hchain Hff) as (l' & -> & Hr & Hnum & Hnin & Hrest).
      assert (page_view fh (first_free_page_no (file_hdr_ fh)) = data_ pg) as Hv.
      { rewrite <-Hviews1, <-Hpno by (unfold RM_FIRST_RECORD_PAGE in Hr; lia). done. }
      rewrite Hv in Hnum, Hrest.
      assert (chain_ok fh6 (next_free_page_no (page_hdr (data_ pg))) l') as Htail.
      { apply (chain_ok_ext fh); [done|lia|unfold n in *; congruence|].
        intros q Hq. rewrite Hviews6.
        destruct (chain_ok_range fh _ l' q Hrest Hq) as [Hqr _].
        rewrite decide_False.
        - rewrite Hviews1 by (unfold RM_FIRST_RECORD_PAGE in Hqr; lia). done.
        - rewrite Hid. intros [= Heq]. rewrite Hpno in Heq. congruence. }
      destruct (decide _) as [Hfull|Hroom].
      * by exists l'.
      * exists (first_free_page_no (file_hdr_ fh) :: l'). rewrite Hff1.
        assert (page_view fh6 (first_free_page_no (file_hdr_ fh))
                = inserted_data (file_hdr_ fh1) slot buf (data_ pg)) as Hv6.
        { rewrite Hviews6, decide_True; [done|]. by rewrite Hid, Hpno. }
        constructor.
        -- lia.
        -- rewrite Hv6, Hrp6. simpl. fold n. rewrite Hcap1 in *. lia.
        -- done.
        -- by rewrite Hv6.
Qed.

Lemma delete_record_ready rid (fh : FH) :
  file_ready fh → occupied fh rid →
  ∃ fh', delete_record rid fh = Done fh' ∧ file_ready fh'.
Proof.
  intros Hrdy Hocc. pose proof Hrdy as [Hfi Hlen Hpool (l & Hchain)].
  pose proof Hocc as (Hpno & Hslot & Hbit).
  pose proof (rdy_inv _ Hpool) as Hinv.
  set (P := mkPageId (fd_ fh) (rid_page_no rid)).
  destruct (fetch_page_ready P (buffer_pool_manager_ fh) Hpool Hlen) as (f & Hf & Hheld).
  assert (fetch_page_handle (rid_page_no rid) fh
          = (Some f, set_bpm (fetch_page P (buffer_pool_manager_ fh)).2 fh)) as Hc.
  { unfold fetch_page_handle. unfold RM_FIRST_RECORD_PAGE in Hpno.
    rewrite decide_False by lia. fold P.
    destruct (fetch_page P (buffer_pool_manager_ fh)) as [r b]. simpl in Hf. by subst r. }
  set (fh1 := set_bpm (fetch_page P (buffer_pool_manager_ fh)).2 fh) in *.
  destruct (fetch_page_handle_inv _ fh _ fh1 Hfi Hc) as (Hfi1 & Hhdr & Hfd & Hviews1 & Hsome).
  destruct (Hsome f eq_refl) as (_ & pg & Hpg & Hid & HP & _).
  pose proof (held_pinned _ f pg Hheld Hpg) as Hpos.
  pose proof (ok_inv _ (fi_pool _ Hfi1)) as Hinv1.
  assert (page_view fh (rid_page_no rid) = data_ pg) as Hv.
  { rewrite <-Hviews1 by (unfold RM_FIRST_RECORD_PAGE in Hpno; lia).
    rewrite <-(page_view_resident fh1 f pg HP Hpg); by rewrite Hid. }
  rewrite <-Hhdr in Hslot.
  destruct (delete_record_done rid fh f fh1 pg Hc Hinv1 Hpg HP Hpos Hslot)
    as (fh6 & Hdel6 & Hfd6 & Hnp6 & Hrp6 & Hff6 & Hinv6 & Hb3 & Hre).
  exists fh6. split; [exact Hdel6|].
  rewrite Hhdr in Hnp6, Hrp6.
  assert (id_ pg = mkPageId (fd_ fh1) (rid_page_no rid)) as Hid1 by by rewrite Hid.
  pose proof (reframed_views fh1 fh6 f pg _ Hinv1 Hpg HP Hre Hfd6) as Hviews6.
  assert (∀ q, q ≠ rid_page_no rid → 0 ≤ q → page_view fh6 q = page_view fh q) as Hoth.
  { intros q Hq Hq0. rewrite Hviews6, decide_False, Hviews1; [done|done|].
    rewrite Hid1. intros [= ?]. done. }
  constructor.
  - exact (delete_record_inv rid fh fh6 Hfi Hocc Hdel6).
  - apply Nat.lt_le_trans with (S f); [lia|]. apply Nat.le_succ_l.
    eapply lookup_lt_Some. exact (proj1 Hre).
  - destruct Hb3 as (b3 & pg5 & Hinv3 & H13 & Hrep3 & Hfl3 & Hpg5 & H56 & Hrep6 & Hfl6).
    assert (pool_ready (unpin_page (id_ pg) true b3).2) as Hrdy5.
    { apply (unpin_page_ready (id_ pg) true b3 f).
      - by apply (reframed_held _ b3 f f pg _ Hheld Hinv3 Hpg H13).
      - destruct H13 as (_ & _ & -> & _). done. }
    by apply (reframed_ready _ _ f pg5 _ Hrdy5 Hinv6 Hpg5 H56).
  - rewrite Hff6, Hhdr.
    assert (page_view fh6 (rid_page_no rid)
            = deleted_data (slot_no rid)
                (if bool_decide (num_records (page_hdr (data_ pg)) - 1
                                 = num_records_per_page (file_hdr_ fh1) - 1)
                 then first_free_page_no (file_hdr_ fh1)
                 else next_free_page_no (page_hdr (data_ pg)))
                (data_ pg)) as Hv6
      by (rewrite Hviews6, decide_True; done).
    rewrite Hhdr in Hv6.
    destruct (decide (rid_page_no rid ∈ l)) as [Hin|Hnin].
    + destruct (chain_ok_range fh _ l _ Hchain Hin) as [_ Hnum].
      rewrite Hv in Hnum.
      rewrite bool_decide_eq_false_2 in Hv6 |- * by lia.
      exists l. apply (chain_ok_ext fh); [done|lia|congruence|].
      intros q Hq. destruct (decide (q = rid_page_no rid)) as [->|Hne].
      * rewrite Hv6, Hv. simpl. split; [done|lia].
      * destruct (chain_ok_range fh _ l q Hchain Hq) as [Hqr _].
        rewrite Hoth by (unfold RM_FIRST_RECORD_PAGE in Hqr; lia). done.
    + assert (chain_ok fh6 (first_free_page_no (file_hdr_ fh)) l) as Hsame.
      { apply (chain_ok_ext fh); [done|lia|congruence|].
        intros q Hq. destruct (chain_ok_range fh _ l q Hchain Hq) as [Hqr _].
        rewrite Hoth; [done| |unfold RM_FIRST_RECORD_PAGE in Hqr; lia].
        intros ->. done. }
      destruct (bool_decide _) eqn:Hrel.
      * apply bool_decide_eq_true in Hrel.
        exists (rid_page_no rid :: l). rewrite Hid. simpl. constructor.
        -- lia.
        -- rewrite Hv6, Hrp6. rewrite Hhdr in Hrel. simpl. lia.
        -- done.
        -- by rewrite Hv6.
      * by exists l.
Qed.

Lemma run_rm_calls_ready cs (fh : FH) :
  file_ready fh → deletes_occupied cs fh →
  ∃ fh', run_rm_calls cs fh = Done fh' ∧ file_ready fh'.
Proof.
  revert fh. induction cs as [|c cs IH]; intros fh Hrdy Hocc; simpl in *.
  - by exists fh.
  - destruct Hocc as [Hc Hrest].
    assert (∃ fh1, rm_call_exec c fh = Done fh1 ∧ file_ready fh1) as (fh1 & Hexec & Hrdy1).
    { destruct c as [buf|rid]; simpl.
      - destruct (insert_record_ready buf fh Hrdy) as (r & fh1 & -> & Hrdy1).
        by exists fh1.
      - by apply delete_record_ready. }
    rewrite Hexec in Hrest |- *. simpl. by apply IH.
Qed.

End file_ready_facts.

Lemma bpm_init_ready {D} `{!DiskManager D} n (d : D) : pool_ready (bpm_init n d).
Proof.
  constructor; simpl.
  - apply bpm_init_inv.
  - intros f pg Hl. apply lookup_replicate in Hl as [-> _]. done.
  - intros f Hf. rewrite length_replicate in Hf. left. apply elem_of_seq. lia.
  - intros f Hf. by apply elem_of_empty in Hf.
  - by rewrite length_replicate.
Qed.

Lemma fresh_file_ready pool_size file rec_size per_page :
  (0 < pool_size)%nat → 0 < per_page →
  file_ready (fresh_file pool_size file rec_size per_page).
Proof.
  intros Hpool Hcap. constructor.
  - by apply fresh_file_inv.
  - simpl. by rewrite length_replicate.
  - apply bpm_init_ready.
  - exists []. constructor.
Qed.

(** The calls of the record layer finish: on a fresh file over a pool of at
    least one frame, every sequence of [insert_record] and [delete_record]
    calls whose deletes are given occupied slots runs to its end, without a
    fault and without an empty page handle, and leaves a ready file. *)
Lemma run_rm_calls_finishes pool_size file rec_size per_page cs :
  (0 < pool_size)%nat → 0 < per_page →
  deletes_occupied cs (fresh_file pool_size file rec_size per_page) →
  ∃ fh', run_rm_calls cs (fresh_file pool_size file rec_size per_page) = Done fh' ∧
         file_ready fh'.
Proof.
  intros Hpool Hcap Hocc. apply run_rm_calls_ready; [|done].
  by apply fresh_file_ready.
Qed.

(** ** The rounds of the scan loop *)

Section scan_rounds.
Context {D : Type} `{!DiskManager D}.

Local Abbreviation FH := (RmFileHandle D).

Lemma fetch_page_handle_hdr pno (fh : FH) :
  file_hdr_ (fetch_page_handle pno fh).2 = file_hdr_ fh.
Proof.
  unfold fetch_page_handle. destruct (decide _); [done|].
  by destruct (fetch_page _ _).
Qed.

(** The [while (rid_.page_no < num_pages)] loop of [next] makes at most
    [num_pages - rid_.page_no] rounds: each round returns or moves to the
    next page, and [num_pages] does not change.  More rounds than that give
    the same result. *)
Lemma next_loop_rounds k (fh : FH) r :
  (Z.to_nat (num_pages (file_hdr_ fh) - rid_page_no r) ≤ k)%nat →
  Scan.next_loop k fh r
  = Scan.next_loop (Z.to_nat (num_pages (file_hdr_ fh) - rid_page_no r)) fh r.
Proof.
  revert fh r. induction k as [|k IH]; intros fh r Hk.
  - by replace (Z.to_nat _) with 0%nat by lia.
  - destruct (Z.to_nat (num_pages (file_hdr_ fh) - rid_page_no r)) as [|m] eqn:Hm.
    + simpl. by rewrite decide_False by lia.
    + simpl. destruct (decide _) as [Hlt|]; [|done].
      pose proof (fetch_page_handle_hdr (rid_page_no r) fh) as Hhdr.
      destruct (fetch_page_handle (rid_page_no r) fh) as [h fh1]. simpl in Hhdr.
      destruct (Scan.scan_page _ _ _ _) as [[s|]|e]; [done| |done].
      assert (Z.to_nat (num_pages (file_hdr_ fh1) - rid_page_no (mkRid (rid_page_no r + 1) (-1)))
              = m) as Hm1 by (rewrite Hhdr; simpl; lia).
      rewrite IH by lia. by rewrite Hm1.
Qed.

End scan_rounds.

(** * Further properties of the code *)

(** ** The replacer on its own *)

(** What the replacer keeps true: the list has no frame twice, the hash
    table has exactly the frames of the list, and the list is no longer
    than the capacity. *)
Lemma erase_node_length x l : (length (LRU.erase_node x l) ≤ length l)%nat.
Proof.
  induction l as [|z l IH]; simpl; [done|].
  destruct (decide (z = x)); simpl; lia.
Qed.

Lemma filter_all {A} (P : A → Prop) `{!∀ x, Decision (P x)} (l : list A) :
  (∀ x, x ∈ l → P x) → filter P l = l.
Proof.
  induction l as [|y l IH]; intros Hall; [done|].
  rewrite filter_cons_True by (apply Hall; by left).
  f_equal. apply IH. intros x Hx. apply Hall. by right.
Qed.

Lemma lru_exec_keeps op r :
  NoDup (LRUlist_ r) → (∀ f, f ∈ LRUlist_ r ↔ f ∈ LRUhash_ r) →
  (LRU.Size r ≤ max_size_ r)%nat →
  NoDup (LRUlist_ (lru_exec op r)) ∧
  (∀ f, f ∈ LRUlist_ (lru_exec op r) ↔ f ∈ LRUhash_ (lru_exec op r)) ∧
  (LRU.Size (lru_exec op r) ≤ max_size_ (lru_exec op r))%nat ∧
  max_size_ (lru_exec op r) = max_size_ r.
Proof.
  intros Hnd Hiff Hsz. destruct op as [|f|f]; simpl.
  - destruct (LRU.victim r) as [[x|] r'] eqn:Hv; simpl.
    + destruct (victim_Some _ _ _ Hv) as (Hx & Hl & Hh & Hm).
      unfold LRU.Size in *. rewrite Hl, Hh, Hm.
      split; [by apply NoDup_filter|]. split; [|split; [|done]].
      * intros g. rewrite list_elem_of_filter, elem_of_difference, elem_of_singleton.
        rewrite Hiff. tauto.
      * etrans; [apply length_filter|done].
    + by rewrite (victim_None _ _ Hv).
  - unfold LRU.pin. destruct (decide _) as [Hin|Hnin]; simpl; [|done].
    unfold LRU.Size in *. simpl.
    split; [by apply erase_node_NoDup|]. split; [|split; [|done]].
    + intros g. rewrite elem_of_difference, elem_of_singleton, <-Hiff. split.
      * intros Hg. split; [by eapply erase_node_subseteq|].
        intros ->. by apply (erase_node_gone f (LRUlist_ r)).
      * intros [Hg Hne]. by apply erase_node_other.
    + etrans; [apply erase_node_length|done].
  - unfold LRU.unpin. destruct (decide _) as [[Hnin Hlt]|Hno]; simpl; [|done].
    unfold LRU.Size in *. simpl.
    split; [constructor; [by rewrite Hiff|done]|]. split; [|split; [lia|done]].
    intros g. rewrite elem_of_cons, elem_of_union, elem_of_singleton, Hiff. tauto.
Qed.

Lemma lru_run_keeps ops r :
  NoDup (LRUlist_ r) → (∀ f, f ∈ LRUlist_ r ↔ f ∈ LRUhash_ r) →
  (LRU.Size r ≤ max_size_ r)%nat →
  NoDup (LRUlist_ (lru_run ops r)) ∧
  (∀ f, f ∈ LRUlist_ (lru_run ops r) ↔ f ∈ LRUhash_ (lru_run ops r)) ∧
  (LRU.Size (lru_run ops r) ≤ max_size_ (lru_run ops r))%nat ∧
  max_size_ (lru_run ops r) = max_size_ r.
Proof.
  revert r. induction ops as [|op ops IH]; intros r Hnd Hiff Hsz; simpl; [done|].
  destruct (lru_exec_keeps op r Hnd Hiff Hsz) as (Hnd1 & Hiff1 & Hsz1 & Hm1).
  destruct (IH _ Hnd1 Hiff1 Hsz1) as (? & ? & ? & Hm).
  split; [done|]. split; [done|]. split; [done|congruence].
Qed.

Lemma lru_init_keeps n ops :
  NoDup (LRUlist_ (lru_run ops (LRU.init n))) ∧
  (∀ f, f ∈ LRUlist_ (lru_run ops (LRU.init n))
        ↔ f ∈ LRUhash_ (lru_run ops (LRU.init n))) ∧
  (LRU.Size (lru_run ops (LRU.init n)) ≤ max_size_ (lru_run ops (LRU.init n)))%nat ∧
  max_size_ (lru_run ops (LRU.init n)) = n.
Proof.
  apply (lru_run_keeps ops (LRU.init n)); simpl.
  - constructor.
  - intros f. rewrite elem_of_nil, elem_of_empty. tauto.
  - unfold LRU.Size. simpl. lia.
Qed.

(** X1.  After any sequence of [victim], [pin] and [unpin] calls on a
    replacer made by the constructor, [LRUlist_] holds no frame twice,
    [LRUhash_] has exactly the frames of the list, and [Size()] is at most
    the [max_size_] the constructor was given. *)
Theorem replacer_list_and_hash_agree (n : nat) (ops : list lru_op) :
  let r := lru_run ops (LRU.init n) in
  NoDup (LRUlist_ r) ∧
  (∀ f, f ∈ LRUlist_ r ↔ f ∈ LRUhash_ r) ∧
  (LRU.Size r ≤ max_size_ r)%nat ∧
  max_size_ r = n.
Proof. apply lru_init_keeps. Qed.

(** X2.  [unpin] pushes at the front, and [victim] takes the frame at the
    back of the list, the one whose [unpin] is the oldest: it returns it
    and removes it from the list and from the hash table, leaving the other
    frames in their order. *)
Theorem victim_takes_the_oldest_unpinned (n : nat) (ops : list lru_op)
    (l : list frame_id_t) (x : frame_id_t) :
  LRUlist_ (lru_run ops (LRU.init n)) = l ++ [x] →
  ∃ r', LRU.victim (lru_run ops (LRU.init n)) = (Some x, r') ∧
        LRUlist_ r' = l ∧
        LRUhash_ r' = LRUhash_ (lru_run ops (LRU.init n)) ∖ {[x]} ∧
        max_size_ r' = n.
Proof.
  intros Hl. destruct (lru_init_keeps n ops) as (Hnd & Hiff & _ & Hm).
  set (r := lru_run ops (LRU.init n)) in *.
  assert (LRU.scan_back r = Some x) as Hs.
  { unfold LRU.scan_back. rewrite Hl, reverse_app. simpl.
    rewrite filter_cons_True; [done|]. apply Hiff. rewrite Hl.
    apply elem_of_app. right. by left. }
  exists (mkLRU (filter (λ y, y ≠ x) (LRUlist_ r)) (LRUhash_ r ∖ {[x]}) (max_size_ r)).
  split.
  - unfold LRU.victim. rewrite Hs. destruct (LRUlist_ r) eqn:Hr; [|done].
    by destruct l.
  - simpl. split; [|done]. rewrite Hl in Hnd |- *.
    apply NoDup_app in Hnd as (_ & Hdis & _).
    rewrite filter_app, filter_cons_False, filter_nil, app_nil_r by naive_solver.
    apply filter_all. intros y Hy ->. apply (Hdis x Hy). by left.
Qed.

Lemma victim_takes_the_oldest_unpinned_witness :
  ∃ r', LRU.victim (lru_run [LruUnpin 0%nat; LruUnpin 1%nat] (LRU.init 2))
          = (Some 0%nat, r') ∧
        LRUlist_ r' = [1%nat] ∧
        LRUhash_ r' = LRUhash_ (lru_run [LruUnpin 0%nat; LruUnpin 1%nat] (LRU.init 2))
                        ∖ {[0%nat]} ∧
        max_size_ r' = 2%nat.
Proof.
  apply (victim_takes_the_oldest_unpinned 2 [LruUnpin 0%nat; LruUnpin 1%nat]
           [1%nat] 0%nat).
  vm_compute. reflexivity.
Defined.

Lemma scan_back_hash r x : LRU.scan_back r = Some x → x ∈ LRUhash_ r.
Proof.
  unfold LRU.scan_back. intros Hh. apply head_Some_elem_of in Hh.
  rewrite list_elem_of_filter in Hh. tauto.
Qed.

Lemma victim_hash r x r' : LRU.victim r = (Some x, r') → x ∈ LRUhash_ r.
Proof.
  unfold LRU.victim. destruct (LRUlist_ r); [done|].
  destruct (LRU.scan_back r) eqn:Hs; [|done].
  intros [= <- _]. by apply scan_back_hash.
Qed.

(** X3.  Whatever the state of the replacer, the [victim] that follows
    [pin(f)] does not return [f]: [pin] has taken [f] out of the hash table
    and [victim] only returns a key of the hash table. *)
Theorem pinned_frame_is_not_the_victim (r r' : LRUReplacer) (f x : frame_id_t) :
  LRU.victim (LRU.pin f r) = (Some x, r') →
  x ∈ LRUhash_ r ∧ x ≠ f.
Proof.
  intros Hv. apply victim_hash in Hv. revert Hv.
  unfold LRU.pin. destruct (decide _) as [Hin|Hnin]; simpl.
  - rewrite elem_of_difference, elem_of_singleton. tauto.
  - intros Hx. split; [done|]. by intros ->.
Qed.

Lemma pinned_frame_is_not_the_victim_witness :
  1%nat ∈ LRUhash_ (lru_run [LruUnpin 0%nat; LruUnpin 1%nat] (LRU.init 2)) ∧
  1%nat ≠ 0%nat.
Proof.
  apply (pinned_frame_is_not_the_victim
           (lru_run [LruUnpin 0%nat; LruUnpin 1%nat] (LRU.init 2))
           (LRU.victim (LRU.pin 0%nat
              (lru_run [LruUnpin 0%nat; LruUnpin 1%nat] (LRU.init 2)))).2
           0%nat 1%nat).
  vm_compute. reflexivity.
Defined.

(** X4.  [unpin] of a frame that is already in the replacer is ignored:
    the frame is not added a second time and it keeps its place in the
    list, so a repeated [unpin] does not make it more recently used. *)
Theorem unpin_of_listed_frame_is_ignored (n : nat) (ops : list lru_op)
    (f : frame_id_t) :
  f ∈ LRUlist_ (lru_run ops (LRU.init n)) →
  LRU.unpin f (lru_run ops (LRU.init n)) = lru_run ops (LRU.init n).
Proof.
  intros Hin. destruct (lru_init_keeps n ops) as (_ & Hiff & _).
  unfold LRU.unpin. rewrite decide_False; [done|].
  intros [Hnin _]. by apply Hnin, Hiff.
Qed.

Lemma unpin_of_listed_frame_is_ignored_witness :
  LRU.unpin 0%nat (lru_run [LruUnpin 0%nat; LruUnpin 1%nat] (LRU.init 2))
  = lru_run [LruUnpin 0%nat; LruUnpin 1%nat] (LRU.init 2).
Proof.
  apply (unpin_of_listed_frame_is_ignored 2 [LruUnpin 0%nat; LruUnpin 1%nat] 0%nat).
  vm_compute. right. left.
Defined.

(** ** The pool and its replacer *)

Lemma lru_run_app ops1 ops2 r :
  lru_run (ops1 ++ ops2) r = lru_run ops2 (lru_run ops1 r).
Proof. revert r. induction ops1 as [|op ops1 IH]; intros r; simpl; [done|apply IH]. Qed.

Section pool_replacer.
Context {D : Type} `{!DiskManager D}.

Local Abbreviation BPM := (BufferPoolManager D).

Lemma find_victim_page_replacer (s : BPM) :
  (∃ ops, replacer_ (find_victim_page s).2 = lru_run ops (replacer_ s)) ∧
  length (pages_ (find_victim_page s).2) = length (pages_ s).
Proof.
  unfold find_victim_page. destruct (free_list_ s).
  - destruct (LRU.victim (replacer_ s)) as [r rep] eqn:Hv. simpl.
    split; [|done]. exists [LruVictim]. simpl. by rewrite Hv.
  - simpl. split; [by exists []|done].
Qed.

Lemma upd_frame_length f g (s : BPM) : length (pages_ (upd_frame f g s)) = length (pages_ s).
Proof. unfold upd_frame. simpl. by rewrite length_insert. Qed.

(** The pool changes its replacer through [victim], [pin] and [unpin]
    only, and never the number of its frames. *)
Lemma bpm_exec_replacer op (s : BPM) :
  (∃ ops, replacer_ (bpm_exec op s) = lru_run ops (replacer_ s)) ∧
  length (pages_ (bpm_exec op s)) = length (pages_ s).
Proof.
  destruct op as [P|P d0|P|fdn|P|file]; simpl.
  - unfold fetch_page. destruct (page_table_ s !! P) as [f|].
    + simpl. split; [by exists [LruPin f]|]. by rewrite length_insert.
    + destruct (find_victim_page_replacer s) as [[ops Hops] Hlen].
      destruct (find_victim_page s) as [[f|] s1]; cbn [snd] in *; [|by eauto].
      pose proof (update_page_lists f P s1) as [_ Hrep].
      pose proof (update_page_length f P s1) as Hlen2.
      rewrite !upd_frame_length. cbn [replacer_ upd_frame set_pages set_replacer pages_].
      rewrite !length_insert, Hlen2, Hrep.
      split; [|done].
      exists (ops ++ [LruPin f]). by rewrite lru_run_app, <-Hops.
  - unfold unpin_page. destruct (page_table_ s !! P) as [f|]; [|by split; [exists []|]].
    destruct (decide _); [by split; [exists []|]|]. simpl.
    destruct (decide _); simpl.
    + split; [by exists [LruUnpin f]|]. by rewrite !length_insert.
    + split; [by exists []|]. by rewrite !length_insert.
  - unfold flush_page. destruct (page_table_ s !! P) as [f|]; [|by split; [exists []|]].
    simpl. split; [by exists []|]. by rewrite length_insert.
  - unfold new_page.
    destruct (find_victim_page_replacer s) as [[ops Hops] Hlen].
    destruct (find_victim_page s) as [[f|] s1]; cbn [snd] in *; [|by eauto].
    destruct (allocate_page (disk_manager_ s1) fdn) as [pno d1].
    destruct (decide _); cbn [snd]; [by eauto|].
    pose proof (update_page_lists f (mkPageId fdn pno) (set_disk d1 s1)) as [_ Hrep].
    pose proof (update_page_length f (mkPageId fdn pno) (set_disk d1 s1)) as Hlen2.
    rewrite !upd_frame_length. cbn [replacer_ upd_frame set_pages set_replacer pages_].
    rewrite Hlen2, Hrep. cbn [replacer_ pages_ set_disk].
    split; [|done].
    exists (ops ++ [LruPin f]). by rewrite lru_run_app, <-Hops.
  - unfold delete_page. destruct (page_table_ s !! P) as [f|]; [|by split; [exists []|]].
    destruct (decide _); [by split; [exists []|]|]. simpl.
    split; [by exists []|]. by rewrite length_insert.
  - unfold flush_all_pages.
    induction (map_to_list (page_table_ s)) as [|e l [[ops IH] IHlen]]; simpl;
      [by split; [exists []|]|].
    unfold flush_entry at 1 3. destruct (decide _); [by eauto|].
    simpl. split; [by eauto|]. by rewrite length_insert.
Qed.

Lemma bpm_reachable_replacer n d (s : BPM) :
  bpm_reachable n d s →
  (∃ ops, replacer_ s = lru_run ops (LRU.init n)) ∧ length (pages_ s) = n.
Proof.
  induction 1 as [|s op _ [[ops IH] IHlen]].
  - simpl. split; [by exists []|]. by rewrite length_replicate.
  - destruct (bpm_exec_replacer op s) as [[ops' Hops] Hlen].
    split; [|congruence]. exists (ops ++ ops'). by rewrite lru_run_app, <-IH.
Qed.

End pool_replacer.

(** ** Pages and frames in the states a pool can reach *)

(** X5.  In every state the pool can reach, a page of the page table has a
    frame of its own: the frame exists, it carries the id of the page, it
    is not on the free list, and no other page id is mapped to it. *)
Theorem resident_page_has_a_frame_of_its_own {D} `{!DiskManager D} n (d : D)
    (s : BufferPoolManager D) (K : PageId) (f : frame_id_t) :
  bpm_reachable n d s →
  page_table_ s !! K = Some f →
  (f < n)%nat ∧ id_ (frame s f) = K ∧ (f ∉ free_list_ s) ∧
  (∀ K', page_table_ s !! K' = Some f → K' = K).
Proof.
  intros Hreach HK.
  pose proof (bpm_reachable_inv _ _ _ Hreach) as Hinv.
  destruct (bpm_reachable_replacer _ _ _ Hreach) as [_ Hlen].
  destruct (inv_table_id _ Hinv K f HK) as (pg & Hpg & Hid).
  split; [rewrite <-Hlen; by eapply lookup_lt_Some|].
  split; [by rewrite (frame_lookup _ _ _ Hpg)|].
  split; [by eapply inv_free_table|].
  intros K' HK'. destruct (inv_table_id _ Hinv K' f HK') as (pg' & Hpg' & Hid').
  congruence.
Qed.

Lemma resident_page_has_a_frame_of_its_own_witness :
  (0 < 1)%nat ∧ id_ (frame Examples.pool_released 0%nat) = Examples.pA ∧
  (0%nat ∉ free_list_ Examples.pool_released) ∧
  (∀ K', page_table_ Examples.pool_released !! K' = Some 0%nat → K' = Examples.pA).
Proof.
  apply (resident_page_has_a_frame_of_its_own 1 Examples.disk7
           Examples.pool_released Examples.pA 0%nat).
  - apply reach_step, reach_step, reach_init.
  - vm_compute. reflexivity.
Defined.

Section pool_steps.
Context {D : Type} `{!DiskManager D}.

Local Abbreviation BPM := (BufferPoolManager D).

(** [flush_all_pages] changes dirty flags and the disk, nothing else. *)
Lemma flush_entries_frames file (l : list (PageId * frame_id_t)) (s : BPM) :
  page_table_ (foldr (flush_entry file) s l) = page_table_ s ∧
  free_list_ (foldr (flush_entry file) s l) = free_list_ s ∧
  replacer_ (foldr (flush_entry file) s l) = replacer_ s ∧
  ∀ f, ∃ g : Page → Page,
    pages_ (foldr (flush_entry file) s l) !! f = g <$> (pages_ s !! f) ∧
    ∀ p, id_ (g p) = id_ p ∧ data_ (g p) = data_ p ∧ pin_count_ (g p) = pin_count_ p.
Proof.
  induction l as [|e l (Ht & Hfl & Hrep & Hpages)]; cbn [foldr].
  - split; [done|]. split; [done|]. split; [done|].
    intros f. exists id. split; [by destruct (pages_ s !! f)|done].
  - set (s1 := foldr (flush_entry file) s l) in *.
    unfold flush_entry. destruct (decide (fd e.1 ≠ file)); [by repeat split|].
    split; [done|]. split; [done|]. split; [done|].
    intros f. destruct (Hpages f) as (g & Hg & Hkeep).
    rewrite lookup_upd_frame. cbn [pages_ set_disk].
    destruct (decide (f = e.2)) as [->|Hne].
    + exists (λ p, set_dirty false (g p)). rewrite Hg. split.
      * by destruct (pages_ s !! e.2).
      * intros p. simpl. apply Hkeep.
    + by exists g.
Qed.

Lemma flush_all_pages_frames file (s : BPM) f pg :
  pages_ s !! f = Some pg →
  page_table_ (flush_all_pages file s) = page_table_ s ∧
  ∃ pg', pages_ (flush_all_pages file s) !! f = Some pg' ∧
         id_ pg' = id_ pg ∧ data_ pg' = data_ pg ∧ pin_count_ pg' = pin_count_ pg.
Proof.
  intros Hpg. unfold flush_all_pages.
  destruct (flush_entries_frames file (map_to_list (page_table_ s)) s)
    as (Ht & _ & _ & Hpages).
  split; [done|]. destruct (Hpages f) as (g & Hg & Hkeep).
  exists (g pg). rewrite Hg, Hpg. split; [done|]. apply Hkeep.
Qed.

End pool_steps.

(** One call of the pool, seen from a pinned page. *)
Lemma pinned_page_step {D} `{!DiskManager D}
    (s : BufferPoolManager D) (op : bpm_op) (P : PageId) (f : frame_id_t)
    (pg : Page) :
  bpm_inv s →
  page_table_ s !! P = Some f → pages_ s !! f = Some pg → 0 < pin_count_ pg →
  (∀ g pg', pages_ s !! g = Some pg' → id_ pg' = P → g = f) →
  (∀ fdn, op = OpNew fdn →
     mkPageId fdn (allocate_page (disk_manager_ s) fdn).1 ≠ P) →
  ∃ pg', page_table_ (bpm_exec op s) !! P = Some f ∧
         pages_ (bpm_exec op s) !! f = Some pg' ∧
         id_ pg' = P ∧ data_ pg' = data_ pg ∧
         pin_count_ pg' = pin_count_ pg +
           match op with
           | OpFetch P' =>
               if decide (P' = P) then wrap_int (pin_count_ pg + 1) - pin_count_ pg
               else 0
           | OpUnpin P' _ => if decide (P' = P) then -1 else 0
           | _ => 0
           end.
Proof.
  intros Hinv HP Hpg Hpos Huniq Hnew.
  assert (id_ pg = P) as Hid.
  { destruct (inv_table_id _ Hinv P f HP) as (pg0 & Hpg0 & Hid0). congruence. }
  assert (f < length (pages_ s))%nat as Hlt by by eapply lookup_lt_Some.
  assert (∀ P' g, page_table_ s !! P' = Some g → P' ≠ P → g ≠ f) as Hother.
  { intros P' g HP' Hne ->.
    destruct (inv_table_id _ Hinv P' f HP') as (pg0 & Hpg0 & Hid0). congruence. }
  assert (∃ pg', page_table_ s !! P = Some f ∧ pages_ s !! f = Some pg' ∧
                 id_ pg' = P ∧ data_ pg' = data_ pg ∧
                 pin_count_ pg' = pin_count_ pg + 0) as Hsame.
  { exists pg. rewrite Z.add_0_r. done. }
  destruct op as [P'|P' d0|P'|fdn|P'|file]; simpl.
  - destruct (decide (P' = P)) as [->|Hne].
    + destruct (fetch_page_hit P s f pg HP Hpg) as (s' & -> & Hpages & Ht & _).
      simpl. rewrite Ht, Hpages, list_lookup_insert_eq by done.
      eexists. split; [done|]. split; [done|]. simpl. split; [done|]. split; [done|lia].
    + destruct (page_table_ s !! P') as [g|] eqn:HP'.
      * destruct (inv_table_id _ Hinv P' g HP') as (pgg & Hpgg & Hidg).
        destruct (fetch_page_hit P' s g pgg HP' Hpgg) as (s' & -> & Hpages & Ht & _).
        simpl. rewrite Ht, Hpages, list_lookup_insert_ne by (by apply Hother with P').
        done.
      * destruct (find_victim_page s) as [[g|] s1] eqn:Hv.
        -- destruct (find_victim_page_Some s g s1 Hinv Hv) as ((pgg & Hpgg & Hzero) & _).
           assert (g ≠ f) as Hgf by (intros ->; rewrite Hpg in Hpgg; injection Hpgg as <-; lia).
           destruct (fetch_page_miss P' s g s1 pgg HP' Hv Hpgg Hzero)
             as (s' & -> & _ & _ & Hoth & Ht & _).
           simpl. rewrite Ht, lookup_insert_ne, lookup_delete_ne, Hoth; [done|done| |done].
           intros Heq. by apply Hgf, (Huniq g pgg).
        -- unfold fetch_page. rewrite HP', Hv. simpl.
           by rewrite (find_victim_page_None _ _ Hv).
  - destruct (decide (P' = P)) as [->|Hne].
    + destruct (unpin_page_ok P d0 s f pg HP Hpg Hpos) as (s' & -> & Hpages & Ht & _).
      simpl. rewrite Ht, Hpages, list_lookup_insert_eq by done.
      eexists. split; [done|]. split; [done|]. simpl. split; [done|]. split; [done|lia].
    + destruct (page_table_ s !! P') as [g|] eqn:HP'.
      * destruct (inv_table_id _ Hinv P' g HP') as (pgg & Hpgg & Hidg).
        destruct (decide (0 < pin_count_ pgg)) as [Hpin|Hpin].
        -- destruct (unpin_page_ok P' d0 s g pgg HP' Hpgg Hpin) as (s' & -> & Hpages & Ht & _).
           simpl. rewrite Ht, Hpages, list_lookup_insert_ne by (by apply Hother with P').
           done.
        -- unfold unpin_page. rewrite HP', (frame_lookup _ _ _ Hpgg).
           by rewrite decide_True by lia.
      * unfold unpin_page. by rewrite HP'.
  - unfold flush_page. destruct (page_table_ s !! P') as [g|] eqn:HP'; [|done].
    cbn [snd page_table_ upd_frame set_pages set_disk]. rewrite lookup_upd_frame.
    cbn [pages_ set_disk]. destruct (decide (f = g)) as [<-|Hfg]; [|done].
    rewrite Hpg. simpl. eexists. split; [done|]. split; [done|]. simpl.
    split; [done|]. split; [done|lia].
  - destruct (find_victim_page s) as [[g|] s1] eqn:Hv.
    + destruct (find_victim_page_Some s g s1 Hinv Hv)
        as ((pgg & Hpgg & Hzero) & _ & _ & Hps & Hts & Hds).
      assert (g ≠ f) as Hgf by (intros ->; rewrite Hpg in Hpgg; injection Hpgg as <-; lia).
      destruct (decide ((allocate_page (disk_manager_ s) fdn).1 = INVALID_PAGE_ID))
        as [Hbad|Hgood].
      * unfold new_page. rewrite Hv, Hds.
        destruct (allocate_page (disk_manager_ s) fdn) as [pno d1]. simpl in Hbad.
        rewrite decide_True by done. simpl. by rewrite Hps, Hts.
      * destruct (new_page_some fdn s g s1 pgg Hv Hpgg Hgood)
          as (s' & -> & _ & _ & Hoth & Ht & _).
        simpl. rewrite Ht, lookup_insert_ne, lookup_delete_ne, Hoth; [done|done| |].
        -- intros Heq. by apply Hgf, (Huniq g pgg).
        -- by apply Hnew.
    + unfold new_page. rewrite Hv. simpl. by rewrite (find_victim_page_None _ _ Hv).
  - unfold delete_page. destruct (page_table_ s !! P') as [g|] eqn:HP'; [|done].
    destruct (decide (pin_count_ (frame s g) ≠ 0)) as [|Hzero]; [done|].
    assert (g ≠ f) as Hgf.
    { intros ->. rewrite (frame_lookup _ _ _ Hpg) in Hzero. lia. }
    assert (P' ≠ P) as Hne by (intros ->; congruence).
    cbn [snd page_table_ set_free_list upd_frame set_pages set_page_table set_disk].
    rewrite lookup_delete_ne by done.
    change (∃ pg', page_table_ s !! P = Some f ∧
      pages_ (upd_frame g (set_data zero_data)
                (set_page_table (delete P' (page_table_ s))
                   (set_disk (write_page (disk_manager_ s) (fd P') (page_no P')
                                (data_ (frame s g))) s))) !! f = Some pg' ∧
      id_ pg' = P ∧ data_ pg' = data_ pg ∧ pin_count_ pg' = pin_count_ pg + 0).
    by rewrite lookup_upd_frame_ne.
  - destruct (flush_all_pages_frames file s f pg Hpg) as (Ht & pg' & Hpg' & Hi & Hd & Hp).
    exists pg'. rewrite Ht. split; [done|]. split; [done|].
    split; [congruence|]. split; [done|lia].
Qed.

(** X6.  A pinned page stays where it is.  If the page [P] is in frame [f]
    with a pin count above 0 and no other frame carries its id, then after
    any one call of the pool [P] is still mapped to [f], with the same
    bytes.  Its pin count is one less after [unpin_page(P, _)], the [int]
    that follows it after [fetch_page(P)] ([INT_MIN] after [INT_MAX]), and
    the same otherwise: below [INT_MAX] it has changed by +1, -1 or 0.
    ([new_page] is assumed not to be handed the number of [P] by the
    disk.) *)
Theorem pinned_page_keeps_its_frame {D} `{!DiskManager D}
    (s : BufferPoolManager D) (op : bpm_op) (P : PageId) (f : frame_id_t)
    (pg : Page) :
  bpm_inv s →
  page_table_ s !! P = Some f → pages_ s !! f = Some pg → 0 < pin_count_ pg →
  (∀ g pg', pages_ s !! g = Some pg' → id_ pg' = P → g = f) →
  (∀ fdn, op = OpNew fdn →
     mkPageId fdn (allocate_page (disk_manager_ s) fdn).1 ≠ P) →
  ∃ pg', page_table_ (bpm_exec op s) !! P = Some f ∧
         pages_ (bpm_exec op s) !! f = Some pg' ∧
         id_ pg' = P ∧ data_ pg' = data_ pg ∧
         pin_count_ pg' =
           match op with
           | OpFetch P' =>
               if decide (P' = P) then wrap_int (pin_count_ pg + 1) else pin_count_ pg
           | OpUnpin P' _ =>
               if decide (P' = P) then pin_count_ pg - 1 else pin_count_ pg
           | _ => pin_count_ pg
           end ∧
         (pin_count_ pg < INT_MAX →
          pin_count_ pg' = pin_count_ pg +
            match op with
            | OpFetch P' => if decide (P' = P) then 1 else 0
            | OpUnpin P' _ => if decide (P' = P) then -1 else 0
            | _ => 0
            end).
Proof.
  intros Hinv HP Hpg Hpos Huniq Hnew.
  destruct (pinned_page_step s op P f pg Hinv HP Hpg Hpos Huniq Hnew)
    as (pg' & Ht & Hpg' & Hid & Hdata & Hpin).
  exists pg'. split; [done|]. split; [done|]. split; [done|]. split; [done|].
  split.
  - rewrite Hpin. destruct op; try lia; destruct (decide _); lia.
  - intros Hmax. rewrite Hpin.
    destruct op; try lia; destruct (decide _); try lia.
    rewrite wrap_int_small; [lia|]. unfold INT_MIN, INT_MAX in *. lia.
Qed.

(** ** Calls that fail, [flush_page] and [delete_page] *)

(** X7.  A call that fails leaves the pool as it was: [fetch_page] that
    returns [nullptr], [flush_page] and [delete_page] that return [false],
    and [new_page] that returns [nullptr] although the disk had a page
    number to give (it found no frame, and has not called
    [allocate_page]). *)
Theorem failed_calls_leave_the_pool_unchanged {D} `{!DiskManager D}
    (s : BufferPoolManager D) (P : PageId) (fdn : Z) :
  ((fetch_page P s).1 = None → (fetch_page P s).2 = s) ∧
  ((flush_page P s).1 = false → (flush_page P s).2 = s) ∧
  ((delete_page P s).1 = false → (delete_page P s).2 = s) ∧
  ((new_page fdn s).1 = None →
   (allocate_page (disk_manager_ s) fdn).1 ≠ INVALID_PAGE_ID →
   (new_page fdn s).2 = s).
Proof.
  split; [|split; [|split]].
  - unfold fetch_page. destruct (page_table_ s !! P); [done|].
    destruct (find_victim_page s) as [[g|] s1] eqn:Hv; [done|].
    intros _. simpl. by apply find_victim_page_None.
  - unfold flush_page. by destruct (page_table_ s !! P).
  - unfold delete_page. destruct (page_table_ s !! P); [|done].
    by destruct (decide _).
  - unfold new_page. destruct (find_victim_page s) as [[g|] s1] eqn:Hv.
    + assert (disk_manager_ s1 = disk_manager_ s) as ->.
      { unfold find_victim_page in Hv. destruct (free_list_ s).
        - destruct (LRU.victim (replacer_ s)). by injection Hv as _ <-.
        - by injection Hv as _ <-. }
      destruct (allocate_page (disk_manager_ s) fdn) as [pno d1]. simpl.
      destruct (decide _); [done|]. by intros [=].
    + intros _ _. simpl. by apply find_victim_page_None.
Qed.

Section pool_disk.
Context {D : Type} `{!DiskManager D} `{!DiskLaws D}.

Local Abbreviation BPM := (BufferPoolManager D).

(** X8.  [flush_page] of a resident page, pinned or not, returns [true];
    the disk then holds the bytes of the frame for that page and what it
    held for every other page, the frame is clean, and nothing else in the
    pool has changed. *)
Theorem flush_page_writes_the_frame (s : BPM) (P : PageId) (f : frame_id_t)
    (pg : Page) :
  page_table_ s !! P = Some f → pages_ s !! f = Some pg →
  ∃ s', flush_page P s = (true, s') ∧
    read_page (disk_manager_ s') (fd P) (page_no P) = data_ pg ∧
    (∀ K, K ≠ P → read_page (disk_manager_ s') (fd K) (page_no K)
                  = read_page (disk_manager_ s) (fd K) (page_no K)) ∧
    pages_ s' = <[f := set_dirty false pg]> (pages_ s) ∧
    page_table_ s' = page_table_ s ∧ free_list_ s' = free_list_ s ∧
    replacer_ s' = replacer_ s.
Proof.
  intros HP Hpg. unfold flush_page. rewrite HP.
  unfold upd_frame, frame. cbn [pages_ set_disk].
  rewrite (list_lookup_total_correct _ _ _ Hpg).
  eexists. split; [done|].
  cbn [disk_manager_ pages_ page_table_ free_list_ replacer_ set_pages set_disk].
  split; [apply read_write_eq|]. split; [|done].
  intros K HK. apply read_write_ne. rewrite !PageId_eta. done.
Qed.

(** X9.  [delete_page] of a resident page whose pin count is 0 writes the
    bytes of the frame to the disk, takes the page out of the page table,
    clears the bytes of the frame and puts the frame at the back of the
    free list; the frame keeps its page id and its dirty flag, and the
    replacer is not told.  With a pin count other than 0 it returns
    [false] and changes nothing. *)
Theorem delete_page_frees_the_frame (s : BPM) (P : PageId) (f : frame_id_t)
    (pg : Page) :
  page_table_ s !! P = Some f → pages_ s !! f = Some pg →
  if decide (pin_count_ pg = 0) then
    ∃ s', delete_page P s = (true, s') ∧
      page_table_ s' = delete P (page_table_ s) ∧
      free_list_ s' = free_list_ s ++ [f] ∧
      replacer_ s' = replacer_ s ∧
      pages_ s' = <[f := mkPage (id_ pg) zero_data (is_dirty_ pg) 0]> (pages_ s) ∧
      read_page (disk_manager_ s') (fd P) (page_no P) = data_ pg
  else delete_page P s = (false, s).
Proof.
  intros HP Hpg. unfold delete_page. rewrite HP.
  unfold upd_frame, frame. cbn [pages_ set_disk set_page_table].
  rewrite (list_lookup_total_correct _ _ _ Hpg).
  destruct (decide (pin_count_ pg = 0)) as [Hz|Hnz].
  - rewrite decide_False by (intros ?; done). eexists. split; [done|].
    cbn [disk_manager_ pages_ page_table_ free_list_ replacer_ set_pages
         set_disk set_page_table set_free_list].
    split; [done|]. split; [done|]. split; [done|].
    split; [|apply read_write_eq].
    f_equal. destruct pg. simpl in *. by subst.
  - by rewrite decide_True.
Qed.

(** X10.  [delete_page] leaves the dirty flag and the page id in the frame
    it cleared.  So when a dirty page is deleted and its frame is the next
    one taken from the free list, [update_page] writes the cleared bytes
    over the page that [delete_page] had just saved: the disk then holds
    zeros for the deleted page, and fetching that very page returns zeros. *)
Theorem deleted_dirty_page_is_overwritten_on_reuse (s : BPM) (P P' : PageId)
    (f : frame_id_t) (pg : Page) :
  page_table_ s !! P = Some f → pages_ s !! f = Some pg →
  id_ pg = P → pin_count_ pg = 0 → is_dirty_ pg = true →
  free_list_ s = [] →
  P' = P ∨ page_table_ s !! P' = None →
  read_page (disk_manager_ (delete_page P s).2) (fd P) (page_no P) = data_ pg ∧
  ∃ s2, fetch_page P' (delete_page P s).2 = (Some f, s2) ∧
        read_page (disk_manager_ s2) (fd P) (page_no P) = zero_data ∧
        (P' = P → data_ (frame s2 f) = zero_data).
Proof.
  intros HP Hpg Hid Hz Hdirty Hfree HP'.
  pose proof (delete_page_frees_the_frame s P f pg HP Hpg) as Hdel.
  rewrite decide_True in Hdel by done.
  destruct Hdel as (s1 & Hs1 & Ht1 & Hfl1 & _ & Hps1 & Hd1).
  rewrite Hs1. cbn [snd]. split; [done|].
  assert (f < length (pages_ s))%nat as Hlt by by eapply lookup_lt_Some.
  assert (pages_ s1 !! f = Some (mkPage P zero_data true 0)) as Hpg1.
  { rewrite Hps1, list_lookup_insert_eq by done. by rewrite Hid, Hdirty. }
  assert (page_table_ s1 !! P' = None) as HP1.
  { rewrite Ht1. destruct HP' as [->|HP']; [apply lookup_delete_eq|].
    rewrite lookup_delete_None. by right. }
  assert (find_victim_page s1 = (Some f, set_free_list [] s1)) as Hv.
  { unfold find_victim_page. by rewrite Hfl1, Hfree. }
  destruct (fetch_page_miss P' s1 f _ _ HP1 Hv Hpg1 eq_refl)
    as (s2 & Hs2 & Hd2 & Hf2 & _).
  exists s2. split; [done|]. cbn [is_dirty_ id_ data_] in Hd2.
  assert (read_page (disk_manager_ s2) (fd P) (page_no P) = zero_data) as Hzero
    by (rewrite Hd2; apply read_write_eq).
  split; [done|]. intros ->.
  rewrite (frame_lookup _ _ _ Hf2). simpl. done.
Qed.

End pool_disk.

Section pool_stale.
Context {D : Type} `{!DiskManager D}.

Local Abbreviation BPM := (BufferPoolManager D).

(** X11.  [update_page] erases the page-table entry of the id it finds in
    the frame it is given.  When that frame comes from the free list with
    the id [P] that [delete_page] left in it, and [P] has meanwhile been
    fetched into another frame [f], the entry of [P] is erased although
    frame [f] still holds the page, with its pins: [P] is no longer
    resident for [unpin_page] or [fetch_page]. *)
Theorem reused_frame_erases_the_entry_of_its_old_id (s : BPM) (P P' : PageId)
    (f g : frame_id_t) (rest : list frame_id_t) (pgg : Page) :
  bpm_inv s →
  free_list_ s = g :: rest → pages_ s !! g = Some pgg → id_ pgg = P →
  page_table_ s !! P = Some f → page_table_ s !! P' = None →
  ∃ s', fetch_page P' s = (Some g, s') ∧
        page_table_ s' !! P = None ∧
        pages_ s' !! f = pages_ s !! f ∧
        ∀ d0, unpin_page P d0 s' = (false, s').
Proof.
  intros Hinv Hfl Hpgg Hid HP HP'.
  assert (find_victim_page s = (Some g, set_free_list rest s)) as Hv.
  { unfold find_victim_page. by rewrite Hfl. }
  destruct (find_victim_page_Some s g _ Hinv Hv) as ((pg0 & Hpg0 & Hzero) & _).
  rewrite Hpgg in Hpg0. injection Hpg0 as <-.
  assert (g ≠ f) as Hgf.
  { intros ->. apply (inv_free_table _ Hinv P f HP). rewrite Hfl. by left. }
  assert (P ≠ P') as Hne by (intros ->; congruence).
  destruct (fetch_page_miss P' s g _ pgg HP' Hv Hpgg Hzero)
    as (s' & Hs' & _ & _ & Hoth & Ht & _).
  exists s'. split; [done|].
  assert (page_table_ s' !! P = None) as Hgone.
  { rewrite Ht, lookup_insert_ne, Hid by done. apply lookup_delete_eq. }
  split; [done|]. split; [by apply Hoth|].
  intros d0. unfold unpin_page. by rewrite Hgone.
Qed.

End pool_stale.

(** ** [flush_all_pages] *)

Section pool_flush_all.
Context {D : Type} `{!DiskManager D} `{!DiskLaws D}.

Local Abbreviation BPM := (BufferPoolManager D).

Lemma flush_entries_disk file (l : list (PageId * frame_id_t)) (s : BPM) :
  bpm_inv s → NoDup l.*1 →
  (∀ K g, (K, g) ∈ l → page_table_ s !! K = Some g) →
  (∀ K g, (K, g) ∈ l → fd K = file →
     read_page (disk_manager_ (foldr (flush_entry file) s l)) (fd K) (page_no K)
     = data_ (frame s g) ∧
     is_dirty_ (frame (foldr (flush_entry file) s l) g) = false) ∧
  (∀ fdn pno, (∀ g, (mkPageId fdn pno, g) ∈ l → fdn ≠ file) →
     read_page (disk_manager_ (foldr (flush_entry file) s l)) fdn pno
     = read_page (disk_manager_ s) fdn pno) ∧
  (∀ g, is_dirty_ (frame s g) = false →
        is_dirty_ (frame (foldr (flush_entry file) s l) g) = false).
Proof.
  intros Hinv. induction l as [|e l IH]; intros Hnd Hin; cbn [foldr].
  - split; [by intros K g ?%elem_of_nil|]. done.
  - apply NoDup_cons in Hnd as [Hfresh Hnd].
    destruct IH as (IHa & IHb & IHc);
      [done|intros K g HKg; apply Hin; by right|].
    destruct (flush_entries_frames file l s) as (_ & _ & _ & Hframes).
    set (s1 := foldr (flush_entry file) s l) in *.
    assert (∀ K g, page_table_ s !! K = Some g →
              id_ (frame s1 g) = K ∧ data_ (frame s1 g) = data_ (frame s g)) as Hfr.
    { intros K g HK. destruct (inv_table_id _ Hinv K g HK) as (pg & Hpg & Hid).
      destruct (Hframes g) as (h & Hh & Hkeep). rewrite Hpg in Hh.
      rewrite (frame_lookup _ _ _ Hh), (frame_lookup _ _ _ Hpg).
      destruct (Hkeep pg) as (-> & -> & _). done. }
    destruct e as [K0 g0]. assert (page_table_ s !! K0 = Some g0) as HK0
      by (apply Hin; by left).
    destruct (Hfr K0 g0 HK0) as [Hid0 Hdata0].
    unfold flush_entry. cbn [fst snd].
    destruct (decide (fd K0 ≠ file)) as [Hno|Hyes].
    + split; [|split; [|done]].
      * intros K g [[= -> ->]|HKg]%elem_of_cons Hfd; [done|]. by apply IHa.
      * intros fdn pno Hall. apply IHb. intros g Hg. apply (Hall g). by right.
    + assert (fd K0 = file) as Hfd0 by (by destruct (decide (fd K0 = file))).
      set (s2 := upd_frame g0 (set_dirty false)
                   (set_disk (write_page (disk_manager_ s1) file
                      (page_no (id_ (frame s1 g0))) (data_ (frame s1 g0))) s1)).
      assert (∀ g, is_dirty_ (frame s2 g)
              = if decide (g = g0) then false else is_dirty_ (frame s1 g)) as Hdirty.
      { intros g. unfold frame at 1. rewrite list_lookup_total_alt.
        unfold s2. rewrite lookup_upd_frame.
        cbn [pages_ set_disk]. destruct (decide (g = g0)) as [->|Hne].
        - by destruct (pages_ s1 !! g0).
        - unfold frame. by rewrite list_lookup_total_alt. }
      assert (disk_manager_ s2 = write_page (disk_manager_ s1) (fd K0) (page_no K0)
                                   (data_ (frame s g0))) as Hdisk.
      { unfold s2. cbn [disk_manager_ upd_frame set_pages set_disk].
        by rewrite Hid0, Hdata0, Hfd0. }
      clearbody s2. rewrite Hdisk.
      split; [|split].
      * intros K g [[= -> ->]|HKg]%elem_of_cons Hfd.
        -- split; [by rewrite read_write_eq|].
           by rewrite Hdirty, decide_True.
        -- destruct (IHa K g HKg Hfd) as [Hread Hcl]. split.
           ++ rewrite read_write_ne; [done|]. rewrite !PageId_eta.
              intros ->. apply Hfresh. apply list_elem_of_fmap. by exists (K, g).
           ++ rewrite Hdirty. by destruct (decide (g = g0)).
      * intros fdn pno Hall. rewrite read_write_ne.
        -- apply IHb. intros g Hg. apply (Hall g). by right.
        -- rewrite PageId_eta. intros Heq.
           apply (Hall g0); [rewrite <-Heq; by left|].
           by rewrite <-Hfd0, Heq.
      * intros g Hg. rewrite Hdirty. destruct (decide (g = g0)); [done|by apply IHc].
Qed.

(** X12.  [flush_all_pages(fd)] writes every resident page of the file
    [fd] to the disk and clears its dirty flag; the pages of other files
    are not written, and nothing is evicted or unpinned: the page table,
    the free list, the replacer, and the id, bytes and pin count of every
    frame are as before. *)
Theorem flush_all_pages_writes_the_file (s : BPM) (file : Z) :
  bpm_inv s →
  page_table_ (flush_all_pages file s) = page_table_ s ∧
  free_list_ (flush_all_pages file s) = free_list_ s ∧
  replacer_ (flush_all_pages file s) = replacer_ s ∧
  (∀ f pg, pages_ s !! f = Some pg →
     ∃ pg', pages_ (flush_all_pages file s) !! f = Some pg' ∧
            id_ pg' = id_ pg ∧ data_ pg' = data_ pg ∧
            pin_count_ pg' = pin_count_ pg) ∧
  (∀ K g, page_table_ s !! K = Some g → fd K = file →
     read_page (disk_manager_ (flush_all_pages file s)) (fd K) (page_no K)
     = data_ (frame s g) ∧
     is_dirty_ (frame (flush_all_pages file s) g) = false) ∧
  (∀ fdn pno, fdn ≠ file →
     read_page (disk_manager_ (flush_all_pages file s)) fdn pno
     = read_page (disk_manager_ s) fdn pno).
Proof.
  intros Hinv. unfold flush_all_pages.
  destruct (flush_entries_frames file (map_to_list (page_table_ s)) s)
    as (Ht & Hfl & Hrep & Hframes).
  destruct (flush_entries_disk file (map_to_list (page_table_ s)) s Hinv)
    as (Ha & Hb & _).
  { apply NoDup_fst_map_to_list. }
  { intros K g HKg. by apply elem_of_map_to_list. }
  split; [done|]. split; [done|]. split; [done|]. split; [|split].
  - intros f pg Hpg. destruct (Hframes f) as (h & Hh & Hkeep).
    exists (h pg). rewrite Hh, Hpg. split; [done|]. apply Hkeep.
  - intros K g HK Hfd. apply Ha; [|done]. by apply elem_of_map_to_list.
  - intros fdn pno Hne. apply Hb. by intros g _.
Qed.

End pool_flush_all.

(** ** Releasing a page, fetching and creating pages *)

(** X13.  In every state the pool can reach, the [unpin_page] that takes
    the pin count of a page from 1 to 0 puts its frame at the front of the
    replacer's list (the capacity test of [unpin] never turns it away), and
    after it [fetch_page] finds a frame for any page. *)
Theorem released_page_makes_room {D} `{!DiskManager D} n (d : D)
    (s : BufferPoolManager D) (P : PageId) (dirty : bool) (f : frame_id_t) :
  bpm_reachable n d s →
  page_table_ s !! P = Some f → pin_count_ (frame s f) = 1 →
  LRUlist_ (replacer_ (unpin_page P dirty s).2) = f :: LRUlist_ (replacer_ s) ∧
  ∀ P', is_Some (fetch_page P' (unpin_page P dirty s).2).1.
Proof.
  intros Hreach HP Hone.
  pose proof (bpm_reachable_inv _ _ _ Hreach) as Hinv.
  destruct (bpm_reachable_replacer _ _ _ Hreach) as [[ops Hrep] Hlen].
  destruct (lru_init_keeps n ops) as (Hnd & Hiff & _ & Hmax).
  rewrite <-Hrep in Hnd, Hiff, Hmax.
  destruct (inv_table_id _ Hinv P f HP) as (pg & Hpg & Hid).
  rewrite (frame_lookup _ _ _ Hpg) in Hone.
  assert (f ∉ LRUlist_ (replacer_ s)) as Hnin.
  { intros Hin. destruct (inv_lru_pin _ Hinv f Hin) as (pg' & Hpg' & Hz).
    rewrite Hpg in Hpg'. injection Hpg' as <-. lia. }
  assert (length (LRUlist_ (replacer_ s)) < n)%nat as Hroom.
  { apply (distinct_frames_length _ f); [done|done| |].
    - rewrite <-Hlen. by eapply lookup_lt_Some.
    - intros x Hx. destruct (inv_lru_pin _ Hinv x Hx) as (pg' & Hpg' & _).
      rewrite <-Hlen. by eapply lookup_lt_Some. }
  destruct (unpin_page_replacer P dirty s f pg HP Hpg) as [Hrep' Hfl']; [lia|].
  rewrite decide_True in Hrep' by lia.
  assert (LRUlist_ (replacer_ (unpin_page P dirty s).2) = f :: LRUlist_ (replacer_ s))
    as Hlist.
  { rewrite Hrep'. unfold LRU.unpin. rewrite decide_True; [done|].
    split; [by rewrite <-Hiff|]. unfold LRU.Size. by rewrite Hmax. }
  split; [done|]. intros P'.
  pose proof (unpin_page_inv P dirty s Hinv) as Hinv'.
  set (s' := (unpin_page P dirty s).2) in *.
  unfold fetch_page. destruct (page_table_ s' !! P') as [g|]; [by eexists|].
  assert (∃ g s1, find_victim_page s' = (Some g, s1)) as (g & s1 & ->).
  { unfold find_victim_page. destruct (free_list_ s') as [|g rest]; [|by eauto].
    destruct (scan_back_is_Some (replacer_ s')) as [x Hx].
    - by rewrite Hlist.
    - apply (inv_lru_hash _ Hinv').
    - unfold LRU.victim. rewrite Hlist, Hx. by eauto. }
  by eexists.
Qed.

Section pool_contents.
Context {D : Type} `{!DiskManager D} `{!DiskLaws D}.

Local Abbreviation BPM := (BufferPoolManager D).

(** X14.  [fetch_page] does not change what any page holds.  In a pool
    whose clean frames that the replacer may hand out have the bytes that
    are on the disk (and whose frames are those of the page table), the
    bytes of every page, in
    its frame if it is resident and on the disk otherwise, are the same
    after [fetch_page] as before, whichever frame was evicted and written
    back; and the pool is again such a pool. *)
Theorem fetch_page_keeps_page_contents (s : BPM) (P : PageId) :
  pool_ok s → 0 ≤ page_no P →
  pool_ok (fetch_page P s).2 ∧
  ∀ fdn pno, 0 ≤ pno →
    page_view_at fdn (fetch_page P s).2 pno = page_view_at fdn s pno.
Proof.
  intros Hok Hpno. destruct (fetch_page_ok P s Hok Hpno) as (Hok' & Hview & _).
  done.
Qed.

End pool_contents.

(** X15.  [new_page] that succeeds returns a frame that was not pinned,
    now holding the page whose number the disk allocated for [fd]: the
    bytes are zero, the dirty flag is clear, the pin count is 1, the page
    table maps the new id to the frame, and the frame is neither on the
    free list nor in the replacer; the other frames are untouched. *)
Theorem new_page_gives_a_zeroed_pinned_frame {D} `{!DiskManager D}
    (s s' : BufferPoolManager D) (fdn : Z) (f : frame_id_t) (pid : PageId) :
  bpm_inv s →
  new_page fdn s = (Some (f, pid), s') →
  pid = mkPageId fdn (allocate_page (disk_manager_ s) fdn).1 ∧
  page_no pid ≠ INVALID_PAGE_ID ∧
  pin_count_ (frame s f) = 0 ∧
  pages_ s' !! f = Some (mkPage pid zero_data false 1) ∧
  page_table_ s' !! pid = Some f ∧
  (f ∉ free_list_ s') ∧ (f ∉ LRUlist_ (replacer_ s')) ∧
  (∀ g, g ≠ f → pages_ s' !! g = pages_ s !! g).
Proof.
  intros Hinv Hn.
  destruct (new_page_Some_inv fdn s f pid s' Hinv Hn) as (Hpid & Hgood & Hf & Ht).
  destruct (find_victim_page s) as [[g|] s1] eqn:Hv.
  - destruct (find_victim_page_Some s g s1 Hinv Hv)
      as ((pg & Hpg & Hz) & Hinv1 & Hfree1 & _).
    destruct (new_page_some fdn s g s1 pg Hv Hpg Hgood)
      as (s'' & Hs'' & _ & _ & Hoth & _ & Hfl).
    rewrite Hs'' in Hn. injection Hn as <- _ <-.
    destruct (new_page_replacer fdn s g pid s'' s1 Hv) as [Hrep _];
      [by rewrite Hs'', Hpid|].
    split; [done|]. split; [by rewrite Hpid|].
    split; [by rewrite (frame_lookup _ _ _ Hpg)|].
    split; [done|]. split; [done|].
    split; [by rewrite Hfl|]. split; [|done].
    rewrite Hrep. unfold LRU.pin. destruct (decide _) as [Hin|Hnin]; simpl.
    + apply erase_node_gone, (inv_lru_nodup _ Hinv1).
    + intros Hin. by apply Hnin, (inv_lru_hash _ Hinv1).
  - unfold new_page in Hn. by rewrite Hv in Hn.
Qed.

(** ** The pool theorems at concrete pools *)

Lemma pool_pinned_inv : bpm_inv Examples.pool_pinned.
Proof. apply (bpm_reachable_inv 2 Examples.disk7), reach_step, reach_init. Qed.

Lemma pool_stale_inv : bpm_inv Examples.pool_stale.
Proof.
  apply (bpm_reachable_inv 2 Examples.disk7).
  apply reach_step, reach_step, reach_step, reach_step, reach_init.
Qed.

Lemma pool_written_inv : bpm_inv Examples.pool_written.
Proof.
  apply unpin_page_inv, upd_frame_inv_same; [|done].
  apply fetch_page_inv, bpm_init_inv.
Qed.

Lemma pinned_page_keeps_its_frame_witness :
  ∃ pg', page_table_ (bpm_exec (OpFetch Examples.pA) Examples.pool_pinned)
           !! Examples.pA = Some 0%nat ∧
         pages_ (bpm_exec (OpFetch Examples.pA) Examples.pool_pinned) !! 0%nat
           = Some pg' ∧
         id_ pg' = Examples.pA ∧ data_ pg' = data_ Examples.page_pinned ∧
         pin_count_ pg' = 2.
Proof.
  destruct (pinned_page_keeps_its_frame Examples.pool_pinned (OpFetch Examples.pA)
              Examples.pA 0%nat Examples.page_pinned)
    as (pg' & Ht & Hpg' & Hid & Hdata & Hpin & _).
  - apply pool_pinned_inv.
  - vm_compute. reflexivity.
  - vm_compute. reflexivity.
  - vm_compute. reflexivity.
  - intros [|[|g]] pg' Hl Hid; [done| |].
    + vm_compute in Hl. injection Hl as <-. vm_compute in Hid. discriminate.
    + vm_compute in Hl. discriminate.
  - intros fdn Hop. discriminate.
  - exists pg'. split; [done|]. split; [done|]. split; [done|]. split; [done|].
    rewrite Hpin. vm_compute. reflexivity.
Defined.

Lemma flush_page_writes_the_frame_witness :
  ∃ s', flush_page Examples.pA Examples.pool_written = (true, s') ∧
    read_page (disk_manager_ s') (fd Examples.pA) (page_no Examples.pA)
      = data_ Examples.page_written ∧
    (∀ K, K ≠ Examples.pA →
       read_page (disk_manager_ s') (fd K) (page_no K)
       = read_page (disk_manager_ Examples.pool_written) (fd K) (page_no K)) ∧
    pages_ s' = <[0%nat := set_dirty false Examples.page_written]>
                  (pages_ Examples.pool_written) ∧
    page_table_ s' = page_table_ Examples.pool_written ∧
    free_list_ s' = free_list_ Examples.pool_written ∧
    replacer_ s' = replacer_ Examples.pool_written.
Proof.
  apply (flush_page_writes_the_frame Examples.pool_written Examples.pA 0%nat
           Examples.page_written); vm_compute; reflexivity.
Defined.

Lemma delete_page_frees_the_frame_witness :
  if decide (pin_count_ Examples.page_written = 0) then
    ∃ s', delete_page Examples.pA Examples.pool_written = (true, s') ∧
      page_table_ s' = delete Examples.pA (page_table_ Examples.pool_written) ∧
      free_list_ s' = free_list_ Examples.pool_written ++ [0%nat] ∧
      replacer_ s' = replacer_ Examples.pool_written ∧
      pages_ s' = <[0%nat := mkPage (id_ Examples.page_written) zero_data
                               (is_dirty_ Examples.page_written) 0]>
                    (pages_ Examples.pool_written) ∧
      read_page (disk_manager_ s') (fd Examples.pA) (page_no Examples.pA)
        = data_ Examples.page_written
  else delete_page Examples.pA Examples.pool_written = (false, Examples.pool_written).
Proof.
  apply (delete_page_frees_the_frame Examples.pool_written Examples.pA 0%nat
           Examples.page_written); vm_compute; reflexivity.
Defined.

Lemma deleted_dirty_page_is_overwritten_on_reuse_witness :
  read_page (disk_manager_ (delete_page Examples.pA Examples.pool_written).2)
    (fd Examples.pA) (page_no Examples.pA) = data_ Examples.page_written ∧
  ∃ s2, fetch_page Examples.pA (delete_page Examples.pA Examples.pool_written).2
          = (Some 0%nat, s2) ∧
        read_page (disk_manager_ s2) (fd Examples.pA) (page_no Examples.pA)
          = zero_data ∧
        (Examples.pA = Examples.pA → data_ (frame s2 0%nat) = zero_data).
Proof.
  apply (deleted_dirty_page_is_overwritten_on_reuse Examples.pool_written
           Examples.pA Examples.pA 0%nat Examples.page_written);
    try (vm_compute; reflexivity).
  by left.
Defined.

Lemma reused_frame_erases_the_entry_of_its_old_id_witness :
  ∃ s', fetch_page Examples.pB Examples.pool_stale = (Some 0%nat, s') ∧
        page_table_ s' !! Examples.pA = None ∧
        pages_ s' !! 1%nat = pages_ Examples.pool_stale !! 1%nat ∧
        ∀ d0, unpin_page Examples.pA d0 s' = (false, s').
Proof.
  apply (reused_frame_erases_the_entry_of_its_old_id Examples.pool_stale
           Examples.pA Examples.pB 1%nat 0%nat [] (mkPage Examples.pA zero_data false 0)).
  - apply pool_stale_inv.
  - vm_compute. reflexivity.
  - vm_compute. reflexivity.
  - reflexivity.
  - vm_compute. reflexivity.
  - vm_compute. reflexivity.
Defined.

Lemma flush_all_pages_writes_the_file_witness :
  page_table_ (flush_all_pages 7 Examples.pool_written)
    = page_table_ Examples.pool_written ∧
  free_list_ (flush_all_pages 7 Examples.pool_written)
    = free_list_ Examples.pool_written ∧
  replacer_ (flush_all_pages 7 Examples.pool_written)
    = replacer_ Examples.pool_written ∧
  (∀ f pg, pages_ Examples.pool_written !! f = Some pg →
     ∃ pg', pages_ (flush_all_pages 7 Examples.pool_written) !! f = Some pg' ∧
            id_ pg' = id_ pg ∧ data_ pg' = data_ pg ∧
            pin_count_ pg' = pin_count_ pg) ∧
  (∀ K g, page_table_ Examples.pool_written !! K = Some g → fd K = 7 →
     read_page (disk_manager_ (flush_all_pages 7 Examples.pool_written))
       (fd K) (page_no K)
     = data_ (frame Examples.pool_written g) ∧
     is_dirty_ (frame (flush_all_pages 7 Examples.pool_written) g) = false) ∧
  (∀ fdn pno, fdn ≠ 7 →
     read_page (disk_manager_ (flush_all_pages 7 Examples.pool_written)) fdn pno
     = read_page (disk_manager_ Examples.pool_written) fdn pno).
Proof.
  apply (flush_all_pages_writes_the_file Examples.pool_written 7).
  apply pool_written_inv.
Defined.

Lemma released_page_makes_room_witness :
  LRUlist_ (replacer_ (unpin_page Examples.pA false Examples.pool_pinned).2)
    = 0%nat :: LRUlist_ (replacer_ Examples.pool_pinned) ∧
  ∀ P', is_Some (fetch_page P' (unpin_page Examples.pA false Examples.pool_pinned).2).1.
Proof.
  apply (released_page_makes_room 2 Examples.disk7 Examples.pool_pinned
           Examples.pA false 0%nat).
  - apply reach_step, reach_init.
  - vm_compute. reflexivity.
  - vm_compute. reflexivity.
Defined.

Lemma file_small_after_inv : file_inv Examples.file_small_after.
Proof.
  apply (run_rm_calls_inv Examples.calls_small Examples.file_small).
  - apply fresh_file_inv. lia.
  - vm_compute.
    repeat match goal with
           | |- _ ∧ _ => split
           | |- True => exact I
           end; try reflexivity; discriminate.
  - vm_compute. reflexivity.
Qed.

Lemma fetch_page_keeps_page_contents_witness :
  pool_ok (fetch_page Examples.pA
             (buffer_pool_manager_ Examples.file_small_after)).2 ∧
  ∀ fdn pno, 0 ≤ pno →
    page_view_at fdn
      (fetch_page Examples.pA (buffer_pool_manager_ Examples.file_small_after)).2 pno
    = page_view_at fdn (buffer_pool_manager_ Examples.file_small_after) pno.
Proof.
  apply (fetch_page_keeps_page_contents
           (buffer_pool_manager_ Examples.file_small_after) Examples.pA).
  - apply (fi_pool _ file_small_after_inv).
  - vm_compute. discriminate.
Defined.

Lemma new_page_gives_a_zeroed_pinned_frame_witness :
  mkPageId 7 1 = mkPageId 7 (allocate_page (disk_manager_ (bpm_init 1 Examples.disk7)) 7).1 ∧
  page_no (mkPageId 7 1) ≠ INVALID_PAGE_ID ∧
  pin_count_ (frame (bpm_init 1 Examples.disk7) 0%nat) = 0 ∧
  pages_ (new_page 7 (bpm_init 1 Examples.disk7)).2 !! 0%nat
    = Some (mkPage (mkPageId 7 1) zero_data false 1) ∧
  page_table_ (new_page 7 (bpm_init 1 Examples.disk7)).2 !! mkPageId 7 1 = Some 0%nat ∧
  (0%nat ∉ free_list_ (new_page 7 (bpm_init 1 Examples.disk7)).2) ∧
  (0%nat ∉ LRUlist_ (replacer_ (new_page 7 (bpm_init 1 Examples.disk7)).2)) ∧
  (∀ g, g ≠ 0%nat →
     pages_ (new_page 7 (bpm_init 1 Examples.disk7)).2 !! g
     = pages_ (bpm_init 1 Examples.disk7) !! g).
Proof.
  apply (new_page_gives_a_zeroed_pinned_frame (bpm_init 1 Examples.disk7)
           (new_page 7 (bpm_init 1 Examples.disk7)).2 7 0%nat (mkPageId 7 1)).
  - apply bpm_init_inv.
  - vm_compute. reflexivity.
Defined.

(** ** Records of a well-formed file *)

Section record_more.
Context {D : Type} `{!DiskManager D} `{!DiskLaws D}.

Local Abbreviation FH := (RmFileHandle D).

(** When [fetch_page_handle] gives a frame, the pool gave one. *)
Lemma fetch_page_handle_fetch pno (fh : FH) h fh1 :
  fetch_page_handle pno fh = (h, fh1) →
  h = (if decide (0 ≤ pno < num_pages (file_hdr_ fh))
       then (fetch_page (mkPageId (fd_ fh) pno) (buffer_pool_manager_ fh)).1
       else None) ∧
  file_hdr_ fh1 = file_hdr_ fh ∧ fd_ fh1 = fd_ fh.
Proof.
  unfold fetch_page_handle. destruct (decide (pno < 0 ∨ _)) as [Hout|Hin].
  - intros [= <- <-]. by rewrite decide_False by lia.
  - rewrite decide_True by lia.
    destruct (fetch_page _ _) as [r b]. by intros [= <- <-].
Qed.

(** The pin count of the page once [fetch_page_handle] has pinned it. *)
Lemma fetch_page_handle_pin pno (fh : FH) f fh1 :
  bpm_inv (buffer_pool_manager_ fh) →
  fetch_page_handle pno fh = (Some f, fh1) →
  page_pin_count fh1 pno = wrap_int (page_pin_count fh pno + 1).
Proof.
  intros Hinv Hc. unfold fetch_page_handle in Hc.
  destruct (decide _); [done|].
  pose proof (fetch_page_pin_count (mkPageId (fd_ fh) pno) _ Hinv) as Hpin.
  destruct (fetch_page _ _) as [r b]. injection Hc as -> <-.
  simpl in Hpin. unfold page_pin_count. simpl. done.
Qed.

(** A frame that [fetch_page_handle] gave has been rewritten to [pg'],
    out of the reach of the replacer or dirty. *)
Lemma handle_written pno (fh : FH) f fh1 pg fh' pg' :
  file_inv fh → fetch_page_handle pno fh = (Some f, fh1) →
  pages_ (buffer_pool_manager_ fh1) !! f = Some pg →
  bpm_inv (buffer_pool_manager_ fh') →
  reframed (buffer_pool_manager_ fh1) (buffer_pool_manager_ fh') f pg' →
  id_ pg' = id_ pg →
  (f ∉ LRUlist_ (replacer_ (buffer_pool_manager_ fh')) ∨ is_dirty_ pg' = true) ∧
  (∀ g, g ≠ f → g ∈ LRUlist_ (replacer_ (buffer_pool_manager_ fh')) →
        g ∈ LRUlist_ (replacer_ (buffer_pool_manager_ fh1))) →
  fd_ fh' = fd_ fh1 →
  num_pages (file_hdr_ fh') = num_pages (file_hdr_ fh1) →
  num_records_per_page (file_hdr_ fh') = num_records_per_page (file_hdr_ fh1) →
  (RM_FIRST_RECORD_PAGE ≤ pno →
   num_records (page_hdr (data_ pg'))
   = count_set (bitmap (data_ pg')) (num_records_per_page (file_hdr_ fh))) →
  file_inv fh' ∧ fd_ fh' = fd_ fh ∧
  (∀ q, 0 ≤ q → page_view fh' q =
     if decide (q = pno) then data_ pg' else page_view fh q) ∧
  page_view fh pno = data_ pg ∧
  page_table_ (buffer_pool_manager_ fh') !! mkPageId (fd_ fh) pno = Some f ∧
  pages_ (buffer_pool_manager_ fh') !! f = Some pg' ∧
  page_pin_count fh' pno = pin_count_ pg' ∧
  pin_count_ pg = wrap_int (page_pin_count fh pno + 1).
Proof.
  intros Hfi Hc Hpg Hinv' Hre Hid' Hbusy Hfd' Hnp' Hcap' Hcount.
  destruct (fetch_page_handle_inv pno fh _ fh1 Hfi Hc) as (Hfi1 & Hhdr & Hfd & Hviews1 & Hsome).
  destruct (Hsome f eq_refl) as (Hrange & pg0 & Hpg0 & Hid & HP & Hnl).
  rewrite Hpg in Hpg0. injection Hpg0 as <-.
  pose proof (ok_inv _ (fi_pool _ Hfi1)) as Hinv1.
  pose proof (fetch_page_handle_pin pno fh f fh1 (ok_inv _ (fi_pool _ Hfi)) Hc) as Hpin1.
  assert (page_view fh1 pno = data_ pg) as Hv1.
  { rewrite <-(page_view_resident fh1 f pg HP Hpg); by rewrite Hid. }
  pose proof (reframed_views fh1 fh' f pg _ Hinv1 Hpg HP Hre Hfd') as Hviews'.
  pose proof Hre as (Hpg' & _ & Ht' & _).
  split.
  { apply (reframed_file_inv fh1 fh' f pg _ Hfi1 Hinv' Hpg Hre); try done.
    intros _ Hr _. rewrite Hhdr. apply Hcount. rewrite Hid in Hr. simpl in Hr. lia. }
  split; [congruence|]. split.
  { intros q Hq. rewrite Hviews', Hid, Hfd. simpl.
    destruct (decide (q = pno)) as [->|Hne].
    - by rewrite decide_True.
    - rewrite decide_False by (intros [= ?]; done). by apply Hviews1. }
  split; [rewrite <-Hviews1 by lia; done|].
  split; [by rewrite Ht', <-Hid|]. split; [done|].
  assert (page_pin_count fh1 pno = pin_count_ pg) as Hp1.
  { unfold page_pin_count, pin_count_of.
    by rewrite Hfd, <-Hid, HP, (frame_lookup _ _ _ Hpg). }
  split; [|congruence].
  unfold page_pin_count, pin_count_of.
  by rewrite Hfd', Hfd, <-Hid, Ht', HP, (frame_lookup _ _ _ Hpg').
Qed.

(** The pin count after a fetch and an unpin of a page that had a pin
    count from 0 to [INT_MAX - 1]: the one it had. *)
Lemma after_unpin_restores d (pg : Page) n :
  0 ≤ n < INT_MAX → pin_count_ pg = wrap_int (n + 1) →
  pin_count_ (after_unpin d pg) = n.
Proof.
  intros Hn Hpin. rewrite wrap_int_small in Hpin
    by (unfold INT_MIN, INT_MAX in *; lia).
  rewrite after_unpin_pinned by lia. simpl. lia.
Qed.

(** [get_record] copies the bytes of the slot as they are, in the frame
    or on the disk; it does not look at the bitmap. *)
Lemma get_record_view (fh : FH) rid :
  file_inv fh →
  0 ≤ slot_no rid < num_records_per_page (file_hdr_ fh) →
  (get_record rid fh).1 =
    if decide (0 ≤ rid_page_no rid < num_pages (file_hdr_ fh) ∧
               is_Some (fetch_page (mkPageId (fd_ fh) (rid_page_no rid))
                          (buffer_pool_manager_ fh)).1)
    then Some (mkRecord (record_view fh rid) (record_size (file_hdr_ fh)))
    else None.
Proof.
  intros Hfi Hslot. unfold get_record.
  destruct (fetch_page_handle (rid_page_no rid) fh) as [h fh1] eqn:Hc.
  destruct (fetch_page_handle_fetch _ _ _ _ Hc) as (Hh & Hhdr & Hfd).
  destruct (fetch_page_handle_inv _ fh _ fh1 Hfi Hc) as (Hfi1 & _ & _ & Hviews1 & Hsome).
  destruct h as [f|].
  - destruct (Hsome f eq_refl) as (Hrange & pg & Hpg & Hid & HP & Hpos).
    rewrite decide_True in Hh by done.
    destruct (decide (_ ∧ is_Some _)) as [_|Hno];
      [|exfalso; apply Hno; split; [done|]; rewrite <-Hh; by eexists].
    rewrite Hhdr. rewrite decide_False by lia. simpl.
    rewrite (page_of_lookup fh1 f pg Hpg). unfold record_view.
    rewrite <-Hviews1 by lia.
    rewrite <-(page_view_resident fh1 f pg HP Hpg) by (by rewrite Hid).
    by rewrite Hid.
  - simpl. destruct (decide (_ ∧ is_Some _)) as [[Hrange [x Hx]]|_]; [|done].
    rewrite decide_True in Hh by done. congruence.
Qed.

(** [update_record] once [fetch_page_handle] has returned the frame [f]
    holding [pg] and the slot number is in range, whether [unpin_page]
    succeeds or not. *)
Lemma update_record_done rid buf (fh : FH) f fh1 pg :
  fetch_page_handle (rid_page_no rid) fh = (Some f, fh1) →
  bpm_inv (buffer_pool_manager_ fh1) →
  pages_ (buffer_pool_manager_ fh1) !! f = Some pg →
  page_table_ (buffer_pool_manager_ fh1) !! id_ pg = Some f →
  0 ≤ slot_no rid < num_records_per_page (file_hdr_ fh1) →
  let dat' :=
    set_slots (memcpy_to (get_slot (file_hdr_ fh1) (slot_no rid)) buf
                 (record_size (file_hdr_ fh1)) (slots (data_ pg)))
      (data_ pg) in
  ∃ fh', update_record rid buf fh = Done fh' ∧
    fd_ fh' = fd_ fh1 ∧ file_hdr_ fh' = file_hdr_ fh1 ∧
    bpm_inv (buffer_pool_manager_ fh') ∧
    (∃ b2, buffer_pool_manager_ fh' = (unpin_page (id_ pg) true b2).2 ∧
           reframed (buffer_pool_manager_ fh1) b2 f (set_data dat' pg) ∧
           replacer_ b2 = replacer_ (buffer_pool_manager_ fh1)) ∧
    reframed (buffer_pool_manager_ fh1) (buffer_pool_manager_ fh') f
      (after_unpin true (set_data dat' pg)).
Proof.
  intros Hc Hinv Hpg HP Hslot dat'.
  unfold update_record. rewrite Hc.
  rewrite decide_False by lia. rewrite decide_False by lia.
  set (fh2 := upd_data f _ fh1).
  pose proof (upd_data_reframed fh1 f
                (λ d, set_slots (memcpy_to (get_slot (file_hdr_ fh1) (slot_no rid)) buf
                                   (record_size (file_hdr_ fh1)) (slots d)) d)
                pg Hpg) as H2.
  fold fh2 in H2. pose proof H2 as (Hpg2 & _ & Ht2 & _).
  assert (bpm_inv (buffer_pool_manager_ fh2)) as Hinv2 by by apply upd_data_inv.
  unfold unpin_handle. rewrite (page_of_lookup fh2 f _ Hpg2). cbn [id_ set_data].
  pose proof (reframed_unpin_any (id_ pg) true (buffer_pool_manager_ fh2) f
                (set_data dat' pg)) as H3.
  rewrite Ht2 in H3. specialize (H3 HP Hpg2).
  eexists. split; [done|]. split; [done|]. split; [done|].
  split; [by apply unpin_page_inv|]. split.
  - exists (buffer_pool_manager_ fh2). done.
  - exact (reframed_trans _ _ _ _ _ _ H2 H3).
Qed.

Lemma fetch_page_handle_gives pno (fh : FH) :
  0 ≤ pno < num_pages (file_hdr_ fh) →
  is_Some (fetch_page (mkPageId (fd_ fh) pno) (buffer_pool_manager_ fh)).1 →
  ∃ f fh1, fetch_page_handle pno fh = (Some f, fh1).
Proof.
  intros Hrange [f Hf]. unfold fetch_page_handle. rewrite decide_False by lia.
  destruct (fetch_page _ _) as [r b]. simpl in Hf. subst r. by eauto.
Qed.

Lemma fetch_page_handle_view pno (fh : FH) f fh1 pg :
  file_inv fh → fetch_page_handle pno fh = (Some f, fh1) →
  pages_ (buffer_pool_manager_ fh1) !! f = Some pg →
  page_view fh pno = data_ pg ∧ id_ pg = mkPageId (fd_ fh) pno ∧
  page_table_ (buffer_pool_manager_ fh1) !! id_ pg = Some f ∧
  (f ∉ LRUlist_ (replacer_ (buffer_pool_manager_ fh1))) ∧
  bpm_inv (buffer_pool_manager_ fh1) ∧ file_hdr_ fh1 = file_hdr_ fh ∧
  fd_ fh1 = fd_ fh.
Proof.
  intros Hfi Hc Hpg.
  destruct (fetch_page_handle_inv pno fh _ fh1 Hfi Hc) as (Hfi1 & Hhdr & Hfd & Hviews1 & Hsome).
  destruct (Hsome f eq_refl) as (Hrange & pg0 & Hpg0 & Hid & HP & Hpos).
  rewrite Hpg in Hpg0. injection Hpg0 as <-.
  split; [|by split; [|split; [|split; [|split; [apply (ok_inv _ (fi_pool _ Hfi1))|]]]]].
  rewrite <-Hviews1 by lia.
  rewrite <-(page_view_resident fh1 f pg HP Hpg); by rewrite Hid.
Qed.

(** [update_record] on a well-formed file: the slot bytes of the page are
    overwritten and the page stays resident; it ends with the pin count
    it had, unless that was negative or [INT_MAX]. *)
Lemma update_record_views rid buf (fh : FH) :
  file_inv fh →
  0 ≤ rid_page_no rid < num_pages (file_hdr_ fh) →
  0 ≤ slot_no rid < num_records_per_page (file_hdr_ fh) →
  is_Some (fetch_page (mkPageId (fd_ fh) (rid_page_no rid))
             (buffer_pool_manager_ fh)).1 →
  ∃ fh' f pg',
    update_record rid buf fh = Done fh' ∧ file_inv fh' ∧
    file_hdr_ fh' = file_hdr_ fh ∧ fd_ fh' = fd_ fh ∧
    (∀ q, 0 ≤ q → page_view fh' q =
       if decide (q = rid_page_no rid)
       then set_slots (memcpy_to (get_slot (file_hdr_ fh) (slot_no rid)) buf
                         (record_size (file_hdr_ fh)) (slots (page_view fh q)))
              (page_view fh q)
       else page_view fh q) ∧
    page_table_ (buffer_pool_manager_ fh') !! mkPageId (fd_ fh) (rid_page_no rid)
      = Some f ∧
    (pages_ (buffer_pool_manager_ fh') !! f = Some pg' ∧
     data_ pg' =
       set_slots (memcpy_to (get_slot (file_hdr_ fh) (slot_no rid)) buf
                    (record_size (file_hdr_ fh))
                    (slots (page_view fh (rid_page_no rid))))
         (page_view fh (rid_page_no rid))) ∧
    (0 ≤ page_pin_count fh (rid_page_no rid) < INT_MAX →
     page_pin_count fh' (rid_page_no rid) = page_pin_count fh (rid_page_no rid)).
Proof.
  intros Hfi Hrange Hslot Hsome.
  destruct (fetch_page_handle_gives _ fh Hrange Hsome) as (f & fh1 & Hc).
  destruct (fetch_page_handle_inv _ fh _ fh1 Hfi Hc) as (_ & _ & _ & _ & Hs).
  destruct (Hs f eq_refl) as (_ & pg & Hpg & _).
  destruct (fetch_page_handle_view _ fh f fh1 pg Hfi Hc Hpg)
    as (Hview & Hid & HP & Hnl & Hinv1 & Hhdr & Hfd).
  destruct (update_record_done rid buf fh f fh1 pg Hc Hinv1 Hpg HP)
    as (fh' & Hupd & Hfd' & Hhdr' & Hinv' & (b2 & Hb2 & H12 & Hrep2) & Hre);
    [by rewrite Hhdr|].
  rewrite Hhdr in Hre, H12.
  destruct (handle_written _ fh f fh1 pg fh' _ Hfi Hc Hpg Hinv' Hre)
    as (Hfi' & _ & Hviews' & _ & Ht' & Hpg' & Hpin' & Hpin1);
    [by rewrite after_unpin_id| |done|by rewrite Hhdr'..| |].
  { eapply unpin_closing; [exact H12|done|exact HP|done|by rewrite Hb2]. }
  { intros Hp. rewrite after_unpin_data. simpl. rewrite <-Hview.
    apply (fi_count _ Hfi). lia. }
  rewrite after_unpin_data in Hviews'. cbn [data_ set_data] in Hviews'.
  eexists fh', f, _. rewrite Hview.
  split; [done|]. split; [done|]. split; [congruence|]. split; [congruence|].
  split; [|split; [done|split]].
  - intros q Hq. rewrite Hviews' by done. destruct (decide (q = _)) as [->|]; [|done].
    by rewrite Hview.
  - split; [exact Hpg'|]. by rewrite after_unpin_data.
  - intros Hbound. rewrite Hpin'. by apply after_unpin_restores.
Qed.

Lemma get_record_result (fh : FH) rid :
  (get_record rid fh).2 = (fetch_page_handle (rid_page_no rid) fh).2.
Proof.
  unfold get_record. destruct (fetch_page_handle _ _) as [[f|] fh1]; [|done].
  by destruct (decide _).
Qed.

(** X16.  On a well-formed file, [get_record] with a slot number in range
    returns the [record_size] bytes at the slot as they currently are, in
    the frame of the page or on the disk, whether or not the bit of the
    slot is set; it returns [nullptr] exactly when the page number is
    outside the file or the pool has no frame to give.  It changes no
    byte of any page. *)
Theorem get_record_returns_the_slot_bytes (fh : FH) (rid : Rid) :
  file_inv fh →
  0 ≤ slot_no rid < num_records_per_page (file_hdr_ fh) →
  (get_record rid fh).1 =
    (if decide (0 ≤ rid_page_no rid < num_pages (file_hdr_ fh) ∧
                is_Some (fetch_page (mkPageId (fd_ fh) (rid_page_no rid))
                           (buffer_pool_manager_ fh)).1)
     then Some (mkRecord (record_view fh rid) (record_size (file_hdr_ fh)))
     else None) ∧
  file_inv (get_record rid fh).2 ∧
  ∀ q, 0 ≤ q → page_view (get_record rid fh).2 q = page_view fh q.
Proof.
  intros Hfi Hslot. split; [by apply get_record_view|].
  rewrite get_record_result.
  destruct (fetch_page_handle (rid_page_no rid) fh) as [h fh1] eqn:Hc.
  destruct (fetch_page_handle_inv _ fh _ fh1 Hfi Hc) as (Hfi1 & _ & _ & Hviews & _).
  done.
Qed.

(** X17.  On a well-formed file, [update_record] of a slot in range with
    a payload of [record_size] bytes, when the pool has a frame for the
    page, is followed by a [get_record] that returns the payload; the file
    stays well-formed, the page has the pin count it had before (for a
    count from 0 to [INT_MAX - 1], which one more pin does not overflow),
    and no bitmap and no page header has changed. *)
Theorem update_record_then_get_record (fh : FH) (rid : Rid) (buf : list byte) :
  file_inv fh →
  0 ≤ rid_page_no rid < num_pages (file_hdr_ fh) →
  0 ≤ slot_no rid < num_records_per_page (file_hdr_ fh) →
  Z.of_nat (length buf) = record_size (file_hdr_ fh) →
  is_Some (fetch_page (mkPageId (fd_ fh) (rid_page_no rid))
             (buffer_pool_manager_ fh)).1 →
  ∃ fh', update_record rid buf fh = Done fh' ∧
    (get_record rid fh').1 = Some (mkRecord buf (record_size (file_hdr_ fh))) ∧
    file_inv fh' ∧
    (0 ≤ page_pin_count fh (rid_page_no rid) < INT_MAX →
     page_pin_count fh' (rid_page_no rid) = page_pin_count fh (rid_page_no rid)) ∧
    ∀ q, 0 ≤ q → bitmap (page_view fh' q) = bitmap (page_view fh q) ∧
                 page_hdr (page_view fh' q) = page_hdr (page_view fh q).
Proof.
  intros Hfi Hrange Hslot Hlen Hsome.
  destruct (update_record_views rid buf fh Hfi Hrange Hslot Hsome)
    as (fh' & f & pg' & Hupd & Hfi' & Hhdr & Hfd & Hviews & Ht & [Hpg Hdata] & Hpin).
  exists fh'. split; [done|]. split.
  - erewrite get_record_resident; [|by rewrite Hhdr|by rewrite Hhdr| |exact Hpg].
    + rewrite Hhdr, Hdata. simpl. by rewrite <-Hlen, memcpy_from_to.
    + by rewrite Hfd.
  - split; [done|]. split; [done|]. intros q Hq. rewrite Hviews by done.
    by destruct (decide _).
Qed.

(** X18.  The [insert_record] that takes a [Rid] copies the payload into
    the slot and does nothing else: on a well-formed file the bytes of the
    slot are then the payload, while every bitmap and every page header,
    [num_records] included, is as before, so a slot that was free is still
    free.  It is the same function as [update_record]. *)
Theorem insert_record_at_only_copies_the_bytes (fh : FH) (rid : Rid)
    (buf : list byte) :
  file_inv fh →
  0 ≤ rid_page_no rid < num_pages (file_hdr_ fh) →
  0 ≤ slot_no rid < num_records_per_page (file_hdr_ fh) →
  Z.of_nat (length buf) = record_size (file_hdr_ fh) →
  is_Some (fetch_page (mkPageId (fd_ fh) (rid_page_no rid))
             (buffer_pool_manager_ fh)).1 →
  ∃ fh', insert_record_at rid buf fh = Done fh' ∧
    update_record rid buf fh = Done fh' ∧
    record_view fh' rid = buf ∧
    ∀ r, 0 ≤ rid_page_no r →
      slot_bit fh' r = slot_bit fh r ∧
      num_records (page_hdr (page_view fh' (rid_page_no r)))
      = num_records (page_hdr (page_view fh (rid_page_no r))).
Proof.
  intros Hfi Hrange Hslot Hlen Hsome.
  destruct (update_record_views rid buf fh Hfi Hrange Hslot Hsome)
    as (fh' & f & pg' & Hupd & Hfi' & Hhdr & Hfd & Hviews & Ht & Hpg & Hpin).
  exists fh'. split; [exact Hupd|]. split; [exact Hupd|]. split.
  - unfold record_view. rewrite Hhdr, Hviews, decide_True by (done || lia).
    simpl. by rewrite <-Hlen, memcpy_from_to.
  - intros r Hr. unfold slot_bit. rewrite Hviews by done.
    by destruct (decide _).
Qed.

Lemma delete_record_record_size rid (fh fh' : FH) :
  delete_record rid fh = Done fh' →
  record_size (file_hdr_ fh') = record_size (file_hdr_ fh).
Proof.
  unfold delete_record. destruct (fetch_page_handle _ fh) as [h fh1] eqn:Hc.
  destruct (fetch_page_handle_fetch _ _ _ _ Hc) as (_ & Hhdr & _).
  destruct h as [f|]; [|intros [= <-]; by rewrite Hhdr].
  destruct (decide _); [intros [= <-]; by rewrite Hhdr|].
  destruct (decide _); [done|].
  destruct (decide _); intros [= <-];
    cbn [file_hdr_ release_page_handle set_file_hdr upd_data set_bpm unpin_handle
         record_size set_first_free_page_no]; by rewrite Hhdr.
Qed.

(** [delete_record] of an occupied slot of a well-formed file. *)
Lemma delete_record_views rid (fh : FH) :
  file_inv fh → occupied fh rid →
  is_Some (fetch_page (mkPageId (fd_ fh) (rid_page_no rid))
             (buffer_pool_manager_ fh)).1 →
  ∃ fh' f pg' next,
    delete_record rid fh = Done fh' ∧ file_inv fh' ∧ fd_ fh' = fd_ fh ∧
    num_pages (file_hdr_ fh') = num_pages (file_hdr_ fh) ∧
    num_records_per_page (file_hdr_ fh') = num_records_per_page (file_hdr_ fh) ∧
    record_size (file_hdr_ fh') = record_size (file_hdr_ fh) ∧
    (∀ q, 0 ≤ q → page_view fh' q =
       if decide (q = rid_page_no rid)
       then deleted_data (slot_no rid) next (page_view fh q)
       else page_view fh q) ∧
    page_table_ (buffer_pool_manager_ fh') !! mkPageId (fd_ fh) (rid_page_no rid)
      = Some f ∧
    (pages_ (buffer_pool_manager_ fh') !! f = Some pg' ∧
     data_ pg' = deleted_data (slot_no rid) next (page_view fh (rid_page_no rid))) ∧
    (0 ≤ page_pin_count fh (rid_page_no rid) < INT_MAX →
     page_pin_count fh' (rid_page_no rid) = page_pin_count fh (rid_page_no rid)) ∧
    first_free_page_no (file_hdr_ fh') =
      (if bool_decide (num_records (page_hdr (page_view fh (rid_page_no rid))) - 1
                       = num_records_per_page (file_hdr_ fh) - 1)
       then rid_page_no rid else first_free_page_no (file_hdr_ fh)).
Proof.
  intros Hfi (Hrange & Hslot & Hbit) Hsome.
  unfold RM_FIRST_RECORD_PAGE in Hrange.
  destruct (fetch_page_handle_gives (rid_page_no rid) fh) as (f & fh1 & Hc);
    [lia|done|].
  destruct (fetch_page_handle_inv _ fh _ fh1 Hfi Hc) as (_ & _ & _ & _ & Hs).
  destruct (Hs f eq_refl) as (_ & pg & Hpg & _).
  destruct (fetch_page_handle_view _ fh f fh1 pg Hfi Hc Hpg)
    as (Hview & Hid & HP & Hnl & Hinv1 & Hhdr & Hfd).
  destruct (delete_record_steps rid fh f fh1 pg Hc Hinv1 Hpg HP)
    as (fh' & Hdel & Hfd' & Hnp' & Hrp' & Hff' & Hinv'
        & (b3 & pg5 & _ & H13 & Hrep3 & _ & _ & _ & Hrep' & _) & Hre);
    [by rewrite Hhdr|].
  pose proof (delete_record_record_size rid fh fh' Hdel) as Hrs'.
  rewrite Hhdr in Hnp', Hrp', Hff'. rewrite Hid in Hff'. cbn [page_no] in Hff'.
  destruct (handle_written _ fh f fh1 pg fh' _ Hfi Hc Hpg Hinv' Hre)
    as (Hfi' & _ & Hviews' & _ & Ht' & Hpg' & Hpin' & Hpin1);
    [cbn [id_ set_data]; by rewrite after_unpin_id| |done|by rewrite Hhdr..| |].
  { eapply unpin_closing; [exact H13|done|exact HP|done|exact Hrep']. }
  { intros Hp. simpl. rewrite <-Hview.
    rewrite count_set_reset by done. f_equal. apply (fi_count _ Hfi).
    unfold RM_FIRST_RECORD_PAGE. lia. }
  cbn [data_ set_data] in Hviews'.
  match type of Hre with
  | reframed _ _ _ (set_data (deleted_data _ ?nx _) _) =>
      eexists fh', f, _, nx
  end.
  rewrite Hview.
  split; [done|]. split; [done|]. split; [congruence|].
  split; [done|]. split; [done|]. split; [done|]. split; [|split; [done|]].
  - intros q Hq. rewrite Hviews' by done. destruct (decide (q = _)) as [->|]; [|done].
    by rewrite Hview.
  - split; [split; [exact Hpg'|done]|]. split; [|exact Hff'].
    intros Hbound. rewrite Hpin'. cbn [pin_count_ set_data].
    by apply after_unpin_restores.
Qed.

(** X19.  [delete_record] clears the bit of the slot and leaves the bytes
    of the record in place, and [get_record] does not test the bit: on a
    well-formed file the [get_record] that follows the [delete_record] of
    an occupied slot still returns the deleted record. *)
Theorem deleted_record_is_still_returned (fh : FH) (rid : Rid) :
  file_inv fh → occupied fh rid →
  is_Some (fetch_page (mkPageId (fd_ fh) (rid_page_no rid))
             (buffer_pool_manager_ fh)).1 →
  ∃ fh', delete_record rid fh = Done fh' ∧
    slot_bit fh' rid = false ∧
    (get_record rid fh').1
    = Some (mkRecord (record_view fh rid) (record_size (file_hdr_ fh))).
Proof.
  intros Hfi Hocc Hsome. pose proof Hocc as (Hrange & Hslot & _).
  unfold RM_FIRST_RECORD_PAGE in Hrange.
  destruct (delete_record_views rid fh Hfi Hocc Hsome)
    as (fh' & f & pg' & next & Hdel & Hfi' & Hfd & Hnp & Hrp & Hrs & Hviews & Ht
        & [Hpg Hdata] & _ & _).
  exists fh'. split; [done|]. split.
  - unfold slot_bit. rewrite Hviews, decide_True by (done || lia). simpl.
    unfold Bitmap.is_set, Bitmap.reset. by rewrite decide_True.
  - erewrite get_record_resident; [|by rewrite Hnp; lia|by rewrite Hrp| |exact Hpg].
    + rewrite Hdata. unfold record_view, get_slot. by rewrite Hrs.
    + by rewrite Hfd.
Qed.

(** X20.  [delete_record] of an occupied slot of a well-formed file
    changes one bit and one count: the bit of its slot is cleared,
    [num_records] of its page goes down by one, every other bit of every
    page and the bytes of every slot are as before, and the page has the
    pin count it had (for a count from 0 to [INT_MAX - 1], which one more
    pin does not overflow). *)
Theorem delete_record_clears_one_bit (fh : FH) (rid : Rid) :
  file_inv fh → occupied fh rid →
  is_Some (fetch_page (mkPageId (fd_ fh) (rid_page_no rid))
             (buffer_pool_manager_ fh)).1 →
  ∃ fh', delete_record rid fh = Done fh' ∧ file_inv fh' ∧
    (∀ r, 0 ≤ rid_page_no r →
       slot_bit fh' r = (if decide (r = rid) then false else slot_bit fh r) ∧
       record_view fh' r = record_view fh r) ∧
    num_records (page_hdr (page_view fh' (rid_page_no rid)))
    = num_records (page_hdr (page_view fh (rid_page_no rid))) - 1 ∧
    (0 ≤ page_pin_count fh (rid_page_no rid) < INT_MAX →
     page_pin_count fh' (rid_page_no rid) = page_pin_count fh (rid_page_no rid)).
Proof.
  intros Hfi Hocc Hsome. pose proof Hocc as (Hrange & Hslot & _).
  unfold RM_FIRST_RECORD_PAGE in Hrange.
  destruct (delete_record_views rid fh Hfi Hocc Hsome)
    as (fh' & f & pg' & next & Hdel & Hfi' & Hfd & Hnp & Hrp & Hrs & Hviews & Ht & Hpg & Hpin & _).
  exists fh'. split; [done|]. split; [done|]. split; [|split; [|done]].
  - intros r Hr. unfold slot_bit, record_view, get_slot.
    rewrite Hrs, Hviews by done.
    destruct (decide (rid_page_no r = rid_page_no rid)) as [Hp|Hp].
    + simpl. unfold Bitmap.is_set, Bitmap.reset. split; [|done].
      destruct (decide (slot_no r = slot_no rid)) as [Hs|Hs].
      * rewrite decide_True; [done|]. destruct r, rid. simpl in *. congruence.
      * rewrite decide_False; [done|]. by intros ->.
    + split; [|done]. rewrite decide_False; [done|]. by intros ->.
  - rewrite Hviews, decide_True by (done || lia). done.
Qed.

End record_more.

Section record_pins.
Context {D : Type} `{!DiskManager D}.

Local Abbreviation FH := (RmFileHandle D).

(** X21.  With a slot number at or above [num_records_per_page],
    [delete_record], [update_record] and the [insert_record] that takes a
    [Rid] return right after [fetch_page_handle]: no byte is written and
    the page is not unpinned, so its pin count is the [int] that follows
    the one it had: one higher than before, for a count from 0 to
    [INT_MAX - 1]. *)
Theorem out_of_range_slot_leaves_the_page_pinned (fh : FH) (rid : Rid)
    (buf : list byte) :
  bpm_inv (buffer_pool_manager_ fh) →
  0 ≤ rid_page_no rid < num_pages (file_hdr_ fh) →
  num_records_per_page (file_hdr_ fh) ≤ slot_no rid →
  is_Some (fetch_page (mkPageId (fd_ fh) (rid_page_no rid))
             (buffer_pool_manager_ fh)).1 →
  delete_record rid fh = Done (fetch_page_handle (rid_page_no rid) fh).2 ∧
  update_record rid buf fh = Done (fetch_page_handle (rid_page_no rid) fh).2 ∧
  insert_record_at rid buf fh = Done (fetch_page_handle (rid_page_no rid) fh).2 ∧
  page_pin_count (fetch_page_handle (rid_page_no rid) fh).2 (rid_page_no rid)
  = wrap_int (page_pin_count fh (rid_page_no rid) + 1) ∧
  (0 ≤ page_pin_count fh (rid_page_no rid) < INT_MAX →
   page_pin_count (fetch_page_handle (rid_page_no rid) fh).2 (rid_page_no rid)
   = page_pin_count fh (rid_page_no rid) + 1).
Proof.
  intros Hinv Hrange Hslot [f Hf].
  assert (∃ fh1, fetch_page_handle (rid_page_no rid) fh = (Some f, fh1) ∧
                 file_hdr_ fh1 = file_hdr_ fh) as (fh1 & Hc & Hhdr).
  { unfold fetch_page_handle. rewrite decide_False by lia.
    destruct (fetch_page _ _) as [r b]. simpl in Hf. subst r. by eexists. }
  unfold delete_record, update_record, insert_record_at. rewrite Hc.
  cbv beta iota zeta. rewrite Hhdr.
  destruct (decide (slot_no rid >= _)%Z) as [_|Hno]; [|lia]. cbn [snd].
  split; [done|]. split; [done|]. split; [done|].
  pose proof (fetch_page_handle_pin _ fh f fh1 Hinv Hc) as Hpin.
  split; [done|]. intros Hbound. rewrite Hpin.
  apply wrap_int_small. unfold INT_MIN, INT_MAX in *. lia.
Qed.

End record_pins.

(** ** [insert_record] on a ready file *)



Section insert_more.
Context {D : Type} `{!DiskManager D} `{!DiskLaws D}.

Local Abbreviation FH := (RmFileHandle D).




End insert_more.

(** ** Sequences of calls from a fresh file *)

Section chain_facts.
Context {D : Type} `{!DiskManager D}.

Local Abbreviation FH := (RmFileHandle D).

Lemma chain_ok_NoDup (fh : FH) p l : chain_ok fh p l → NoDup l.
Proof. induction 1; by constructor. Qed.

(** Following the links from [p] for at least as many steps as the list
    has pages walks exactly the list. *)
Lemma chain_ok_free_chain (fh : FH) p l k :
  chain_ok fh p l → (length l ≤ k)%nat → free_chain k fh p = l.
Proof.
  intros Hchain. revert k. induction Hchain as [|p l Hp Hfree Hnin Hrest IH]; intros k Hk.
  - destruct k; [done|]. cbn [free_chain]. by rewrite decide_True.
  - destruct k as [|k]; cbn [length free_chain] in *; [lia|].
    rewrite decide_False by (unfold RM_FIRST_RECORD_PAGE, RM_NO_PAGE in *; lia).
    f_equal. apply IH. lia.
Qed.

Lemma chain_ok_free_pages (fh : FH) l :
  chain_ok fh (first_free_page_no (file_hdr_ fh)) l → free_pages fh = l.
Proof.
  intros Hchain. apply chain_ok_free_chain; [done|].
  assert (l ⊆+ seqZ 1 (num_pages (file_hdr_ fh) - 1)) as Hsub.
  { apply NoDup_submseteq; [by eapply chain_ok_NoDup|].
    intros x Hx. destruct (chain_ok_range fh _ l x Hchain Hx) as [Hr _].
    unfold RM_FIRST_RECORD_PAGE in Hr. apply elem_of_seqZ. lia. }
  apply submseteq_length in Hsub. rewrite length_seqZ in Hsub. lia.
Qed.

Lemma file_ready_unpinned (fh : FH) pno :
  file_ready fh → page_pin_count fh pno = 0.
Proof.
  intros [Hfi _ Hpool _]. unfold page_pin_count, pin_count_of.
  destruct (page_table_ _ !! _) as [f|] eqn:HK; [|done].
  destruct (inv_table_id _ (rdy_inv _ Hpool) _ f HK) as (pg & Hpg & _).
  rewrite (frame_lookup _ _ _ Hpg). by eapply rdy_unpinned.
Qed.

End chain_facts.

(** X23.  From a fresh file over a pool of at least one frame, every
    sequence of [insert_record] and [delete_record] calls whose deletes
    are given occupied slots runs to its end: no call meets an empty page
    handle, whatever the number of pages and however small the pool, and
    when the sequence is over no page is pinned. *)
Theorem record_calls_finish_with_no_page_pinned (pool_size : nat)
    (file rec_size per_page : Z) (cs : list rm_call) :
  (0 < pool_size)%nat → 0 < per_page →
  deletes_occupied cs (fresh_file pool_size file rec_size per_page) →
  ∃ fh', run_rm_calls cs (fresh_file pool_size file rec_size per_page) = Done fh' ∧
    (∀ f pg, pages_ (buffer_pool_manager_ fh') !! f = Some pg → pin_count_ pg = 0) ∧
    ∀ pno, page_pin_count fh' pno = 0.
Proof.
  intros Hpool Hcap Hocc.
  destruct (run_rm_calls_ready cs _ (fresh_file_ready pool_size file rec_size per_page
                                       Hpool Hcap) Hocc) as (fh' & Hrun & Hrdy).
  exists fh'. split; [done|]. split.
  - apply (rdy_unpinned _ (fr_pool _ Hrdy)).
  - intros pno. by apply file_ready_unpinned.
Qed.

Lemma record_calls_finish_with_no_page_pinned_witness :
  ∃ fh', run_rm_calls Examples.calls_small (fresh_file 1 7 2 4) = Done fh' ∧
    (∀ f pg, pages_ (buffer_pool_manager_ fh') !! f = Some pg → pin_count_ pg = 0) ∧
    ∀ pno, page_pin_count fh' pno = 0.
Proof.
  apply (record_calls_finish_with_no_page_pinned 1 7 2 4 Examples.calls_small).
  - lia.
  - lia.
  - vm_compute.
    repeat match goal with
           | |- _ ∧ _ => split
           | |- True => exact I
           end; try reflexivity; discriminate.
Defined.

(** X24.  After any such sequence of calls from a fresh file, the pages
    reached from [first_free_page_no] along [next_free_page_no] are data
    pages of the file, each met once (the list ends at [RM_NO_PAGE], it
    has no cycle), and each has a free slot: [num_records] is below
    [num_records_per_page]. *)
Theorem free_page_list_has_only_pages_with_room (pool_size : nat)
    (file rec_size per_page : Z) (cs : list rm_call)
    (fh' : RmFileHandle MemDisk) :
  (0 < pool_size)%nat → 0 < per_page →
  deletes_occupied cs (fresh_file pool_size file rec_size per_page) →
  run_rm_calls cs (fresh_file pool_size file rec_size per_page) = Done fh' →
  NoDup (free_pages fh') ∧
  ∀ p, p ∈ free_pages fh' →
    RM_FIRST_RECORD_PAGE ≤ p < num_pages (file_hdr_ fh') ∧
    num_records (page_hdr (page_view fh' p)) < num_records_per_page (file_hdr_ fh').
Proof.
  intros Hpool Hcap Hocc Hrun.
  destruct (run_rm_calls_ready cs _ (fresh_file_ready pool_size file rec_size per_page
                                       Hpool Hcap) Hocc) as (fh0 & Hrun0 & Hrdy).
  rewrite Hrun in Hrun0. injection Hrun0 as <-.
  destruct (fr_chain _ Hrdy) as (l & Hchain).
  rewrite (chain_ok_free_pages fh' l Hchain).
  split; [by eapply chain_ok_NoDup|].
  intros p Hp. by eapply chain_ok_range.
Qed.

(** ** Pages are not reused *)

Section never_reused.
Context {D : Type} `{!DiskManager D} `{!DiskLaws D}.

Local Abbreviation FH := (RmFileHandle D).




End never_reused.



(** ** The record theorems at concrete files *)

(** Closed side conditions (ranges, occupied slots, frames the pool can
    give) are settled by running the code. *)
Ltac run_side :=
  vm_compute;
  repeat match goal with
         | |- _ ∧ _ => split
         | |- True => exact I
         | |- ∃ _, _ => eexists
         end; try reflexivity; discriminate.

Lemma Done_inj {A} (a b : A) : Done a = Done b → a = b.
Proof. by intros [= ->]. Qed.

Lemma file_small_after_ready : file_ready Examples.file_small_after.
Proof.
  destruct (run_rm_calls_ready Examples.calls_small Examples.file_small)
    as (fh' & Hrun & Hrdy).
  - apply fresh_file_ready; lia.
  - run_side.
  - assert (run_rm_calls Examples.calls_small Examples.file_small
            = Done Examples.file_small_after) as Heq by (vm_compute; reflexivity).
    rewrite Heq in Hrun. apply Done_inj in Hrun. by rewrite Hrun.
Qed.


Lemma get_record_returns_the_slot_bytes_witness :
  (get_record (mkRid 3 0) Examples.file_small_after).1 =
    (if decide (0 ≤ rid_page_no (mkRid 3 0)
                  < num_pages (file_hdr_ Examples.file_small_after) ∧
                is_Some (fetch_page
                           (mkPageId (fd_ Examples.file_small_after)
                              (rid_page_no (mkRid 3 0)))
                           (buffer_pool_manager_ Examples.file_small_after)).1)
     then Some (mkRecord (record_view Examples.file_small_after (mkRid 3 0))
                  (record_size (file_hdr_ Examples.file_small_after)))
     else None) ∧
  file_inv (get_record (mkRid 3 0) Examples.file_small_after).2 ∧
  ∀ q, 0 ≤ q → page_view (get_record (mkRid 3 0) Examples.file_small_after).2 q
               = page_view Examples.file_small_after q.
Proof.
  apply (get_record_returns_the_slot_bytes Examples.file_small_after (mkRid 3 0)).
  - exact file_small_after_inv.
  - run_side.
Defined.

Lemma update_record_then_get_record_witness :
  ∃ fh', update_record (mkRid 3 0) [x07; x08] Examples.file_small_after = Done fh' ∧
    (get_record (mkRid 3 0) fh').1
    = Some (mkRecord [x07; x08] (record_size (file_hdr_ Examples.file_small_after))) ∧
    file_inv fh' ∧
    page_pin_count fh' (rid_page_no (mkRid 3 0))
    = page_pin_count Examples.file_small_after (rid_page_no (mkRid 3 0)) ∧
    ∀ q, 0 ≤ q →
      bitmap (page_view fh' q) = bitmap (page_view Examples.file_small_after q) ∧
      page_hdr (page_view fh' q) = page_hdr (page_view Examples.file_small_after q).
Proof.
  destruct (update_record_then_get_record Examples.file_small_after (mkRid 3 0)
              [x07; x08]) as (fh' & Hupd & Hget & Hfi & Hpin & Hrest).
  - exact file_small_after_inv.
  - run_side.
  - run_side.
  - reflexivity.
  - run_side.
  - exists fh'. split; [exact Hupd|]. split; [exact Hget|]. split; [exact Hfi|].
    split; [|exact Hrest]. apply Hpin. run_side.
Defined.

Lemma insert_record_at_only_copies_the_bytes_witness :
  ∃ fh', insert_record_at (mkRid 3 1) [x07; x08] Examples.file_small_after = Done fh' ∧
    update_record (mkRid 3 1) [x07; x08] Examples.file_small_after = Done fh' ∧
    record_view fh' (mkRid 3 1) = [x07; x08] ∧
    ∀ r, 0 ≤ rid_page_no r →
      slot_bit fh' r = slot_bit Examples.file_small_after r ∧
      num_records (page_hdr (page_view fh' (rid_page_no r)))
      = num_records (page_hdr (page_view Examples.file_small_after (rid_page_no r))).
Proof.
  apply (insert_record_at_only_copies_the_bytes Examples.file_small_after (mkRid 3 1)
           [x07; x08]).
  - exact file_small_after_inv.
  - run_side.
  - run_side.
  - reflexivity.
  - run_side.
Defined.

Lemma deleted_record_is_still_returned_witness :
  ∃ fh', delete_record (mkRid 3 0) Examples.file_small_after = Done fh' ∧
    slot_bit fh' (mkRid 3 0) = false ∧
    (get_record (mkRid 3 0) fh').1
    = Some (mkRecord (record_view Examples.file_small_after (mkRid 3 0))
              (record_size (file_hdr_ Examples.file_small_after))).
Proof.
  apply (deleted_record_is_still_returned Examples.file_small_after (mkRid 3 0)).
  - exact file_small_after_inv.
  - run_side.
  - run_side.
Defined.

Lemma delete_record_clears_one_bit_witness :
  ∃ fh', delete_record (mkRid 3 0) Examples.file_small_after = Done fh' ∧
    file_inv fh' ∧
    (∀ r, 0 ≤ rid_page_no r →
       slot_bit fh' r = (if decide (r = mkRid 3 0) then false
                         else slot_bit Examples.file_small_after r) ∧
       record_view fh' r = record_view Examples.file_small_after r) ∧
    num_records (page_hdr (page_view fh' (rid_page_no (mkRid 3 0))))
    = num_records (page_hdr (page_view Examples.file_small_after
                               (rid_page_no (mkRid 3 0)))) - 1 ∧
    page_pin_count fh' (rid_page_no (mkRid 3 0))
    = page_pin_count Examples.file_small_after (rid_page_no (mkRid 3 0)).
Proof.
  destruct (delete_record_clears_one_bit Examples.file_small_after (mkRid 3 0))
    as (fh' & Hdel & Hfi & Hbits & Hnum & Hpin).
  - exact file_small_after_inv.
  - run_side.
  - run_side.
  - exists fh'. split; [exact Hdel|]. split; [exact Hfi|]. split; [exact Hbits|].
    split; [exact Hnum|]. apply Hpin. run_side.
Defined.

Lemma out_of_range_slot_leaves_the_page_pinned_witness :
  delete_record (mkRid 3 4) Examples.file_small_after
    = Done (fetch_page_handle (rid_page_no (mkRid 3 4)) Examples.file_small_after).2 ∧
  update_record (mkRid 3 4) [x07; x08] Examples.file_small_after
    = Done (fetch_page_handle (rid_page_no (mkRid 3 4)) Examples.file_small_after).2 ∧
  insert_record_at (mkRid 3 4) [x07; x08] Examples.file_small_after
    = Done (fetch_page_handle (rid_page_no (mkRid 3 4)) Examples.file_small_after).2 ∧
  page_pin_count
    (fetch_page_handle (rid_page_no (mkRid 3 4)) Examples.file_small_after).2
    (rid_page_no (mkRid 3 4))
  = page_pin_count Examples.file_small_after (rid_page_no (mkRid 3 4)) + 1.
Proof.
  destruct (out_of_range_slot_leaves_the_page_pinned Examples.file_small_after
              (mkRid 3 4) [x07; x08]) as (Hdel & Hupd & Hins & _ & Hpin).
  - apply (ok_inv _ (fi_pool _ file_small_after_inv)).
  - run_side.
  - run_side.
  - run_side.
  - split; [exact Hdel|]. split; [exact Hupd|]. split; [exact Hins|].
    apply Hpin. run_side.
Defined.


Lemma free_page_list_has_only_pages_with_room_witness :
  NoDup (free_pages Examples.file_tiny_after) ∧
  ∀ p, p ∈ free_pages Examples.file_tiny_after →
    RM_FIRST_RECORD_PAGE ≤ p < num_pages (file_hdr_ Examples.file_tiny_after) ∧
    num_records (page_hdr (page_view Examples.file_tiny_after p))
    < num_records_per_page (file_hdr_ Examples.file_tiny_after).
Proof.
  apply (free_page_list_has_only_pages_with_room 1 7 2 1 Examples.calls_tiny
           Examples.file_tiny_after).
  - lia.
  - lia.
  - run_side.
  - vm_compute. reflexivity.
Defined.

(** ** The scan *)

(** The inner loop of [next]: the first set bit after [s] among the [k]
    positions that follow, or none of them is set. *)
Lemma next_set_spec bm s k :
  match next_set bm s k with
  | Some s' => s < s' ≤ s + Z.of_nat k ∧ bm s' = true ∧
               ∀ i, s < i < s' → bm i = false
  | None => ∀ i, s < i ≤ s + Z.of_nat k → bm i = false
  end.
Proof.
  revert s. induction k as [|k IH]; intros s; cbn [next_set].
  - intros i Hi. lia.
  - unfold Bitmap.is_set. destruct (bm (s + 1)) eqn:Hb.
    + split; [lia|]. split; [done|]. intros i Hi. lia.
    + specialize (IH (s + 1)). destruct (next_set bm (s + 1) k) as [s'|].
      * destruct IH as (Hr & Hs' & Hclear). split; [lia|]. split; [done|].
        intros i Hi. destruct (decide (i = s + 1)) as [->|]; [done|].
        apply Hclear. lia.
      * intros i Hi. destruct (decide (i = s + 1)) as [->|]; [done|].
        apply IH. lia.
Qed.

Section scan_facts.
Context {D : Type} `{!DiskManager D} `{!DiskLaws D}.

Local Abbreviation FH := (RmFileHandle D).

(** The outer loop of [next], from the position [r] with rounds enough for
    the pages ahead. *)
Lemma next_loop_spec k (fh : FH) r r' fh' :
  file_inv fh → 0 ≤ rid_page_no r → -1 ≤ slot_no r →
  (Z.to_nat (num_pages (file_hdr_ fh) - rid_page_no r) ≤ k)%nat →
  Scan.next_loop k fh r = Done (r', fh') →
  file_inv fh' ∧ file_hdr_ fh' = file_hdr_ fh ∧ fd_ fh' = fd_ fh ∧
  (∀ q, 0 ≤ q → page_view fh' q = page_view fh q) ∧
  if decide (num_pages (file_hdr_ fh) ≤ rid_page_no r) then r' = r
  else
    (r' = mkRid (num_pages (file_hdr_ fh)) (-1) ∨
     (rid_page_no r' < num_pages (file_hdr_ fh) ∧
      0 ≤ slot_no r' < num_records_per_page (file_hdr_ fh) ∧
      slot_bit fh r' = true ∧ rid_lt r r')) ∧
    ∀ x, rid_lt r x → rid_lt x r' →
         0 ≤ slot_no x < num_records_per_page (file_hdr_ fh) →
         slot_bit fh x = false.
Proof.
  revert fh r. induction k as [|k IH]; intros fh r Hfi Hp Hs Hk Hloop;
    cbn [Scan.next_loop] in Hloop.
  - injection Hloop as <- <-. rewrite decide_True by lia. done.
  - destruct (decide (rid_page_no r < num_pages (file_hdr_ fh))) as [Hlt|Hge].
    2:{ injection Hloop as <- <-. rewrite decide_True by lia. done. }
    rewrite decide_False by lia.
    destruct (fetch_page_handle (rid_page_no r) fh) as [h fh1] eqn:Hc.
    destruct (fetch_page_handle_inv _ fh _ fh1 Hfi Hc)
      as (Hfi1 & Hhdr1 & Hfd1 & Hviews1 & Hsome).
    set (n := num_records_per_page (file_hdr_ fh)) in *.
    set (N := num_pages (file_hdr_ fh)) in *.
    assert (∀ fh2 r2, fh2 = fh' → r2 = r' →
              Scan.next_loop k fh1 (mkRid (rid_page_no r + 1) (-1)) = Done (r2, fh2) →
              (∀ i, slot_no r < i < n →
                    bitmap (page_view fh (rid_page_no r)) i = false) →
              file_inv fh2 ∧ file_hdr_ fh2 = file_hdr_ fh ∧ fd_ fh2 = fd_ fh ∧
              (∀ q, 0 ≤ q → page_view fh2 q = page_view fh q) ∧
              (r2 = mkRid N (-1) ∨
               (rid_page_no r2 < N ∧ 0 ≤ slot_no r2 < n ∧
                slot_bit fh r2 = true ∧ rid_lt r r2)) ∧
              ∀ x, rid_lt r x → rid_lt x r2 → 0 ≤ slot_no x < n →
                   slot_bit fh x = false) as Hnext.
    { intros fh2 r2 -> -> Hrec Hclear.
      destruct (IH fh1 (mkRid (rid_page_no r + 1) (-1)) Hfi1)
        as (Hfi2 & Hhdr2 & Hfd2 & Hviews2 & Hres);
        [simpl; lia|simpl; lia|rewrite Hhdr1; simpl; fold N; lia|exact Hrec|].
      rewrite Hhdr1 in Hres. fold N n in Hres. cbn [rid_page_no slot_no] in Hres.
      assert (∀ x, 0 ≤ rid_page_no x → slot_bit fh1 x = slot_bit fh x) as Hbits.
      { intros x Hx. unfold slot_bit. by rewrite Hviews1. }
      split; [done|]. split; [congruence|]. split; [congruence|].
      split; [intros q Hq; rewrite Hviews2, Hviews1; done|].
      destruct (decide (N ≤ rid_page_no r + 1)) as [Hend|Hmore].
      - subst r'. assert (rid_page_no r + 1 = N) as -> by lia.
        split; [by left|].
        intros x [Hx|[Hx Hsx]] [Hx'|[Hx' Hsx']] Hslot; cbn [rid_page_no slot_no] in *;
          try lia.
        unfold slot_bit, Bitmap.is_set. rewrite <-Hx. apply Hclear. lia.
      - destruct Hres as [Hwhere Hclear2]. split.
        + destruct Hwhere as [Hwhere|(Hr2 & Hs2 & Hb2 & Hlt2)]; [by left|right].
          split; [done|]. split; [done|]. split.
          * rewrite <-Hbits; [done|]. destruct Hlt2 as [?|[? ?]]; simpl in *; lia.
          * left. destruct Hlt2 as [?|[? ?]]; simpl in *; lia.
        + intros x Hx Hx' Hslot.
          destruct (decide (rid_page_no x = rid_page_no r)) as [Hsame|Hdiff].
          * unfold slot_bit, Bitmap.is_set. rewrite Hsame. apply Hclear.
            destruct Hx as [?|[? ?]]; lia.
          * rewrite <-Hbits by (destruct Hx as [?|[? ?]]; lia).
            apply Hclear2; [|done|done].
            destruct Hx as [?|[? ?]]; [|lia].
            destruct (decide (rid_page_no x = rid_page_no r + 1)) as [Heq|Hne].
            -- right. simpl. lia.
            -- left. simpl. lia. }
    destruct h as [f|]; cbn [Scan.scan_page] in Hloop.
    + destruct (Hsome f eq_refl) as (_ & pg & Hpg & Hid & HP & Hpos).
      assert (page_view fh (rid_page_no r) = data_ pg) as Hview.
      { rewrite <-Hviews1 by lia.
        rewrite <-(page_view_resident fh1 f pg HP Hpg); by rewrite Hid. }
      rewrite (page_of_lookup fh1 f pg Hpg), Hhdr1, <-Hview in Hloop. fold n in Hloop.
      pose proof (next_set_spec (bitmap (page_view fh (rid_page_no r))) (slot_no r)
                    (Z.to_nat (n - 1 - slot_no r))) as Hset.
      destruct (next_set _ _ _) as [s'|].
      * injection Hloop as <- <-. destruct Hset as (Hr & Hb & Hclear).
        split; [done|]. split; [done|]. split; [done|]. split; [done|]. split.
        -- right. simpl. split; [done|]. split; [lia|]. split; [done|].
           right. simpl. lia.
        -- intros x [Hx|[Hx Hsx]] [Hx'|[Hx' Hsx']] Hslot; cbn [rid_page_no slot_no] in *;
             try lia.
           unfold slot_bit, Bitmap.is_set. rewrite <-Hx. apply Hclear. lia.
      * apply Hnext; [done|done|done|]. intros i Hi. apply Hset. lia.
    + destruct (decide (slot_no r < num_records_per_page (file_hdr_ fh1) - 1))
        as [|Hlast]; [done|].
      rewrite Hhdr1 in Hlast. fold n in Hlast.
      apply Hnext; [done|done|done|]. intros i Hi. lia.
Qed.

End scan_facts.

Lemma scan_file_inv : file_inv Examples.scan_file.
Proof.
  constructor; simpl.
  - constructor; simpl.
    + apply (bpm_init_inv 2).
    + intros f pg Hl. right.
      destruct f as [|[|f]]; simpl in Hl; [injection Hl as <-..|done]; simpl;
        unfold INVALID_PAGE_ID; lia.
    + intros K f HK. by rewrite lookup_empty in HK.
    + intros K f pg HK. by rewrite lookup_empty in HK.
  - done.
  - unfold RM_FIRST_RECORD_PAGE. lia.
  - by rewrite lookup_singleton_eq.
  - intros K f HK. by rewrite lookup_empty in HK.
  - unfold RM_FIRST_RECORD_PAGE. intros pno Hpno.
    assert (pno = 1 ∨ pno = 2) as [-> | ->] by lia; vm_compute; reflexivity.
Qed.

(** X26.  [next] moves the scan forward to the first occupied slot after its
    position, in the order by page number and then by slot number, and
    passes over no occupied slot on the way.  From a position [(p, s)] with
    [p] a page of the file and [s] at least -1, a [next] that returns leaves
    the position either on a slot of the file whose bit is set and that
    comes after [(p, s)], or on [(num_pages, -1)], the end of the file; every
    slot strictly between the old position and the new one has a clear bit.
    The bytes of the pages are what they were. *)
Theorem next_stops_at_the_first_occupied_slot {D} `{!DiskManager D} `{!DiskLaws D}
    (fh fh' : RmFileHandle D) (sc sc' : RmScan) :
  file_inv fh →
  0 ≤ rid_page_no (rid_ sc) < num_pages (file_hdr_ fh) →
  -1 ≤ slot_no (rid_ sc) →
  Scan.next sc fh = Done (sc', fh') →
  (rid_ sc' = mkRid (num_pages (file_hdr_ fh)) (-1) ∨
   (rid_page_no (rid_ sc') < num_pages (file_hdr_ fh) ∧
    0 ≤ slot_no (rid_ sc') < num_records_per_page (file_hdr_ fh) ∧
    slot_bit fh (rid_ sc') = true ∧ rid_lt (rid_ sc) (rid_ sc'))) ∧
  (∀ x, rid_lt (rid_ sc) x → rid_lt x (rid_ sc') →
        0 ≤ slot_no x < num_records_per_page (file_hdr_ fh) →
        slot_bit fh x = false) ∧
  (∀ q, 0 ≤ q → page_view fh' q = page_view fh q).
Proof.
  intros Hfi Hp Hs Hnext. unfold Scan.next in Hnext.
  destruct (Scan.next_loop _ fh (rid_ sc)) as [[r fh1]|e] eqn:Hloop; [|done].
  injection Hnext as <- <-. simpl.
  destruct (next_loop_spec _ fh (rid_ sc) r fh1 Hfi ltac:(lia) Hs (le_n _) Hloop)
    as (_ & _ & _ & Hviews & Hres).
  rewrite decide_False in Hres by lia. destruct Hres as [Hwhere Hclear]. done.
Qed.

Lemma next_stops_at_the_first_occupied_slot_witness :
  slot_bit Examples.scan_file (mkRid 1 1) = false.
Proof.
  apply (next_stops_at_the_first_occupied_slot Examples.scan_file
           (done_or (mkScan (mkRid 1 0), Examples.scan_file)
              (Scan.next (mkScan (mkRid 1 0)) Examples.scan_file)).2
           (mkScan (mkRid 1 0)) (mkScan (mkRid 1 2))).
  - exact scan_file_inv.
  - simpl. lia.
  - simpl. lia.
  - vm_compute. reflexivity.
  - right. simpl. lia.
  - right. simpl. lia.
  - simpl. lia.
Defined.

(** X27.  [is_end] at a position on a data page of the file answers by
    comparing the slot number with the number of occupied slots of the
    page: it returns [true] exactly when the slot number is not below that
    number, whatever the bit of the slot is.  The page it looked at stays
    pinned: its pin count is the [int] that follows the one it had, one
    more than before for a count from 0 to [INT_MAX - 1].  No page's bytes
    change. *)
Theorem is_end_compares_the_slot_with_the_record_count
    {D} `{!DiskManager D} `{!DiskLaws D}
    (fh fh' : RmFileHandle D) (sc : RmScan) (b : bool) :
  file_inv fh →
  RM_FIRST_RECORD_PAGE ≤ rid_page_no (rid_ sc) < num_pages (file_hdr_ fh) →
  Scan.is_end sc fh = Done (b, fh') →
  b = bool_decide
        (count_set (bitmap (page_view fh (rid_page_no (rid_ sc))))
           (num_records_per_page (file_hdr_ fh)) ≤ slot_no (rid_ sc)) ∧
  page_pin_count fh' (rid_page_no (rid_ sc))
  = wrap_int (page_pin_count fh (rid_page_no (rid_ sc)) + 1) ∧
  (0 ≤ page_pin_count fh (rid_page_no (rid_ sc)) < INT_MAX →
   page_pin_count fh' (rid_page_no (rid_ sc))
   = page_pin_count fh (rid_page_no (rid_ sc)) + 1) ∧
  (∀ q, 0 ≤ q → page_view fh' q = page_view fh q).
Proof.
  intros Hfi Hp Hend. unfold RM_FIRST_RECORD_PAGE in Hp. unfold Scan.is_end in Hend.
  destruct (decide (_ >= _)%Z) as [|_]; [lia|].
  destruct (fetch_page_handle (rid_page_no (rid_ sc)) fh) as [[f|] fh1] eqn:Hc; [|done].
  injection Hend as <- <-.
  destruct (fetch_page_handle_inv _ fh _ fh1 Hfi Hc) as (_ & _ & _ & Hviews & Hsome).
  destruct (Hsome f eq_refl) as (_ & pg & Hpg & _).
  destruct (fetch_page_handle_view _ fh f fh1 pg Hfi Hc Hpg) as (Hview & _).
  rewrite (page_of_lookup fh1 f pg Hpg), <-Hview.
  rewrite (fi_count fh Hfi) by (unfold RM_FIRST_RECORD_PAGE; lia).
  pose proof (fetch_page_handle_pin _ fh f fh1 (ok_inv _ (fi_pool _ Hfi)) Hc) as Hpin.
  split; [|split; [done|split; [|done]]].
  - apply bool_decide_ext. lia.
  - intros Hbound. rewrite Hpin. apply wrap_int_small.
    unfold INT_MIN, INT_MAX in *. lia.
Qed.

Lemma is_end_compares_the_slot_with_the_record_count_witness :
  true = bool_decide
           (count_set (bitmap (page_view Examples.scan_file 1)) 4 ≤ 2) ∧
  page_pin_count
    (done_or (true, Examples.scan_file)
       (Scan.is_end (mkScan (mkRid 1 2)) Examples.scan_file)).2 1
  = page_pin_count Examples.scan_file 1 + 1.
Proof.
  destruct (is_end_compares_the_slot_with_the_record_count Examples.scan_file
              (done_or (true, Examples.scan_file)
                 (Scan.is_end (mkScan (mkRid 1 2)) Examples.scan_file)).2
              (mkScan (mkRid 1 2)) true) as (Hb & _ & Hpin & _).
  - exact scan_file_inv.
  - unfold RM_FIRST_RECORD_PAGE. simpl. lia.
  - vm_compute. reflexivity.
  - split; [exact Hb|]. apply Hpin. vm_compute. split; [discriminate|reflexivity].
Defined.
